(** * Open Lotto: the client SDK, the account codec and the round scheduler

    A shallow embedding of the TypeScript sources
    - [packages/types]  (PotStatus, getPotStatus, DISCRIMINATORS, SEEDS),
    - [packages/utils]  (the PDA derivations),
    - [packages/sdk]    (OpenLottoClient: instruction builders, account
                         fetchers and parsers, the Switchboard helper),
    together with a model of the on-chain program, which is not part of the
    TypeScript tree and is therefore written from the specification. *)

From Stdlib Require Import ZArith Lia List Strings.Byte Strings.String.
From stdpp Require Import base option list strings gmap.

Local Open Scope Z_scope.

(** ** JavaScript values: exceptions *)

Module Js.

(** The exceptions the modelled code can raise: [TypeError] and [RangeError]
    of the runtime, the assertion failure of bn.js, and [new Error(msg)]. *)
Inductive exn : Type :=
| TypeError
| RangeError
| AssertionError (msg : string)
| Error (msg : string).

(** A computation that either throws or returns. *)
Definition result (A : Type) : Type := exn + A.

Definition throw {A} (e : exn) : result A := inl e.
Definition ok {A} (a : A) : result A := inr a.

Definition bind {A B} (m : result A) (k : A -> result B) : result B :=
  match m with
  | inl e => inl e
  | inr a => k a
  end.

(** [try { body } catch { return null }] *)
Definition try_or_null {A} (m : result A) : option A :=
  match m with
  | inl _ => None
  | inr a => Some a
  end.

(** A JavaScript string is a sequence of UTF-16 code units; a code unit is
    kept as its high and its low byte. Where the text of a string never
    matters beyond its identity (messages, base58 text, signatures) it
    stays a [string]. *)
Definition code_unit : Type := (byte * byte)%type.
Definition String16 : Type := list code_unit.

(** The string literal of one-byte characters. *)
Definition str (s : string) : String16 :=
  (fun b : byte => (x00, b)) <$> list_byte_of_string s.

End Js.

Import Js.

#[global] Instance result_ret : MRet result := fun _ a => ok a.
#[global] Instance result_bind : MBind result := fun _ _ k m => bind m k.

(** ** Node's Buffer *)

Module Buffer.

Definition byte_val (b : byte) : Z := Z.of_N (Byte.to_N b).

Definition byte_of_Z (z : Z) : byte :=
  default x00 (Byte.of_N (Z.to_N (z mod 256))).

(** [buf.slice(start, end_)] for [0 <= start <= end_]: the view is clamped to
    the buffer, it never throws. *)
Definition slice (data : list byte) (start end_ : nat) : list byte :=
  take (end_ - start) (drop start data).

(** The unsigned number a little-endian byte string denotes. *)
Fixpoint readLE (bs : list byte) : Z :=
  match bs with
  | [] => 0
  | b :: rest => byte_val b + 256 * readLE rest
  end.

Definition readBE (bs : list byte) : Z := readLE (rev bs).

(** The [n] low bytes of [z], least significant first. *)
Fixpoint writeLE (n : nat) (z : Z) : list byte :=
  match n with
  | O => []
  | S k => byte_of_Z z :: writeLE k (z / 256)
  end.

(** [buf.readUInt32LE(offset)]: a RangeError outside the buffer. *)
Definition readUInt32LE (data : list byte) (offset : nat) : result Z :=
  if decide (offset + 4 <= length data)%nat
  then ok (readLE (slice data offset (offset + 4)))
  else throw RangeError.

(** [const b = Buffer.alloc(4); b.writeUInt32LE(value, 0)]: a RangeError
    when [value] is not an unsigned 32-bit number. *)
Definition writeUInt32LE (value : Z) : result (list byte) :=
  if decide (0 <= value < 2 ^ 32)
  then ok (writeLE 4 value)
  else throw RangeError.

(** The number of a code unit, and the code unit of a number below 2^16. *)
Definition unit_val (u : code_unit) : Z := 256 * byte_val u.1 + byte_val u.2.
Definition unit_of_Z (z : Z) : code_unit := (byte_of_Z (z / 256), byte_of_Z z).

Definition is_high (v : Z) : bool := (0xD800 <=? v) && (v <=? 0xDBFF).
Definition is_low (v : Z) : bool := (0xDC00 <=? v) && (v <=? 0xDFFF).

(** The code points a string is written as: a high surrogate followed by a
    low one is one code point above U+FFFF, and a surrogate on its own is
    replaced by U+FFFD. *)
Fixpoint code_points (s : String16) : list Z :=
  match s with
  | [] => []
  | u :: rest =>
      let v := unit_val u in
      if is_high v then
        match rest with
        | u' :: rest' =>
            if is_low (unit_val u')
            then (0x10000 + (v - 0xD800) * 1024 + (unit_val u' - 0xDC00))
                   :: code_points rest'
            else 0xFFFD :: code_points rest
        | [] => [0xFFFD]
        end
      else if is_low v then 0xFFFD :: code_points rest
      else v :: code_points rest
  end.

(** The one to four bytes of a code point in UTF-8. *)
Definition encode_code_point (cp : Z) : list byte :=
  if cp <? 0x80 then [byte_of_Z cp]
  else if cp <? 0x800 then
    [byte_of_Z (0xC0 + cp / 64); byte_of_Z (0x80 + cp mod 64)]
  else if cp <? 0x10000 then
    [byte_of_Z (0xE0 + cp / 4096); byte_of_Z (0x80 + (cp / 64) mod 64);
     byte_of_Z (0x80 + cp mod 64)]
  else
    [byte_of_Z (0xF0 + cp / 262144); byte_of_Z (0x80 + (cp / 4096) mod 64);
     byte_of_Z (0x80 + (cp / 64) mod 64); byte_of_Z (0x80 + cp mod 64)].

(** [Buffer.from(str, "utf8")] *)
Definition from_utf8 (s : String16) : list byte :=
  flat_map encode_code_point (code_points s).

(** The state of the UTF-8 decoder between two bytes: nothing pending, or
    the bits of a code point read so far, the number of bytes it needs
    after the next one, and the range the next byte must lie in. *)
Inductive pending : Type :=
| Idle
| Pending (cp : Z) (more : nat) (lower upper : Z).

(** A byte met with nothing pending: what it gives and what it leaves
    pending. A byte that cannot start a sequence gives U+FFFD. *)
Definition start (b : Z) : list Z * pending :=
  if b <=? 0x7F then ([b], Idle)
  else if (0xC2 <=? b) && (b <=? 0xDF) then
    ([], Pending (b - 0xC0) 0 0x80 0xBF)
  else if (0xE0 <=? b) && (b <=? 0xEF) then
    ([], Pending (b - 0xE0) 1
           (if b =? 0xE0 then 0xA0 else 0x80) (if b =? 0xED then 0x9F else 0xBF))
  else if (0xF0 <=? b) && (b <=? 0xF4) then
    ([], Pending (b - 0xF0) 2
           (if b =? 0xF0 then 0x90 else 0x80) (if b =? 0xF4 then 0x8F else 0xBF))
  else ([0xFFFD], Idle).

(** The code points of a byte sequence read as UTF-8. A sequence that
    breaks off, at a byte out of range or at the end, gives one U+FFFD,
    and the byte that broke it is read again with nothing pending. *)
Fixpoint decode (state : pending) (bytes : list byte) : list Z :=
  match bytes with
  | [] => match state with Idle => [] | Pending _ _ _ _ => [0xFFFD] end
  | byte :: rest =>
      let b := byte_val byte in
      match state with
      | Idle => (start b).1 ++ decode (start b).2 rest
      | Pending cp more lower upper =>
          if (lower <=? b) && (b <=? upper) then
            let cp := cp * 64 + (b - 0x80) in
            match more with
            | O => cp :: decode Idle rest
            | S more => decode (Pending cp more 0x80 0xBF) rest
            end
          else 0xFFFD :: (start b).1 ++ decode (start b).2 rest
      end
  end.

(** The one or two code units of a code point. *)
Definition units_of_code_point (cp : Z) : list code_unit :=
  if cp <? 0x10000 then [unit_of_Z cp]
  else [unit_of_Z (0xD800 + (cp - 0x10000) / 1024);
        unit_of_Z (0xDC00 + (cp - 0x10000) mod 1024)].

(** [buf.toString("utf8")]: invalid bytes come out as U+FFFD. *)
Definition toString_utf8 (bytes : list byte) : String16 :=
  flat_map units_of_code_point (decode Idle bytes).

(** [str.isWellFormed()]: no surrogate stands on its own. *)
Fixpoint isWellFormed (s : String16) : bool :=
  match s with
  | [] => true
  | u :: rest =>
      let v := unit_val u in
      if is_high v then
        match rest with
        | u' :: rest' => is_low (unit_val u') && isWellFormed rest'
        | [] => false
        end
      else negb (is_low v) && isWellFormed rest
  end.

(** [Buffer.from(value)] for a value that may be [undefined]: a TypeError
    when it is. *)
Definition from (value : option (list byte)) : result (list byte) :=
  match value with
  | Some bs => ok bs
  | None => throw TypeError
  end.

End Buffer.

(** ** bn.js *)

Module BN.

(** A [BN] is an arbitrary-precision integer. *)
Definition t : Type := Z.

(** [new BN(bytes, "le")] *)
Definition of_le (bs : list byte) : t := Buffer.readLE bs.

Definition isZero (x : t) : bool := x =? 0.

Definition add (x y : t) : t := x + y.

(** [x.toNumber()]: bn.js asserts that the magnitude fits 53 bits. *)
Definition toNumber (x : t) : result Z :=
  if Z.abs x <? 2 ^ 53
  then ok x
  else throw (AssertionError "Number can only safely store up to 53 bits").

(** [x.toArrayLike(Buffer, "le", len)]: bn.js asserts that the magnitude
    fits [len] bytes and writes the magnitude. *)
Definition toArrayLike_le (x : t) (len : nat) : result (list byte) :=
  if Z.abs x <? 256 ^ Z.of_nat len
  then ok (Buffer.writeLE len (Z.abs x))
  else throw (AssertionError "byte array longer than desired length").

(** [x.eq(y)] and [x.gt(y)] *)
Definition eq (x y : t) : bool := x =? y.
Definition gt (x y : t) : bool := y <? x.

End BN.

(** ** JavaScript numbers

    The numbers the modelled code computes with are doubles with integer
    values, kept as the integer. Sums and differences of such numbers are
    exact up to 2^53 and rounded to the nearest double, ties to even,
    beyond; the quotient of two of them is rounded the same way before
    [Math.floor] sees it. Magnitudes stay far below the largest double. *)

Module Number.

(** The integer nearest to [n / u], ties to even, for [0 <= n], [0 < u]. *)
Definition nearest (n u : Z) : Z :=
  let q := n / u in
  let r := n mod u in
  if 2 * r <? u then q
  else if u <? 2 * r then q + 1
  else if Z.even q then q else q + 1.

(** The double nearest to an integer: 53 significant bits. *)
Definition round (z : Z) : Z :=
  if Z.abs z <? 2 ^ 53 then z
  else
    let ulp := 2 ^ (Z.log2 (Z.abs z) - 52) in
    Z.sgn z * (nearest (Z.abs z) ulp * ulp).

(** [x - y] *)
Definition sub (x y : Z) : Z := round (x - y).

(** [Math.floor(x / d)] for [0 <= x] and [0 < d]: the quotient is rounded
    to 53 significant bits, then floored. *)
Definition floor_div (x d : Z) : Z :=
  if x <? d then
    if d * (2 ^ 54 - 1) <=? x * 2 ^ 54 then 1 else 0
  else
    let k := Z.log2 (x / d) in
    if k <=? 52 then nearest (x * 2 ^ (52 - k)) d / 2 ^ (52 - k)
    else nearest x (d * 2 ^ (k - 52)) * 2 ^ (k - 52).

End Number.

(** ** web3.js public keys *)

Module PublicKey.

(** A public key is the 256-bit number web3.js keeps in its [_bn] field. *)
Definition t : Type := Z.

(** [PublicKey.default], the all-zero key. *)
Definition default : t := 0.

(** [new PublicKey(bytes)]: the bytes are read big-endian; more than 32
    significant bytes are refused. *)
Definition new (bs : list byte) : result t :=
  let v := Buffer.readBE bs in
  if v <? 2 ^ 256 then ok v else throw (Error "Invalid public key input").

(** [key.toBuffer()]: 32 bytes, big-endian. *)
Definition toBuffer (k : t) : list byte := rev (Buffer.writeLE 32 k).

Definition equals (a b : t) : bool := a =? b.

(** The base-58 alphabet of addresses, and the number a base-58 string
    denotes ([None] on a character outside the alphabet). *)
Definition base58_alphabet : string :=
  "123456789ABCDEFGHJKLMNPQRSTUVWXYZabcdefghijkmnopqrstuvwxyz".

Fixpoint base58_digit (c : Ascii.ascii) (alphabet : string) (i : Z) : option Z :=
  match alphabet with
  | EmptyString => None
  | String a rest =>
      if Ascii.eqb a c then Some i else base58_digit c rest (i + 1)
  end.

Fixpoint base58_number (s : string) (acc : Z) : option Z :=
  match s with
  | EmptyString => Some acc
  | String c rest =>
      match base58_digit c base58_alphabet 0 with
      | Some d => base58_number rest (acc * 58 + d)
      | None => None
      end
  end.

End PublicKey.

(** ** packages/types *)

Module Types.

Inductive PotStatus : Type := Active | Drawing | Settled | Closed.

#[global] Instance PotStatus_eq_dec : EqDecision PotStatus.
Proof. solve_decision. Defined.

(** The record [parsePotAccount] returns. *)
Record Pot : Type := mkPot {
  potManager : PublicKey.t;
  totalParticipants : BN.t;
  startTimestamp : BN.t;
  endTimestamp : BN.t;
  winningSlot : BN.t;
  randomnessAccount : PublicKey.t
}.

Record Ticket : Type := mkTicket {
  participant : PublicKey.t;
  index : BN.t
}.

(** The record [parsePotManagerAccount] returns; [bump] is [data[offset]],
    which is [undefined] outside the buffer. *)
Record PotManager : Type := mkPotManager {
  authority : PublicKey.t;
  treasury : PublicKey.t;
  tokenMint : PublicKey.t;
  rent : BN.t;
  lastRandomNumber : BN.t;
  timestamps : BN.t * BN.t;
  bump : option byte;
  name : String16
}.

(** [getPotStatus(pot)], with [now = Math.floor(Date.now() / 1000)] as an
    argument. The three [const]s are evaluated before the first test, so
    both [toNumber] calls run whatever the time is. *)
Definition getPotStatus (now : Z) (pot : Pot) : result PotStatus :=
  endTime ← BN.toNumber (endTimestamp pot);
  let hasRandomness := negb (PublicKey.equals (randomnessAccount pot) PublicKey.default) in
  winning ← BN.toNumber (winningSlot pot);
  let hasWinner := 0 <? winning in
  if now <? endTime then ok Active
  else if hasWinner then ok Settled
  else if hasRandomness then ok Drawing
  else ok Closed.

(** The status table of the specification, read literally: a second
    definition, to be compared with [getPotStatus]. *)
Definition derived_status (now : Z) (pot : Pot) : PotStatus :=
  if decide (now < endTimestamp pot) then Active
  else if decide (winningSlot pot <> 0) then Settled
  else if decide (randomnessAccount pot <> PublicKey.default) then Drawing
  else Closed.

(** The value of [getTimeRemaining]. *)
Record TimeRemaining : Type := mkTimeRemaining {
  days : Z;
  hours : Z;
  minutes : Z;
  seconds : Z;
  total : Z
}.

(** [getTimeRemaining(endTimestamp)], with
    [now = Math.floor(Date.now() / 1000)] as an argument. The difference
    and the three quotients are computed on doubles; [%] is exact. *)
Definition getTimeRemaining (now : Z) (endTimestamp : BN.t)
  : result TimeRemaining :=
  end_ ← BN.toNumber endTimestamp;
  let total := Z.max 0 (Number.sub end_ now) in
  ok (mkTimeRemaining (Number.floor_div total (60 * 60 * 24))
                      (Number.floor_div (Z.rem total (60 * 60 * 24)) (60 * 60))
                      (Number.floor_div (Z.rem total (60 * 60)) 60)
                      (Z.rem total 60)
                      total).

(** [DISCRIMINATORS]: a JavaScript object, read by property name. *)
Definition DISCRIMINATORS : gmap string (list byte) :=
  {[ "POT" := [xee; x76; x3c; xaf; xb2; xbf; x3b; x3a];
     "TICKET" := [x29; xe4; x18; xa5; x4e; x5a; xeb; xc8] ]}.

(** [PROGRAM_ID = new PublicKey("FVzki74o5zsTDK1ShhQ6EyR3m2ft7HRgeSkCiEsE8aDf")] *)
Definition PROGRAM_ID : PublicKey.t :=
  Eval vm_compute in
    default 0 (PublicKey.base58_number
                 "FVzki74o5zsTDK1ShhQ6EyR3m2ft7HRgeSkCiEsE8aDf" 0).

(** [SEEDS] *)
Definition SEED_MANAGER : list byte := Buffer.from_utf8 (str "manager").
Definition SEED_POT : list byte := Buffer.from_utf8 (str "pot").
Definition SEED_TICKET : list byte := Buffer.from_utf8 (str "ticket").
Definition SEED_TREASURY : list byte := Buffer.from_utf8 (str "treasury").
Definition SEED_ESCROW : list byte := Buffer.from_utf8 (str "escrow").
Definition SEED_WAGER_ESCROW : list byte := Buffer.from_utf8 (str "wagerEscrow").

End Types.

Import Types.

(** ** The environment of the client

    Hashing, address derivation and the token helpers come from web3.js,
    spl-token, js-sha256 and bs58; the client code is read over any
    implementation of them. *)

Record AccountMeta : Type := mkMeta {
  pubkey : PublicKey.t;
  isSigner : bool;
  isWritable : bool
}.

Record TransactionInstruction : Type := mkInstruction {
  programId : PublicKey.t;
  keys : list AccountMeta;
  data : list byte
}.

Class Web3 : Type := {
  (** [sha256.array(message)] *)
  sha256_array : string -> list byte;
  (** [PublicKey.findProgramAddressSync(seeds, programId)] *)
  findProgramAddressSync : list (list byte) -> PublicKey.t -> result (PublicKey.t * Z);
  (** [getAssociatedTokenAddress(mint, owner)] *)
  getAssociatedTokenAddress : PublicKey.t -> PublicKey.t -> result PublicKey.t;
  (** [createAssociatedTokenAccountInstruction(payer, ata, owner, mint)] *)
  createAssociatedTokenAccountInstruction :
    PublicKey.t -> PublicKey.t -> PublicKey.t -> PublicKey.t -> TransactionInstruction;
  (** [bs58.encode(bytes)] *)
  bs58_encode : list byte -> string;
  SystemProgram_programId : PublicKey.t;
  TOKEN_PROGRAM_ID : PublicKey.t;
  SYSVAR_RENT_PUBKEY : PublicKey.t
}.

(** ** packages/utils: address derivation *)

Module Utils.
Section Derive.
Context `{Web3}.

Definition derivePotManagerPDA (authority : PublicKey.t) (managerName : String16)
  : result (PublicKey.t * Z) :=
  findProgramAddressSync
    [SEED_MANAGER; PublicKey.toBuffer authority; Buffer.from_utf8 managerName]
    PROGRAM_ID.

Definition derivePotPDA (potManager : PublicKey.t) (endTimestamp : BN.t)
  : result (PublicKey.t * Z) :=
  seed ← BN.toArrayLike_le endTimestamp 8;
  findProgramAddressSync [SEED_POT; PublicKey.toBuffer potManager; seed] PROGRAM_ID.

Definition deriveTicketPDA (pot : PublicKey.t) (index : BN.t)
  : result (PublicKey.t * Z) :=
  seed ← BN.toArrayLike_le index 8;
  findProgramAddressSync [SEED_TICKET; PublicKey.toBuffer pot; seed] PROGRAM_ID.

Definition deriveTreasuryPDA : result (PublicKey.t * Z) :=
  findProgramAddressSync [SEED_TREASURY] PROGRAM_ID.

Definition deriveEscrowPDA : result (PublicKey.t * Z) :=
  findProgramAddressSync [SEED_ESCROW] PROGRAM_ID.

Definition deriveWagerEscrowPDA : result (PublicKey.t * Z) :=
  findProgramAddressSync [SEED_WAGER_ESCROW] PROGRAM_ID.

End Derive.
End Utils.

(** ** The cluster as the client sees it *)

Record AccountInfo : Type := mkAccountInfo {
  account_data : list byte;
  account_owner : PublicKey.t
}.

(** A [memcmp] filter of [getProgramAccounts]. *)
Record Memcmp : Type := mkMemcmp {
  memcmp_offset : nat;
  memcmp_bytes : string
}.

Record Transaction : Type := mkTransaction {
  recentBlockhash : string;
  feePayer : PublicKey.t;
  instructions : list TransactionInstruction
}.

(** The answers of the RPC node. Every request may also fail. *)
Record Connection : Type := mkConnection {
  getAccountInfo : PublicKey.t -> result (option AccountInfo);
  getProgramAccounts : PublicKey.t -> list Memcmp -> result (list (PublicKey.t * AccountInfo));
  getLatestBlockhash : result (string * Z);
  sendRawTransaction : Transaction -> result string;
  confirmTransaction : string -> result unit
}.

(** The requests a client call issues, in order: to the node and, for a
    signature, to the wallet. *)
Inductive Rpc : Type :=
| GetAccountInfo (address : PublicKey.t)
| GetProgramAccounts (program : PublicKey.t) (filters : list Memcmp)
| GetLatestBlockhash
| SignTransaction (tx : Transaction)
| SendRawTransaction (tx : Transaction)
| ConfirmTransaction (signature : string).

(** Client code runs against the node and the wallet, appends its requests
    to a log and may throw: a state and error monad over the request log. *)
Definition Client (A : Type) : Type := list Rpc -> result A * list Rpc.

#[global] Instance Client_ret : MRet Client := fun _ a log => (ok a, log).
#[global] Instance Client_bind : MBind Client := fun _ _ k m log =>
  match m log with
  | (inl e, log') => (inl e, log')
  | (inr a, log') => k a log'
  end.

(** A computation without requests. *)
Definition lift {A} (m : result A) : Client A := fun log => (m, log).

(** One request and its answer. *)
Definition request {A} (r : Rpc) (answer : result A) : Client A :=
  fun log => (answer, log ++ [r]).

Record WalletAdapter : Type := mkWallet {
  wallet_publicKey : option PublicKey.t;
  signTransaction : Transaction -> result Transaction
}.

Inductive Network : Type := MainnetBeta | Devnet | Localnet.

Record WithAddress (A : Type) : Type := mkWithAddress {
  record : A;
  address : PublicKey.t
}.
Arguments mkWithAddress {A} _ _.
Arguments record {A} _.
Arguments address {A} _.

Inductive RandomnessStatus : Type :=
| NotFound | Initialized | Committed | Revealed.

(** ** packages/sdk: OpenLottoClient *)

Module Sdk.
Section Client.
Context `{Web3}.

Record OpenLottoClient : Type := mkClient {
  connection : Connection;
  wallet : option WalletAdapter;
  network : Network
}.

(** [get publicKey()]: [this.wallet?.publicKey || null] *)
Definition publicKey (self : OpenLottoClient) : option PublicKey.t :=
  w ← wallet self; wallet_publicKey w.

(** *** Private helpers *)

Definition sendTransaction (self : OpenLottoClient)
    (ixs : list TransactionInstruction) : Client string :=
  match wallet self, publicKey self with
  | Some w, Some payer =>
      latest ← request GetLatestBlockhash (getLatestBlockhash (connection self));
      let transaction := mkTransaction latest.1 payer ixs in
      signed ← request (SignTransaction transaction)
                       (signTransaction w transaction);
      signature ← request (SendRawTransaction signed)
                          (sendRawTransaction (connection self) signed);
      _ ← request (ConfirmTransaction signature)
                  (confirmTransaction (connection self) signature);
      mret signature
  | _, _ => lift (throw (Error "Wallet not connected"))
  end.

Definition getDiscriminator (name : string) : list byte :=
  take 8 (sha256_array ("global:" +:+ name)).

Definition encodeString (str : String16) : result (list byte) :=
  let bytes := Buffer.from_utf8 str in
  lenBuffer ← Buffer.writeUInt32LE (Z.of_nat (length bytes));
  ok (lenBuffer ++ bytes).

Definition parsePotAccount (data : list byte) : option Pot :=
  try_or_null (
    (* Skip 8-byte discriminator *)
    let offset := 8%nat in
    potManager ← PublicKey.new (Buffer.slice data offset (offset + 32));
    let offset := (offset + 32)%nat in
    let totalParticipants := BN.of_le (Buffer.slice data offset (offset + 8)) in
    let offset := (offset + 8)%nat in
    let startTimestamp := BN.of_le (Buffer.slice data offset (offset + 8)) in
    let offset := (offset + 8)%nat in
    let endTimestamp := BN.of_le (Buffer.slice data offset (offset + 8)) in
    let offset := (offset + 8)%nat in
    let winningSlot := BN.of_le (Buffer.slice data offset (offset + 8)) in
    let offset := (offset + 8)%nat in
    randomnessAccount ← PublicKey.new (Buffer.slice data offset (offset + 32));
    ok (mkPot potManager totalParticipants startTimestamp endTimestamp
              winningSlot randomnessAccount)).

Definition parseTicketAccount (data : list byte) : option Ticket :=
  try_or_null (
    (* Skip 8-byte discriminator *)
    let offset := 8%nat in
    participant ← PublicKey.new (Buffer.slice data offset (offset + 32));
    let offset := (offset + 32)%nat in
    let index := BN.of_le (Buffer.slice data offset (offset + 8)) in
    ok (mkTicket participant index)).

Definition parsePotManagerAccount (data : list byte) : option PotManager :=
  try_or_null (
    (* Skip 8-byte discriminator *)
    let offset := 8%nat in
    authority ← PublicKey.new (Buffer.slice data offset (offset + 32));
    let offset := (offset + 32)%nat in
    treasury ← PublicKey.new (Buffer.slice data offset (offset + 32));
    let offset := (offset + 32)%nat in
    tokenMint ← PublicKey.new (Buffer.slice data offset (offset + 32));
    let offset := (offset + 32)%nat in
    let rent := BN.of_le (Buffer.slice data offset (offset + 8)) in
    let offset := (offset + 8)%nat in
    let lastRandomNumber := BN.of_le (Buffer.slice data offset (offset + 8)) in
    let offset := (offset + 8)%nat in
    let currentEndTs := BN.of_le (Buffer.slice data offset (offset + 8)) in
    let offset := (offset + 8)%nat in
    let nextEndTs := BN.of_le (Buffer.slice data offset (offset + 8)) in
    let offset := (offset + 8)%nat in
    let bump := data !! offset in
    let offset := (offset + 1)%nat in
    (* Read string: 4 bytes length prefix + content *)
    nameLen ← Buffer.readUInt32LE data offset;
    let offset := (offset + 4)%nat in
    let name := Buffer.toString_utf8
                  (Buffer.slice data offset (offset + Z.to_nat nameLen)) in
    ok (mkPotManager authority treasury tokenMint rent lastRandomNumber
                     (currentEndTs, nextEndTs) bump name)).

(** *** Admin instructions *)

Definition initPotManager (self : OpenLottoClient)
    (managerName : String16) (tokenMint : PublicKey.t)
    (endTimestamp potDuration : BN.t) : Client string :=
  match publicKey self with
  | None => lift (throw (Error "Wallet not connected"))
  | Some authority =>
      (* Derive PDAs *)
      potManager ← lift (Utils.derivePotManagerPDA authority managerName);
      treasuryTokenAccount ← lift Utils.deriveTreasuryPDA;
      escrowTokenAccount ← lift Utils.deriveEscrowPDA;
      firstPot ← lift (Utils.derivePotPDA potManager.1 endTimestamp);
      let nextEndTs := BN.add endTimestamp potDuration in
      nextPot ← lift (Utils.derivePotPDA potManager.1 nextEndTs);
      (* Build instruction *)
      let discriminator := getDiscriminator "init_pot_manager" in
      endBytes ← lift (BN.toArrayLike_le endTimestamp 8);
      durationBytes ← lift (BN.toArrayLike_le potDuration 8);
      nameBytes ← lift (encodeString managerName);
      let data := discriminator ++ endBytes ++ durationBytes ++ nameBytes in
      let keys :=
        [ mkMeta potManager.1 false true;
          mkMeta tokenMint false false;
          mkMeta treasuryTokenAccount.1 false true;
          mkMeta escrowTokenAccount.1 false true;
          mkMeta firstPot.1 false true;
          mkMeta nextPot.1 false true;
          mkMeta authority true true;
          mkMeta SystemProgram_programId false false;
          mkMeta TOKEN_PROGRAM_ID false false;
          mkMeta SYSVAR_RENT_PUBKEY false false ] in
      sendTransaction self [mkInstruction PROGRAM_ID keys data]
  end.

(** *** User instructions *)

Definition enterTicket (self : OpenLottoClient)
    (pot : PublicKey.t) (potTotalParticipants : BN.t) (tokenMint : PublicKey.t)
  : Client string :=
  match publicKey self with
  | None => lift (throw (Error "Wallet not connected"))
  | Some user =>
      ticket ← lift (Utils.deriveTicketPDA pot potTotalParticipants);
      escrowTokenAccount ← lift Utils.deriveEscrowPDA;
      treasuryTokenAccount ← lift Utils.deriveTreasuryPDA;
      (* Get user's ATA address *)
      userTokenAccount ← lift (getAssociatedTokenAddress tokenMint user);
      (* Check if user's ATA exists, if not create it *)
      ataInfo ← request (GetAccountInfo userTokenAccount)
                        (getAccountInfo (connection self) userTokenAccount);
      let createAta :=
        match ataInfo with
        | None => [createAssociatedTokenAccountInstruction
                     user userTokenAccount user tokenMint]
        | Some _ => []
        end in
      let discriminator := getDiscriminator "enter_ticket" in
      let keys :=
        [ mkMeta user true true;
          mkMeta pot false true;
          mkMeta ticket.1 false true;
          mkMeta userTokenAccount false true;
          mkMeta escrowTokenAccount.1 false true;
          mkMeta treasuryTokenAccount.1 false true;
          mkMeta tokenMint false false;
          mkMeta TOKEN_PROGRAM_ID false false;
          mkMeta SystemProgram_programId false false ] in
      sendTransaction self (createAta ++ [mkInstruction PROGRAM_ID keys discriminator])
  end.

(** *** Account fetchers *)

Definition getPot (self : OpenLottoClient) (address : PublicKey.t)
  : Client (option Pot) :=
  accountInfo ← request (GetAccountInfo address)
                        (getAccountInfo (connection self) address);
  match accountInfo with
  | None => mret None
  | Some info => mret (parsePotAccount (account_data info))
  end.

Definition getTicket (self : OpenLottoClient) (address : PublicKey.t)
  : Client (option Ticket) :=
  accountInfo ← request (GetAccountInfo address)
                        (getAccountInfo (connection self) address);
  match accountInfo with
  | None => mret None
  | Some info => mret (parseTicketAccount (account_data info))
  end.

Definition getAllPots (self : OpenLottoClient)
  : Client (list (WithAddress Pot)) :=
  discriminator ← lift (Buffer.from (DISCRIMINATORS !! "POT"));
  let filters := [mkMemcmp 0 (bs58_encode discriminator)] in
  accounts ← request (GetProgramAccounts PROGRAM_ID filters)
                     (getProgramAccounts (connection self) PROGRAM_ID filters);
  mret (omap (fun account : PublicKey.t * AccountInfo =>
                pot ← parsePotAccount (account_data account.2);
                Some (mkWithAddress pot account.1))
             accounts).

Definition getWinningTicket (self : OpenLottoClient) (pot : PublicKey.t)
  : Client (option (WithAddress Ticket)) :=
  potData ← getPot self pot;
  match potData with
  | None => mret None
  | Some potData =>
      if BN.isZero (winningSlot potData) then mret None
      else
        ticketAddress ← lift (Utils.deriveTicketPDA pot (winningSlot potData));
        ticket ← getTicket self ticketAddress.1;
        match ticket with
        | None => mret None
        | Some ticket => mret (Some (mkWithAddress ticket ticketAddress.1))
        end
  end.

Definition getPotManager (self : OpenLottoClient) (address : PublicKey.t)
  : Client (option PotManager) :=
  accountInfo ← request (GetAccountInfo address)
                        (getAccountInfo (connection self) address);
  match accountInfo with
  | None => mret None
  | Some info => mret (parsePotManagerAccount (account_data info))
  end.

(** The filter is an argument of [getProgramAccounts], so it is built,
    [Buffer.from] included, before the request is made. *)
Definition getAllPotManagers (self : OpenLottoClient)
  : Client (list (WithAddress PotManager)) :=
  discriminator ← lift (Buffer.from (DISCRIMINATORS !! "POT_MANAGER"));
  let filters := [mkMemcmp 0 (bs58_encode discriminator)] in
  accounts ← request (GetProgramAccounts PROGRAM_ID filters)
                     (getProgramAccounts (connection self) PROGRAM_ID filters);
  mret (omap (fun account : PublicKey.t * AccountInfo =>
                manager ← parsePotManagerAccount (account_data account.2);
                Some (mkWithAddress manager account.1))
             accounts).

(** *** Switchboard helpers *)

Definition checkRandomnessStatus (self : OpenLottoClient)
    (randomnessAccount : PublicKey.t) : Client RandomnessStatus :=
  accountInfo ← request (GetAccountInfo randomnessAccount)
                        (getAccountInfo (connection self) randomnessAccount);
  match accountInfo with
  | None => mret NotFound
  | Some info =>
      let data := account_data info in
      (* Check if revealed (reveal_slot > 0) *)
      let revealSlotOffset := 144%nat in
      if decide (length data < revealSlotOffset + 8)%nat then mret Initialized
      else
        let revealSlot :=
          BN.of_le (Buffer.slice data revealSlotOffset (revealSlotOffset + 8)) in
        if negb (BN.isZero revealSlot) then mret Revealed
        else
          (* Check if committed (seed_slot > 0) *)
          let seedSlotOffset := 104%nat in
          let seedSlot :=
            BN.of_le (Buffer.slice data seedSlotOffset (seedSlotOffset + 8)) in
          if negb (BN.isZero seedSlot) then mret Committed
          else mret Initialized
  end.

(** *** The other instructions *)

Definition drawLottery (self : OpenLottoClient)
    (pot randomnessAccount : PublicKey.t) : Client string :=
  match publicKey self with
  | None => lift (throw (Error "Wallet not connected"))
  | Some payer =>
      wagerEscrow ← lift Utils.deriveWagerEscrowPDA;
      let discriminator := getDiscriminator "draw_lottery" in
      let data := discriminator ++ PublicKey.toBuffer randomnessAccount in
      let keys :=
        [ mkMeta pot false true;
          mkMeta payer true true;
          mkMeta randomnessAccount false false;
          mkMeta wagerEscrow.1 false true;
          mkMeta SystemProgram_programId false false ] in
      sendTransaction self [mkInstruction PROGRAM_ID keys data]
  end.

Definition settleLottery (self : OpenLottoClient)
    (pot randomnessAccount : PublicKey.t) : Client string :=
  match publicKey self with
  | None => lift (throw (Error "Wallet not connected"))
  | Some signer =>
      let discriminator := getDiscriminator "settle_lottery" in
      let keys :=
        [ mkMeta pot false true;
          mkMeta randomnessAccount false false;
          mkMeta signer true false ] in
      sendTransaction self [mkInstruction PROGRAM_ID keys discriminator]
  end.

Definition claimPrize (self : OpenLottoClient)
    (ticket winner pot tokenMint : PublicKey.t) : Client string :=
  match publicKey self with
  | None => lift (throw (Error "Wallet not connected"))
  | Some _ =>
      escrowTokenAccount ← lift Utils.deriveEscrowPDA;
      winnerTokenAccount ← lift (getAssociatedTokenAddress tokenMint winner);
      let discriminator := getDiscriminator "claim_prize" in
      let keys :=
        [ mkMeta ticket false true;
          mkMeta winner false false;
          mkMeta pot false true;
          mkMeta escrowTokenAccount.1 false true;
          mkMeta winnerTokenAccount false true;
          mkMeta tokenMint false false;
          mkMeta TOKEN_PROGRAM_ID false false ] in
      sendTransaction self [mkInstruction PROGRAM_ID keys discriminator]
  end.

(** *** The other fetchers *)

(** [array.filter(callback)] for a callback that may throw: the elements
    are tested in order, and the first exception ends the call. *)
Fixpoint filter_throwing {A} (callback : A -> result bool) (l : list A)
  : result (list A) :=
  match l with
  | [] => ok []
  | x :: rest =>
      keep ← callback x;
      kept ← filter_throwing callback rest;
      ok (if keep : bool then x :: kept else kept)
  end.

(** [getActivePots()], with the time [getPotStatus] reads as an argument. *)
Definition getActivePots (self : OpenLottoClient) (now : Z)
  : Client (list (WithAddress Pot)) :=
  allPots ← getAllPots self;
  lift (filter_throwing
          (fun pot : WithAddress Pot =>
             status ← getPotStatus now (record pot);
             ok (bool_decide (status = Active)))
          allPots).

Definition getPotsForManager (self : OpenLottoClient)
    (managerAddress : PublicKey.t) : Client (list (WithAddress Pot)) :=
  allPots ← getAllPots self;
  mret (filter (fun pot : WithAddress Pot =>
                  PublicKey.equals (potManager (record pot)) managerAddress = true)
               allPots).

End Client.
End Sdk.

(** ** The pages that use the client

    The pure parts of two pages of [apps/web]: the row of a ticket on the
    tickets page and the filter of the lottery list. *)

Module Web.

(** The entries of [pots : Map<string, PotWithAddress>], in insertion
    order. *)
Abbreviation PotMap := (list (string * WithAddress Pot)).

(** [Array.from(pots.entries()).find(...)?.[1]]: the first pot whose winning
    slot equals the ticket's index or that has more participants than the
    index. *)
Definition potOfTicket (pots : PotMap) (ticket : WithAddress Ticket)
  : option (WithAddress Pot) :=
  potEntry ← List.find (fun entry : string * WithAddress Pot =>
                     BN.eq (winningSlot (record entry.2)) (index (record ticket))
                     || BN.gt (totalParticipants (record entry.2))
                              (index (record ticket)))
                  pots;
  Some potEntry.2.

(** [isWinner = pot && pot.winningSlot.eq(ticket.index)], as a truth
    value. *)
Definition isWinner (pots : PotMap) (ticket : WithAddress Ticket) : bool :=
  match potOfTicket pots ticket with
  | Some pot => BN.eq (winningSlot (record pot)) (index (record ticket))
  | None => false
  end.

(** [canClaim = isWinner && getPotStatus(pot) === PotStatus.Settled], as a
    truth value; [getPotStatus] runs only when [isWinner] holds. *)
Definition canClaim (now : Z) (pots : PotMap) (ticket : WithAddress Ticket)
  : result bool :=
  match potOfTicket pots ticket with
  | Some pot =>
      if BN.eq (winningSlot (record pot)) (index (record ticket)) then
        status ← getPotStatus now (record pot);
        ok (bool_decide (status = Settled))
      else ok false
  | None => ok false
  end.

(** The filter of the lottery list. *)
Inductive ListFilter : Type := FilterAll | FilterActive | FilterEnded.

(** [filteredPots]: [getPotStatus] runs for every pot, whatever the
    filter. *)
Definition filteredPots (now : Z) (filter : ListFilter)
    (pots : list (WithAddress Pot)) : result (list (WithAddress Pot)) :=
  Sdk.filter_throwing
    (fun pot : WithAddress Pot =>
       status ← getPotStatus now (record pot);
       match filter with
       | FilterActive => ok (bool_decide (status = Active))
       | FilterEnded => ok (bool_decide (status <> Active))
       | FilterAll => ok true
       end)
    pots.

End Web.

(** ** packages/utils: text

    [String.prototype.slice(start, end)] on a string of one-byte
    characters, as base58 addresses and signatures are: a negative index
    counts from the end, both ends are clamped to the string, and an empty
    range gives the empty string. *)

Module Format.

Definition slice (s : string) (start : Z) (end_ : option Z) : string :=
  let len := Z.of_nat (String.length s) in
  let from := if start <? 0 then Z.max (len + start) 0 else Z.min start len in
  let intEnd := match end_ with Some e => e | None => len end in
  let to := if intEnd <? 0 then Z.max (len + intEnd) 0 else Z.min intEnd len in
  if to <=? from then ""%string
  else String.substring (Z.to_nat from) (Z.to_nat (to - from)) s.

(** [shortenAddress(address, chars)] for an address given as a string. *)
Definition shortenAddress (address : string) (chars : Z) : string :=
  slice address 0 (Some chars) +:+ "..." +:+ slice address (- chars) None.

End Format.

(** ** apps/admin: the draw page

    The two buttons of the draw page, as functions of the component's
    state. *)

Module Admin.

(** [potStatus = selectedPotData ? getPotStatus(selectedPotData) : null] *)
Definition potStatus (now : Z) (selectedPotData : option (WithAddress Pot))
  : result (option PotStatus) :=
  match selectedPotData with
  | Some pot => status ← getPotStatus now (record pot); ok (Some status)
  | None => ok None
  end.

(** [disabled={loading || !selectedPot || potStatus !== PotStatus.Closed}] *)
Definition drawDisabled (loading : bool) (selectedPot : string)
    (potStatus : option PotStatus) : bool :=
  loading || String.eqb selectedPot "" || bool_decide (potStatus <> Some Closed).

(** [disabled={loading || !selectedPot || potStatus !== PotStatus.Drawing}] *)
Definition settleDisabled (loading : bool) (selectedPot : string)
    (potStatus : option PotStatus) : bool :=
  loading || String.eqb selectedPot "" || bool_decide (potStatus <> Some Drawing).

End Admin.

(** ** Observations on a client run

    What a caller can tell from the result of a client call and from the
    requests it made. *)

(** A client computation that throws and sends no transaction: whatever
    the log, no [SendRawTransaction] is added to it. *)
Definition throws_unsent {A} (m : Client A) : Prop :=
  forall log : list Rpc,
    (exists err : exn, (m log).1 = throw err) /\
    (forall tx : Transaction,
        SendRawTransaction tx ∈ (m log).2 -> SendRawTransaction tx ∈ log).

(** A client computation that throws before any request. *)
Definition throws_at_once {A} (m : Client A) : Prop :=
  forall log : list Rpc, exists err : exn, m log = (throw err, log).

(** The accounts an instruction marks as signers, in order. *)
Definition signers (ix : TransactionInstruction) : list PublicKey.t :=
  pubkey <$> filter (fun meta : AccountMeta => isSigner meta = true) (keys ix).

(** The wallet was asked to sign a transaction that it pays for and whose
    last instruction is addressed to the lottery program and marks
    [expected] as its signers. *)
Definition asked_to_sign (payer : PublicKey.t) (log : list Rpc)
    (expected : list PublicKey.t) : Prop :=
  exists (tx : Transaction) (ix : TransactionInstruction),
    SignTransaction tx ∈ log /\
    feePayer tx = payer /\
    last (instructions tx) = Some ix /\
    programId ix = PROGRAM_ID /\
    signers ix = expected.

(** A Pot record [getPotStatus] can read: its end timestamp and winning
    index fit the 53 bits of a JavaScript number. *)
Definition status_defined (pot : Pot) : Prop :=
  Z.abs (endTimestamp pot) < 2 ^ 53 /\ Z.abs (winningSlot pot) < 2 ^ 53.

(** ** The on-chain program

    The TypeScript tree holds the client only; the program that executes
    the instructions ([programs/open-lotto]) is described by the
    specification, from which this section is written. Addresses are kept
    structural: the specification makes an address a pure,
    collision-resistant function of the identifying fields, so a manager is
    addressed by (authority, name), a pot by (manager, end timestamp) and a
    ticket by (pot, index). *)

Module Program.

Abbreviation manager_addr := (PublicKey.t * string)%type.
Abbreviation pot_addr := (PublicKey.t * string * Z)%type.
Abbreviation ticket_addr := (PublicKey.t * string * Z * Z)%type.

(** Modelled from the spec: the PotManager record of the data model
    (authority, token-unit identifier, round duration, the pair
    current-round-end / next-round-end, name; the treasury reference is the
    one fixed Treasury address and is left out); the program source is not
    in the tree. *)
Record manager : Type := mkManager {
  m_authority : PublicKey.t;
  m_token : PublicKey.t;
  m_duration : Z;
  m_timestamps : Z * Z;
  m_name : string
}.

(** Modelled from the spec: the Pot record of the data model (owning
    manager, participant count, start and end timestamp, winning index with
    0 for undetermined, randomness-request reference with null for none);
    the program source is not in the tree. *)
Record pot : Type := mkPot {
  p_manager : manager_addr;
  p_participants : Z;
  p_start : Z;
  p_end : Z;
  p_winning : Z;
  p_randomness : option PublicKey.t
}.

(** Modelled from the spec: the Ticket record of the data model (owning
    participant, index); the program source is not in the tree. *)
Record ticket : Type := mkTicket {
  t_owner : PublicKey.t;
  t_index : Z
}.

(** Modelled from the spec: the ledger the operations act on, with the
    records by address, the two custody balances (Escrow, Treasury) and the
    participants' funds; the program source is not in the tree. *)
Record ledger : Type := mkLedger {
  managers : gmap manager_addr manager;
  pots : gmap pot_addr pot;
  tickets : gmap ticket_addr ticket;
  escrow : Z;
  treasury : Z;
  funds : gmap PublicKey.t Z
}.

(** Modelled from the spec: the named failure conditions of the error
    taxonomy that the modelled operations can meet, with the failure of
    creating a record at an address that exists and of naming a record
    that does not; the program source is not in the tree. *)
Inductive error : Type :=
| EndTimestampNotInFuture
| NameTooLong
| AddressInUse
| UnknownAccount
| RoundNotEnded
| RoundNotActive
| InsufficientFunds.

(** Modelled from the spec: the derived status table of the Pot ("now < end
    timestamp: Active; now >= end, winning index set: Settled; now >= end,
    randomness-request set, winning index unset: Drawing; now >= end, no
    randomness-request: Closed"); the program source is not in the tree. *)
Definition status (now : Z) (p : pot) : PotStatus :=
  if decide (now < p_end p) then Active
  else if decide (p_winning p <> 0) then Settled
  else if decide (is_Some (p_randomness p)) then Drawing
  else Closed.

(** Modelled from the spec: creating a Pot record; it fails when the
    address exists ("re-invocation fails because the address already
    exists"); the program source is not in the tree. *)
Definition create_pot (a : pot_addr) (p : pot) (l : ledger) : error + ledger :=
  match pots l !! a with
  | Some _ => inl AddressInUse
  | None =>
      inr (mkLedger (managers l) (<[a := p]> (pots l)) (tickets l)
                    (escrow l) (treasury l) (funds l))
  end.

(** Modelled from the spec: "Init(endTimestamp, duration, name): fails if
    endTimestamp is not strictly in the future or name exceeds 32 bytes;
    creates the manager record, the first Pot (ending at endTimestamp), and
    the second Pot (ending at endTimestamp+duration), both with zero
    participants and Active-eligible timestamps; sets the manager's
    timestamp pair accordingly. Idempotent per (authority, name) pair:
    re-invocation fails because the address already exists." The
    specification does not fix the start timestamps: the first round is
    taken to start at [now], the second when the first ends. The program
    source is not in the tree. *)
Definition Init (now : Z) (authority token : PublicKey.t)
    (endTimestamp duration : Z) (name : string) (l : ledger) : error + ledger :=
  if decide (now < endTimestamp) then
    if decide (String.length name <= 32)%nat then
      let m := (authority, name) in
      match managers l !! m with
      | Some _ => inl AddressInUse
      | None =>
          let nextEnd := endTimestamp + duration in
          match create_pot (m, endTimestamp)
                           (mkPot m 0 now endTimestamp 0 None) l with
          | inl e => inl e
          | inr l1 =>
              match create_pot (m, nextEnd)
                               (mkPot m 0 endTimestamp nextEnd 0 None) l1 with
              | inl e => inl e
              | inr l2 =>
                  inr (mkLedger
                         (<[m := mkManager authority token duration
                                           (endTimestamp, nextEnd) name]>
                            (managers l2))
                         (pots l2) (tickets l2) (escrow l2) (treasury l2)
                         (funds l2))
              end
          end
      end
    else inl NameTooLong
  else inl EndTimestampNotInFuture.

(** Modelled from the spec: "AdvanceRound(): callable by anyone once the
    current Pot's end timestamp has passed; [...] the next Pot becomes
    current, a new Pot is created ending at (old next-end + duration), and
    the manager's timestamp pair is updated"; redundant calls fail because
    "the windows [they target] for creation already [exist]". The program
    source is not in the tree. *)
Definition AdvanceRound (now : Z) (m : manager_addr) (l : ledger)
  : error + ledger :=
  match managers l !! m with
  | None => inl UnknownAccount
  | Some mg =>
      let '(currentEnd, nextEnd) := m_timestamps mg in
      if decide (currentEnd <= now) then
        let newEnd := nextEnd + m_duration mg in
        match create_pot (m, newEnd) (mkPot m 0 nextEnd newEnd 0 None) l with
        | inl e => inl e
        | inr l1 =>
            inr (mkLedger
                   (<[m := mkManager (m_authority mg) (m_token mg)
                                     (m_duration mg) (nextEnd, newEnd)
                                     (m_name mg)]> (managers l1))
                   (pots l1) (tickets l1) (escrow l1) (treasury l1) (funds l1))
        end
      else inl RoundNotEnded
  end.

Section Entry.

(** The fee share of a payment, in percent: a deployment constant the
    specification leaves open. *)
Variable fee_percent : Z.

(** Modelled from the spec: "Enter(pot, participant, payment): fails if the
    Pot's derived status is not Active [...]. On success: splits the
    payment into a pooled share and a fee share per a fixed percentage;
    transfers the pooled share to Escrow and the fee share to Treasury;
    creates a new Ticket at the next sequential index; increments the Pot's
    participant counter", all four effects or none; "insufficient funds for
    entry" is a resource error. The program source is not in the tree. *)
Definition Enter (now : Z) (a : pot_addr) (participant : PublicKey.t)
    (payment : Z) (l : ledger) : error + ledger :=
  match pots l !! a with
  | None => inl UnknownAccount
  | Some p =>
      if decide (status now p = Active) then
        let balance := default 0 (funds l !! participant) in
        if decide (payment <= balance) then
          let fee := payment * fee_percent / 100 in
          let pooled := payment - fee in
          let idx := p_participants p in
          match tickets l !! (a, idx) with
          | Some _ => inl AddressInUse
          | None =>
              inr (mkLedger
                     (managers l)
                     (<[a := mkPot (p_manager p) (idx + 1) (p_start p) (p_end p)
                                   (p_winning p) (p_randomness p)]> (pots l))
                     (<[(a, idx) := mkTicket participant idx]> (tickets l))
                     (escrow l + pooled)
                     (treasury l + fee)
                     (<[participant := balance - payment]> (funds l)))
          end
        else inl InsufficientFunds
      else inl RoundNotActive
  end.

End Entry.

(** Modelled from the spec: an attempted operation is one atomic step; a
    failed one reports its error and leaves the ledger as it was ("no
    error condition leaves partially-applied state"). The program source is
    not in the tree. *)
Definition run (op : ledger -> error + ledger) (l : ledger)
  : option error * ledger :=
  match op l with
  | inl e => (Some e, l)
  | inr l' => (None, l')
  end.

(** Modelled from the spec: the Pots "under a given PotManager" that are
    "open for entry" at [now]. A Pot is "one time-boxed lottery instance
    accepting entries between a start and end timestamp" (glossary): it is
    open when it has started and not ended, and its end timestamp is then
    "strictly in the future". The program source is not in the tree. *)
Definition open_pots (now : Z) (m : manager_addr) (l : ledger)
  : gmap pot_addr pot :=
  filter (fun kv : pot_addr * pot =>
            p_manager kv.2 = m /\ p_start kv.2 <= now < p_end kv.2)
         (pots l).

(** Modelled from the spec: a ledger without records and with empty
    custody balances, before any operation; the program source is not in
    the tree. *)
Definition empty_ledger (funds : gmap PublicKey.t Z) : ledger :=
  mkLedger ∅ ∅ ∅ 0 0 funds.

(** Modelled from the spec: the "reachable states", the ledgers that the
    modelled operations produce from one without records; the program
    source is not in the tree. *)
Inductive reachable (fee_percent : Z) : ledger -> Prop :=
| reach_empty funds : reachable fee_percent (empty_ledger funds)
| reach_Init now authority token endTimestamp duration name l l' :
    reachable fee_percent l ->
    Init now authority token endTimestamp duration name l = inr l' ->
    reachable fee_percent l'
| reach_AdvanceRound now m l l' :
    reachable fee_percent l ->
    AdvanceRound now m l = inr l' ->
    reachable fee_percent l'
| reach_Enter now a participant payment l l' :
    reachable fee_percent l ->
    Enter fee_percent now a participant payment l = inr l' ->
    reachable fee_percent l'.

End Program.

(** ** Sample data

    A small environment on which the definitions can be run: a stand-in
    for the hash and address functions (the address function refuses a
    seed of more than 32 bytes, as the one of web3.js does), a node that
    answers from a table of accounts, and a wallet that signs whatever it
    is given. *)

Module Sample.

#[local] Instance web3 : Web3 := {|
  sha256_array := fun message => list_byte_of_string message ++ replicate 32 x00;
  findProgramAddressSync := fun seeds _ =>
    if forallb (fun seed => (length seed <=? 32)%nat) seeds
    then ok (Buffer.readBE (concat seeds), 255)
    else throw TypeError;
  getAssociatedTokenAddress := fun mint owner => ok (mint + owner);
  createAssociatedTokenAccountInstruction := fun payer ata owner mint =>
    mkInstruction 1 [mkMeta payer true true; mkMeta ata false true;
                     mkMeta owner false false; mkMeta mint false false] [];
  bs58_encode := fun bytes => string_of_list_byte bytes;
  SystemProgram_programId := 0;
  TOKEN_PROGRAM_ID := 1001;
  SYSVAR_RENT_PUBKEY := 1002
|}.

Definition node (accounts : gmap PublicKey.t AccountInfo) : Connection :=
  mkConnection (fun a => ok (accounts !! a))
               (fun _ _ => ok [])
               (ok ("blockhash", 1))
               (fun _ => ok "signature")
               (fun _ => ok ()).

Definition signer (key : PublicKey.t) : WalletAdapter :=
  mkWallet (Some key) (fun tx => ok tx).

Definition client (accounts : gmap PublicKey.t AccountInfo)
  : Sdk.OpenLottoClient :=
  Sdk.mkClient (node accounts) (Some (signer 77)) Devnet.

(** An oracle request record of 152 bytes whose committed slot (offset 104)
    is 5 and whose revealed slot (offset 144) is 0. *)
Definition committed_request : list byte :=
  replicate 104 x00 ++ [x05] ++ replicate 47 x00.

(** A Ticket record: the TICKET discriminator, the participant key
    (ending in 07) and the index 3. *)
Definition ticket_record : list byte :=
  [x29; xe4; x18; xa5; x4e; x5a; xeb; xc8]
  ++ replicate 31 x00 ++ [x07]
  ++ [x03; x00; x00; x00; x00; x00; x00; x00].

(** A Pot record of 104 bytes: the POT discriminator, manager 9, five
    participants, start 16, end 32, winning index [w], randomness key 4. *)
Definition pot_record (w : byte) : list byte :=
  [xee; x76; x3c; xaf; xb2; xbf; x3b; x3a]
  ++ replicate 31 x00 ++ [x09]
  ++ [x05; x00; x00; x00; x00; x00; x00; x00]
  ++ [x10; x00; x00; x00; x00; x00; x00; x00]
  ++ [x20; x00; x00; x00; x00; x00; x00; x00]
  ++ [w; x00; x00; x00; x00; x00; x00; x00]
  ++ replicate 31 x00 ++ [x04].

(** The address [deriveTicketPDA] gives the ticket of pot 5 at index 2. *)
Definition winning_ticket_address : PublicKey.t :=
  match Utils.deriveTicketPDA 5 2 with
  | inr derived => derived.1
  | inl _ => 0
  end.

End Sample.

(** Ledgers to run the program on: a manager "daily" created at time 1000
    with its first round ending at 1300, then two entries. *)
Module SampleLedger.
Import Program.

Definition after (r : error + ledger) : ledger :=
  match r with
  | inr l => l
  | inl _ => empty_ledger ∅
  end.

Definition l0 : ledger :=
  after (Init 1000 1 2 1300 3600 "daily" (empty_ledger {[ 7 := 50; 8 := 50 ]})).

Definition l1 : ledger :=
  after (Enter 10 1100 (1, "daily"%string, 1300) 7 20 l0).

Definition l2 : ledger :=
  after (Enter 10 1200 (1, "daily"%string, 1300) 8 20 l1).

Definition l0_advanced : ledger :=
  after (AdvanceRound 1300 (1, "daily"%string) l0).

Definition l0_advanced_late : ledger :=
  after (AdvanceRound 9000 (1, "daily"%string) l0).

End SampleLedger.

(** A node whose program scan answers with a given list of accounts, and
    two Pot records to scan: pot 5 ends at 32, pot 6 ended at 10. *)
Module SampleScan.

Definition node (accounts : list (PublicKey.t * AccountInfo)) : Connection :=
  mkConnection (fun _ => ok None)
               (fun _ _ => ok accounts)
               (ok ("blockhash"%string, 1))
               (fun _ => ok "signature"%string)
               (fun _ => ok ()).

Definition client (accounts : list (PublicKey.t * AccountInfo))
  : Sdk.OpenLottoClient :=
  Sdk.mkClient (node accounts) None Devnet.

Definition pot_record_ending (e : byte) : list byte :=
  [xee; x76; x3c; xaf; xb2; xbf; x3b; x3a]
  ++ replicate 31 x00 ++ [x09]
  ++ [x05; x00; x00; x00; x00; x00; x00; x00]
  ++ [x01; x00; x00; x00; x00; x00; x00; x00]
  ++ [e; x00; x00; x00; x00; x00; x00; x00]
  ++ [x00; x00; x00; x00; x00; x00; x00; x00]
  ++ replicate 31 x00 ++ [x04].

Definition accounts : list (PublicKey.t * AccountInfo) :=
  [ (5, mkAccountInfo (pot_record_ending x20) 42);
    (6, mkAccountInfo (pot_record_ending x0a) 42) ].

Definition pot5 : WithAddress Pot := mkWithAddress (Types.mkPot 9 5 1 32 0 4) 5.
Definition pot6 : WithAddress Pot := mkWithAddress (Types.mkPot 9 5 1 10 0 4) 6.

Definition scan : list Rpc :=
  [GetProgramAccounts PROGRAM_ID
     [mkMemcmp 0 (@bs58_encode Sample.web3 [xee; x76; x3c; xaf; xb2; xbf; x3b; x3a])]].

End SampleScan.

(** * Properties *)

(** ** Bytes and numbers *)

Section BufferFacts.
Import Buffer.

Lemma byte_val_range (b : byte) : 0 <= byte_val b < 256.
Proof.
  unfold byte_val. pose proof (Byte.to_N_bounded b). lia.
Qed.

Lemma byte_val_of_Z (z : Z) : byte_val (byte_of_Z z) = z mod 256.
Proof.
  unfold byte_val, byte_of_Z.
  assert (Hr : 0 <= z mod 256 < 256) by (apply Z.mod_pos_bound; lia).
  destruct (Byte.of_N (Z.to_N (z mod 256))) as [b|] eqn:E.
  - apply Byte.to_of_N in E. simpl. rewrite E. lia.
  - apply Byte.of_N_None_iff in E. lia.
Qed.

Lemma readLE_range (bs : list byte) :
  0 <= readLE bs < 256 ^ Z.of_nat (length bs).
Proof.
  induction bs as [|b bs IH]; simpl readLE.
  - simpl. lia.
  - rewrite length_cons, Nat2Z.inj_succ, Z.pow_succ_r by lia.
    pose proof (byte_val_range b). lia.
Qed.

Lemma readLE_writeLE (n : nat) (z : Z) :
  0 <= z < 256 ^ Z.of_nat n -> readLE (writeLE n z) = z.
Proof.
  revert z. induction n as [|n IH]; intros z Hz.
  - simpl in *. lia.
  - rewrite Nat2Z.inj_succ, Z.pow_succ_r in Hz by lia.
    simpl. rewrite byte_val_of_Z, IH.
    + pose proof (Z.div_mod z 256). lia.
    + split; [apply Z.div_pos; lia|].
      apply Z.div_lt_upper_bound; lia.
Qed.

Lemma length_writeLE (n : nat) (z : Z) : length (writeLE n z) = n.
Proof. revert z. induction n; intros; simpl; auto. Qed.

Lemma length_slice (data : list byte) (a b : nat) :
  (length (slice data a b) <= b - a)%nat.
Proof. unfold slice. rewrite length_take. lia. Qed.

(** The slice that starts after a prefix and spans a whole segment is that
    segment, whatever follows it. *)
Lemma slice_segment (prefix seg suffix : list byte) (a : nat) :
  length prefix = a ->
  slice (prefix ++ seg ++ suffix) a (a + length seg) = seg.
Proof.
  intros <-. unfold slice.
  rewrite drop_app_length.
  replace (length prefix + length seg - length prefix)%nat
    with (length seg) by lia.
  apply take_app_length.
Qed.

Lemma readBE_range (bs : list byte) :
  0 <= readBE bs < 256 ^ Z.of_nat (length bs).
Proof.
  unfold readBE. pose proof (readLE_range (rev bs)) as Hr.
  rewrite length_rev in Hr. exact Hr.
Qed.

(** At most 32 bytes always make a public key. *)
Lemma PublicKey_new_short (bs : list byte) :
  (length bs <= 32)%nat -> PublicKey.new bs = ok (readBE bs).
Proof.
  intros Hlen. unfold PublicKey.new.
  pose proof (readBE_range bs) as [_ Hr].
  assert (256 ^ Z.of_nat (length bs) <= 2 ^ 256).
  { change (2 ^ 256) with (256 ^ 32).
    apply Z.pow_le_mono_r; lia. }
  destruct (Z.ltb_spec (readBE bs) (2 ^ 256)); [reflexivity | lia].
Qed.

Lemma PublicKey_new_slice (data : list byte) (a b : nat) :
  (b - a <= 32)%nat ->
  PublicKey.new (slice data a b) = ok (readBE (slice data a b)).
Proof.
  intros Hab. apply PublicKey_new_short.
  pose proof (length_slice data a b). lia.
Qed.

End BufferFacts.

(** ** UTF-8 *)

Section Utf8Facts.
Import Buffer.

Lemma byte_of_Z_val (b : byte) : byte_of_Z (byte_val b) = b.
Proof.
  unfold byte_of_Z, byte_val.
  pose proof (Byte.to_N_bounded b) as Hb.
  rewrite Z.mod_small by lia. rewrite N2Z.id, Byte.of_to_N. reflexivity.
Qed.

Lemma unit_val_range (u : code_unit) : 0 <= unit_val u < 65536.
Proof.
  unfold unit_val. pose proof (byte_val_range u.1). pose proof (byte_val_range u.2).
  lia.
Qed.

Lemma unit_of_Z_val (u : code_unit) : unit_of_Z (unit_val u) = u.
Proof.
  destruct u as [hi lo]. unfold unit_of_Z, unit_val. cbn [fst snd].
  pose proof (byte_val_range hi). pose proof (byte_val_range lo).
  f_equal.
  - replace ((256 * byte_val hi + byte_val lo) / 256) with (byte_val hi)
      by (Z.div_mod_to_equations; lia).
    apply byte_of_Z_val.
  - rewrite <- (byte_of_Z_val lo) at 2. unfold byte_of_Z. do 3 f_equal.
    Z.div_mod_to_equations; lia.
Qed.

(** A Unicode scalar value: a code point that is not a surrogate. *)
Definition scalar (cp : Z) : Prop :=
  0 <= cp < 0xD800 \/ 0xE000 <= cp < 0x110000.

Ltac settle_tests :=
  repeat match goal with
  | |- context [Z.leb ?a ?b] =>
      destruct (Z.leb_spec a b); try (exfalso; Z.div_mod_to_equations; lia)
  | |- context [Z.ltb ?a ?b] =>
      destruct (Z.ltb_spec a b); try (exfalso; Z.div_mod_to_equations; lia)
  | |- context [Z.eqb ?a ?b] =>
      destruct (Z.eqb_spec a b); try (exfalso; Z.div_mod_to_equations; lia)
  end; cbn [andb fst snd app].

(** The decoder reads the bytes of a scalar value back as that value. *)
Lemma decode_encode (cp : Z) (bytes : list byte) :
  scalar cp ->
  decode Idle (encode_code_point cp ++ bytes) = cp :: decode Idle bytes.
Proof.
  intros Hcp. unfold scalar in Hcp. unfold encode_code_point.
  destruct (Z.ltb_spec cp 0x80) as [H1|H1].
  { cbn [app decode]. rewrite byte_val_of_Z, Z.mod_small by lia.
    unfold start. settle_tests. reflexivity. }
  destruct (Z.ltb_spec cp 0x800) as [H2|H2].
  { cbn [app decode]. rewrite !byte_val_of_Z.
    rewrite (Z.mod_small (0xC0 + cp / 64)) by (Z.div_mod_to_equations; lia).
    rewrite (Z.mod_small (0x80 + cp mod 64)) by (Z.div_mod_to_equations; lia).
    unfold start. settle_tests. cbn [decode].
    settle_tests. f_equal. Z.div_mod_to_equations; lia. }
  destruct (Z.ltb_spec cp 0x10000) as [H3|H3].
  { cbn [app decode]. rewrite !byte_val_of_Z.
    rewrite (Z.mod_small (0xE0 + cp / 4096)) by (Z.div_mod_to_equations; lia).
    rewrite (Z.mod_small (0x80 + (cp / 64) mod 64)) by (Z.div_mod_to_equations; lia).
    rewrite (Z.mod_small (0x80 + cp mod 64)) by (Z.div_mod_to_equations; lia).
    unfold start. settle_tests; cbn [decode]; settle_tests;
      f_equal; Z.div_mod_to_equations; lia. }
  cbn [app decode]. rewrite !byte_val_of_Z.
  rewrite (Z.mod_small (0xF0 + cp / 262144)) by (Z.div_mod_to_equations; lia).
  rewrite (Z.mod_small (0x80 + (cp / 4096) mod 64)) by (Z.div_mod_to_equations; lia).
  rewrite (Z.mod_small (0x80 + (cp / 64) mod 64)) by (Z.div_mod_to_equations; lia).
  rewrite (Z.mod_small (0x80 + cp mod 64)) by (Z.div_mod_to_equations; lia).
  unfold start. settle_tests; cbn [decode]; settle_tests;
    f_equal; Z.div_mod_to_equations; lia.
Qed.

Lemma decode_encode_all (cps : list Z) (bytes : list byte) :
  Forall scalar cps ->
  decode Idle (flat_map encode_code_point cps ++ bytes) = cps ++ decode Idle bytes.
Proof.
  induction 1 as [|cp cps Hcp _ IH]; [reflexivity|].
  cbn [flat_map]. rewrite <- app_assoc, (decode_encode cp _ Hcp), IH. reflexivity.
Qed.

Lemma surrogate_tests (v : Z) :
  (is_high v = true <-> 0xD800 <= v <= 0xDBFF) /\
  (is_low v = true <-> 0xDC00 <= v <= 0xDFFF).
Proof. unfold is_high, is_low. rewrite !andb_true_iff, !Z.leb_le. tauto. Qed.

(** The code points a string is written as are scalar values. *)
Lemma code_points_scalar (s : String16) : Forall scalar (code_points s).
Proof.
  assert (Hall : forall (n : nat) (s : String16),
             (length s <= n)%nat -> Forall scalar (code_points s)).
  { clear s. induction n as [|n IH]; intros [|u rest] Hlen;
      try (cbn in Hlen; lia); [constructor | constructor |].
    cbn [code_points]. cbn [length] in Hlen.
    pose proof (unit_val_range u) as Hu.
    destruct (is_high (unit_val u)) eqn:Hhigh.
    - apply surrogate_tests in Hhigh.
      destruct rest as [|u' rest']; [repeat constructor; unfold scalar; lia|].
      pose proof (unit_val_range u') as Hu'.
      destruct (is_low (unit_val u')) eqn:Hlow.
      + apply surrogate_tests in Hlow.
        constructor; [unfold scalar; lia|]. apply IH. cbn [length] in Hlen. lia.
      + constructor; [unfold scalar; lia|]. apply IH. lia.
    - destruct (is_low (unit_val u)) eqn:Hlow.
      + constructor; [unfold scalar; lia|]. apply IH. lia.
      + constructor; [|apply IH; lia].
        unfold scalar.
        destruct (surrogate_tests (unit_val u)) as [Hh Hl].
        destruct (Z.lt_ge_cases (unit_val u) 0xD800); [lia|].
        destruct (Z.lt_ge_cases (unit_val u) 0xDC00).
        * rewrite (proj2 Hh) in Hhigh by lia. discriminate.
        * destruct (Z.lt_ge_cases (unit_val u) 0xE000); [|lia].
          rewrite (proj2 Hl) in Hlow by lia. discriminate. }
  exact (Hall (length s) s (Nat.le_refl _)).
Qed.

(** Decoding what [from_utf8] wrote gives the code points back. *)
Lemma decode_from_utf8 (s : String16) (bytes : list byte) :
  decode Idle (from_utf8 s ++ bytes) = code_points s ++ decode Idle bytes.
Proof. apply decode_encode_all, code_points_scalar. Qed.

(** A well-formed string is the UTF-16 form of its code points. *)
Lemma units_of_code_points (s : String16) :
  isWellFormed s = true ->
  flat_map units_of_code_point (code_points s) = s.
Proof.
  assert (Hall : forall (n : nat) (s : String16),
             (length s <= n)%nat -> isWellFormed s = true ->
             flat_map units_of_code_point (code_points s) = s).
  { clear s. induction n as [|n IH]; intros [|u rest] Hlen Hwf;
      try (cbn in Hlen; lia); [reflexivity | reflexivity |].
    cbn [code_points isWellFormed] in *. cbn [length] in Hlen.
    pose proof (unit_val_range u) as Hu.
    destruct (is_high (unit_val u)) eqn:Hhigh.
    - apply surrogate_tests in Hhigh.
      destruct rest as [|u' rest']; [discriminate|].
      pose proof (unit_val_range u') as Hu'.
      apply andb_true_iff in Hwf as [Hlow Hwf]. rewrite Hlow.
      apply surrogate_tests in Hlow.
      cbn [flat_map]. rewrite IH by (cbn [length] in Hlen; lia || exact Hwf).
      unfold units_of_code_point.
      destruct (Z.ltb_spec (65536 + (unit_val u - 55296) * 1024
                            + (unit_val u' - 56320)) 65536); [lia|].
      cbn [app]. f_equal; [|f_equal].
      + rewrite <- (unit_of_Z_val u) at 2. f_equal.
        Z.div_mod_to_equations; lia.
      + rewrite <- (unit_of_Z_val u') at 2. f_equal.
        Z.div_mod_to_equations; lia.
    - apply andb_true_iff in Hwf as [Hlow Hwf].
      apply negb_true_iff in Hlow. rewrite Hlow.
      cbn [flat_map]. rewrite IH by (lia || exact Hwf).
      unfold units_of_code_point.
      destruct (Z.ltb_spec (unit_val u) 65536); [|lia].
      cbn [app]. rewrite unit_of_Z_val. reflexivity. }
  exact (Hall (length s) s (Nat.le_refl _)).
Qed.

(** A well-formed string written as UTF-8 reads back as itself. *)
Lemma toString_from_utf8 (s : String16) :
  isWellFormed s = true -> toString_utf8 (from_utf8 s) = s.
Proof.
  intros Hwf. unfold toString_utf8.
  rewrite <- (app_nil_r (from_utf8 s)), decode_from_utf8.
  cbn [decode]. rewrite app_nil_r. apply units_of_code_points. exact Hwf.
Qed.

Lemma from_utf8_inj (a b : String16) :
  isWellFormed a = true -> isWellFormed b = true ->
  from_utf8 a = from_utf8 b -> a = b.
Proof.
  intros Ha Hb Heq.
  rewrite <- (toString_from_utf8 a Ha), <- (toString_from_utf8 b Hb), Heq.
  reflexivity.
Qed.

End Utf8Facts.

(** ** Doubles *)

Lemma nearest_bounds (n u : Z) :
  0 <= n -> 0 < u -> n / u <= Number.nearest n u <= n / u + 1.
Proof.
  intros Hn Hu. unfold Number.nearest. cbv zeta.
  destruct (2 * (n mod u) <? u); [lia|].
  destruct (u <? 2 * (n mod u)); [lia|].
  destruct (Z.even (n / u)); lia.
Qed.

Lemma nearest_step (n u : Z) :
  0 <= n -> 0 < u ->
  Number.nearest n u = n / u + 1 -> u <= 2 * (n mod u).
Proof.
  intros Hn Hu. unfold Number.nearest. cbv zeta.
  destruct (Z.ltb_spec (2 * (n mod u)) u); [lia|]. lia.
Qed.

(** Integers of magnitude below 2^53 are doubles. *)
Lemma round_exact (z : Z) : Z.abs z < 2 ^ 53 -> Number.round z = z.
Proof.
  intros Hz. unfold Number.round.
  destruct (Z.ltb_spec (Z.abs z) (2 ^ 53)); [reflexivity | lia].
Qed.

(** Rounding keeps the sign. *)
Lemma round_sign (z : Z) : 0 < Number.round z <-> 0 < z.
Proof.
  unfold Number.round.
  destruct (Z.ltb_spec (Z.abs z) (2 ^ 53)) as [Hsmall|Hbig]; [tauto|].
  cbv zeta.
  set (a := Z.abs z) in *.
  assert (Ha : 0 < a) by lia.
  pose proof (Z.log2_spec a Ha) as [Hlo Hhi].
  assert (Hk : 53 <= Z.log2 a).
  { apply Z.log2_le_pow2; lia. }
  set (k := Z.log2 a) in *.
  set (ulp := 2 ^ (k - 52)).
  assert (Hulp : 0 < ulp) by (apply Z.pow_pos_nonneg; lia).
  assert (Hq : 1 <= a / ulp).
  { apply Z.div_le_lower_bound; [lia|].
    rewrite Z.mul_1_r. eapply Z.le_trans; [|exact Hlo].
    apply Z.pow_le_mono_r; lia. }
  pose proof (nearest_bounds a ulp ltac:(lia) Hulp) as [Hm _].
  assert (Hpos : 0 < Number.nearest a ulp * ulp) by nia.
  destruct (Z.sgn_spec z) as [[Hz ->]|[[Hz ->]|[Hz ->]]]; lia.
Qed.

(** Below 2^53 the quotient of two doubles, floored, is the integer
    quotient: the rounding of the quotient never reaches the next
    integer. *)
Lemma floor_div_exact (x d : Z) :
  0 <= x < 2 ^ 53 -> 0 < d -> Number.floor_div x d = x / d.
Proof.
  intros Hx Hd. unfold Number.floor_div.
  destruct (Z.ltb_spec x d) as [Hlt|Hge].
  { rewrite Z.div_small by lia.
    destruct (Z.leb_spec (d * (2 ^ 54 - 1)) (x * 2 ^ 54)) as [Hone|]; [|reflexivity].
    exfalso. assert (d <= 2 ^ 53) by lia.
    assert (x <= d - 1) by lia.
    assert (x * 2 ^ 54 <= (d - 1) * 2 ^ 54) by (apply Z.mul_le_mono_nonneg_r; lia).
    lia. }
  cbv zeta.
  set (a := x / d).
  assert (Ha : 1 <= a) by (apply Z.div_le_lower_bound; lia).
  pose proof (Z.log2_spec a ltac:(lia)) as [Hlo Hhi].
  assert (Hax : a * d <= x)
    by (unfold a; rewrite Z.mul_comm; apply Z.mul_div_le; lia).
  assert (Hk0 : 0 <= Z.log2 a) by apply Z.log2_nonneg.
  assert (Hk : Z.log2 a <= 52).
  { assert (a < 2 ^ 53) by nia.
    destruct (Z.le_gt_cases (Z.log2 a) 52) as [|Hgt]; [assumption|].
    assert (2 ^ 53 <= 2 ^ Z.log2 a) by (apply Z.pow_le_mono_r; lia). lia. }
  set (k := Z.log2 a) in *.
  destruct (Z.leb_spec k 52) as [_|]; [|lia].
  set (S := 2 ^ (52 - k)).
  assert (HS : 0 < S) by (apply Z.pow_pos_nonneg; lia).
  assert (HSk : S * 2 ^ k = 2 ^ 52).
  { unfold S. rewrite <- Z.pow_add_r by lia. f_equal. lia. }
  assert (HdS : d < 2 * S).
  { assert (d * 2 ^ k < 2 * S * 2 ^ k); [|nia].
    replace (2 * S * 2 ^ k) with (2 ^ 53)
      by (rewrite <- Z.mul_assoc, HSk; reflexivity).
    nia. }
  set (r := x mod d).
  assert (Hr : 0 <= r < d) by (apply Z.mod_pos_bound; lia).
  assert (Hxeq : x = d * a + r) by (apply Z.div_mod; lia).
  set (g := (r * S) / d).
  set (rho := (r * S) mod d).
  assert (Hrho : 0 <= rho < d) by (apply Z.mod_pos_bound; lia).
  assert (HrS : r * S = d * g + rho) by (apply Z.div_mod; lia).
  assert (Hg : 0 <= g <= S - 1).
  { split; [apply Z.div_pos; nia|].
    assert (g < S); [|lia]. apply Z.div_lt_upper_bound; nia. }
  assert (Hq : (x * S) / d = a * S + g /\ (x * S) mod d = rho).
  { assert (Heq : x * S = (a * S + g) * d + rho) by nia.
    rewrite Heq. split.
    - rewrite Z.div_add_l by lia. rewrite (Z.div_small rho d) by lia. lia.
    - rewrite Z.add_comm, Z.mod_add by lia. apply Z.mod_small. lia. }
  destruct Hq as [Hq Hm].
  pose proof (nearest_bounds (x * S) d ltac:(nia) Hd) as [Hn1 Hn2].
  rewrite Hq in Hn1, Hn2.
  assert (Hnear : Number.nearest (x * S) d <= a * S + S - 1).
  { destruct (Z.eq_dec (Number.nearest (x * S) d) (a * S + g + 1)) as [Hup|];
      [|lia].
    rewrite <- Hq in Hup. apply nearest_step in Hup; [|nia|lia].
    rewrite Hm in Hup.
    destruct (Z.eq_dec g (S - 1)) as [Hlast|]; [|lia].
    exfalso. subst g. rewrite Hlast in HrS. nia. }
  symmetry.
  apply (Z.div_unique _ _ _ (Number.nearest (x * S) d - a * S));
    [left; lia | ring].
Qed.

(** ** Running the result monad *)

Lemma bind_ok {A B} (a : A) (k : A -> result B) : (ok a ≫= k) = k a.
Proof. reflexivity. Qed.

Lemma bind_throw {A B} (e : exn) (k : A -> result B) :
  (throw e ≫= k) = throw e.
Proof. reflexivity. Qed.

(** ** The derived status *)

Lemma toNumber_in_range (x : Z) : Z.abs x < 2 ^ 53 -> BN.toNumber x = ok x.
Proof.
  intros Hx. unfold BN.toNumber.
  destruct (Z.ltb_spec (Z.abs x) (2 ^ 53)); [reflexivity | lia].
Qed.

Lemma toNumber_out_of_range (x : Z) :
  2 ^ 53 <= Z.abs x ->
  BN.toNumber x = throw (AssertionError "Number can only safely store up to 53 bits").
Proof.
  intros Hx. unfold BN.toNumber.
  destruct (Z.ltb_spec (Z.abs x) (2 ^ 53)); [lia | reflexivity].
Qed.

(** Outside the 53-bit range [getPotStatus] throws, whatever the time is. *)
Lemma getPotStatus_throws (now : Z) (pot : Pot) :
  2 ^ 53 <= Z.abs (endTimestamp pot) \/ 2 ^ 53 <= Z.abs (winningSlot pot) ->
  getPotStatus now pot =
    throw (AssertionError "Number can only safely store up to 53 bits").
Proof.
  intros Hout. unfold getPotStatus.
  destruct (Z.lt_ge_cases (Z.abs (endTimestamp pot)) (2 ^ 53)) as [He|He].
  - destruct Hout as [?|Hw]; [lia|].
    rewrite (toNumber_in_range _ He), (toNumber_out_of_range _ Hw).
    reflexivity.
  - rewrite (toNumber_out_of_range _ He). reflexivity.
Qed.

(** C2, as stated, fails: it promises a status for every Pot record
    and every time, but a record whose winning index does not fit 53 bits
    makes [getPotStatus] throw, here at a time before the end timestamp,
    where the table says Active. *)
Lemma getPotStatus_not_total :
  ~ (forall (now : Z) (pot : Pot),
        getPotStatus now pot = ok (derived_status now pot)).
Proof.
  intros Hall.
  specialize (Hall 100 (Types.mkPot 0 5 0 200 (2 ^ 53) 0)).
  vm_compute in Hall. discriminate Hall.
Qed.

(** C2 (amended): for every Pot record whose end timestamp and winning
    index are within the 53 bits [BN.toNumber] accepts (the winning index
    non-negative, as a stored counter is), and for every time [now],
    [getPotStatus] returns the status of the specification's table: Active
    if now < end timestamp, otherwise Settled if the winning index is
    non-zero, otherwise Drawing if the randomness reference is not the
    null key, otherwise Closed. *)
Theorem getPotStatus_table (now : Z) (pot : Pot) :
  Z.abs (endTimestamp pot) < 2 ^ 53 ->
  0 <= winningSlot pot < 2 ^ 53 ->
  getPotStatus now pot = ok (derived_status now pot).
Proof.
  intros He Hw. unfold getPotStatus, derived_status.
  rewrite (toNumber_in_range _ He).
  rewrite toNumber_in_range by lia.
  rewrite !bind_ok.
  unfold PublicKey.equals.
  destruct (Z.ltb_spec now (endTimestamp pot)), (decide (now < endTimestamp pot));
    try lia; [reflexivity|].
  destruct (Z.ltb_spec 0 (winningSlot pot)), (decide (winningSlot pot <> 0));
    try lia; [reflexivity|].
  destruct (Z.eqb_spec (randomnessAccount pot) PublicKey.default),
           (decide (randomnessAccount pot <> PublicKey.default));
    try contradiction; reflexivity.
Qed.

Lemma getPotStatus_table_witness :
  getPotStatus 1700000000 (Types.mkPot 7 5 1699990000 1699999000 2 9) = ok Settled.
Proof.
  apply (getPotStatus_table 1700000000 (Types.mkPot 7 5 1699990000 1699999000 2 9));
    simpl; lia.
Defined.

(** The status is Settled only when the winning index is positive. *)
Lemma getPotStatus_Settled_inv (now : Z) (pot : Pot) :
  getPotStatus now pot = ok Settled -> 0 < winningSlot pot.
Proof.
  unfold getPotStatus, BN.toNumber.
  destruct (Z.abs (endTimestamp pot) <? 2 ^ 53); [|discriminate].
  destruct (Z.abs (winningSlot pot) <? 2 ^ 53); [|discriminate].
  rewrite !bind_ok.
  destruct (now <? endTimestamp pot); [discriminate|].
  destruct (Z.ltb_spec 0 (winningSlot pot)); [auto|].
  destruct (negb _); discriminate.
Qed.

(** ** Running the client monad *)

Lemma run_request {A B} (r : Rpc) (answer : result A) (k : A -> Client B)
    (log : list Rpc) :
  (request r answer ≫= k) log =
    match answer with
    | inl e => (inl e, log ++ [r])
    | inr a => k a (log ++ [r])
    end.
Proof. destruct answer; reflexivity. Qed.

Lemma run_lift {A B} (m : result A) (k : A -> Client B) (log : list Rpc) :
  (lift m ≫= k) log =
    match m with
    | inl e => (inl e, log)
    | inr a => k a log
    end.
Proof. destruct m; reflexivity. Qed.

Lemma run_bind {A B} (m : Client A) (k : A -> Client B) (log : list Rpc) :
  (m ≫= k) log =
    match m log with
    | (inl e, log') => (inl e, log')
    | (inr a, log') => k a log'
    end.
Proof. reflexivity. Qed.

Lemma run_ret {A} (a : A) (log : list Rpc) :
  (mret a : Client A) log = (ok a, log).
Proof. reflexivity. Qed.

(** ** The randomness request record *)

(** C3: for every oracle request record of at least 152 bytes,
    [checkRandomnessStatus] answers "revealed" exactly when the 8-byte
    little-endian value at offset 144 is non-zero, and otherwise
    "committed" exactly when the 8-byte little-endian value at offset 104
    is non-zero; a second record of at least 152 bytes with the same bytes
    at 104..111 and 144..151 gets the same answer, whatever its other
    bytes are. *)
Theorem checkRandomnessStatus_classifies
    (self : Sdk.OpenLottoClient) (acct : PublicKey.t) (info : AccountInfo)
    (log : list Rpc) :
  getAccountInfo (Sdk.connection self) acct = ok (Some info) ->
  (152 <= length (account_data info))%nat ->
  exists status : RandomnessStatus,
    Sdk.checkRandomnessStatus self acct log
      = (ok status, log ++ [GetAccountInfo acct]) /\
    (status = Revealed <->
       Buffer.readLE (Buffer.slice (account_data info) 144 152) <> 0) /\
    (status = Committed <->
       Buffer.readLE (Buffer.slice (account_data info) 144 152) = 0 /\
       Buffer.readLE (Buffer.slice (account_data info) 104 112) <> 0) /\
    (forall (self' : Sdk.OpenLottoClient) (info' : AccountInfo) (log' : list Rpc),
        getAccountInfo (Sdk.connection self') acct = ok (Some info') ->
        (152 <= length (account_data info'))%nat ->
        Buffer.slice (account_data info') 144 152
          = Buffer.slice (account_data info) 144 152 ->
        Buffer.slice (account_data info') 104 112
          = Buffer.slice (account_data info) 104 112 ->
        (Sdk.checkRandomnessStatus self' acct log').1 = ok status).
Proof.
  intros Hget Hlen.
  assert (Hrun : forall (c : Sdk.OpenLottoClient) (i : AccountInfo) (lg : list Rpc),
             getAccountInfo (Sdk.connection c) acct = ok (Some i) ->
             (152 <= length (account_data i))%nat ->
             Sdk.checkRandomnessStatus c acct lg =
               (ok (if Buffer.readLE (Buffer.slice (account_data i) 144 152) =? 0
                    then if Buffer.readLE (Buffer.slice (account_data i) 104 112) =? 0
                         then Initialized else Committed
                    else Revealed),
                lg ++ [GetAccountInfo acct])).
  { intros c i lg Hc Hi. unfold Sdk.checkRandomnessStatus.
    rewrite run_request, Hc. unfold ok.
    destruct (decide (length (account_data i) < 144 + 8)%nat); [lia|].
    unfold BN.isZero, BN.of_le.
    change (144 + 8)%nat with 152%nat. change (104 + 8)%nat with 112%nat.
    destruct (Buffer.readLE (Buffer.slice (account_data i) 144 152) =? 0);
      [|reflexivity].
    destruct (Buffer.readLE (Buffer.slice (account_data i) 104 112) =? 0);
      reflexivity. }
  eexists. split; [exact (Hrun self info log Hget Hlen)|].
  split; [|split].
  - destruct (Z.eqb_spec (Buffer.readLE (Buffer.slice (account_data info) 144 152)) 0)
      as [E|E]; [|tauto].
    destruct (_ =? 0); split; intros; try discriminate; contradiction.
  - destruct (Z.eqb_spec (Buffer.readLE (Buffer.slice (account_data info) 144 152)) 0)
      as [E|E].
    + destruct (Z.eqb_spec (Buffer.readLE (Buffer.slice (account_data info) 104 112)) 0)
        as [F|F]; split; intros G; try discriminate; tauto.
    + split; intros G; [discriminate | tauto].
  - intros self' info' log' Hget' Hlen' H144 H104.
    rewrite (Hrun self' info' log' Hget' Hlen'). simpl.
    rewrite H144, H104. reflexivity.
Qed.

Lemma checkRandomnessStatus_classifies_witness :
  exists status : RandomnessStatus,
    Sdk.checkRandomnessStatus
        (Sample.client {[ 5 := mkAccountInfo Sample.committed_request 42 ]}) 5 []
      = (ok status, [] ++ [GetAccountInfo 5]) /\
    status = Committed.
Proof.
  destruct (checkRandomnessStatus_classifies
              (Sample.client {[ 5 := mkAccountInfo Sample.committed_request 42 ]})
              5 (mkAccountInfo Sample.committed_request 42) [])
    as (status & Hrun & _ & Hcommitted & _).
  - reflexivity.
  - vm_compute. lia.
  - exists status. split; [exact Hrun|].
    apply Hcommitted. vm_compute. split; [reflexivity | discriminate].
Defined.

(** ** The account readers *)

(** What [parsePotAccount] returns: the fields at their fixed offsets, for
    every buffer; no exception can arise inside its [try]. *)
Lemma parsePotAccount_fields (data : list byte) :
  Sdk.parsePotAccount data =
    Some (Types.mkPot (Buffer.readBE (Buffer.slice data 8 40))
                      (Buffer.readLE (Buffer.slice data 40 48))
                      (Buffer.readLE (Buffer.slice data 48 56))
                      (Buffer.readLE (Buffer.slice data 56 64))
                      (Buffer.readLE (Buffer.slice data 64 72))
                      (Buffer.readBE (Buffer.slice data 72 104))).
Proof.
  unfold Sdk.parsePotAccount. cbv zeta. cbn [Nat.add].
  rewrite (PublicKey_new_slice data 8 40), bind_ok by (simpl; lia).
  rewrite (PublicKey_new_slice data 72 104), bind_ok by (simpl; lia).
  reflexivity.
Qed.

Lemma parseTicketAccount_fields (data : list byte) :
  Sdk.parseTicketAccount data =
    Some (Types.mkTicket (Buffer.readBE (Buffer.slice data 8 40))
                         (Buffer.readLE (Buffer.slice data 40 48))).
Proof.
  unfold Sdk.parseTicketAccount. cbv zeta. cbn [Nat.add].
  rewrite (PublicKey_new_slice data 8 40), bind_ok by (simpl; lia).
  reflexivity.
Qed.

(** A slice that starts at or after offset 8 does not see the first 8
    bytes. *)
Lemma slice_after_discriminator (data data' : list byte) (a b : nat) :
  drop 8 data' = drop 8 data -> (8 <= a)%nat ->
  Buffer.slice data' a b = Buffer.slice data a b.
Proof.
  intros Hrest Ha. unfold Buffer.slice.
  replace a with (8 + (a - 8))%nat by lia.
  rewrite <- !drop_drop, Hrest. reflexivity.
Qed.

(** C7, as stated, fails: a Ticket record, whose first 8 bytes are the
    TICKET discriminator and not the POT one, is read by [parsePotAccount]
    as a Pot. *)
Lemma parsePotAccount_accepts_other_discriminator :
  ~ (forall data : list byte,
        Some (take 8 data) <> DISCRIMINATORS !! "POT" ->
        Sdk.parsePotAccount data = None).
Proof.
  intros Hall.
  specialize (Hall Sample.ticket_record).
  rewrite parsePotAccount_fields in Hall.
  assert (Hne : Some (take 8 Sample.ticket_record) <> DISCRIMINATORS !! "POT")
    by (vm_compute; discriminate).
  specialize (Hall Hne). discriminate Hall.
Qed.

(** C7 (amended): [parsePotAccount] skips the 8-byte discriminator without
    looking at it. For every byte buffer it returns a record (never null)
    whose six fields are read at the fixed offsets 8, 40, 48, 56, 64 and
    72, the two keys big-endian and the four numbers little-endian;
    two buffers that differ only in their first 8 bytes give the same
    record; [getPot] returns that record for whatever account data the
    node holds at the address; and [getAllPots], which sends the POT
    discriminator to the node as a [memcmp] filter at offset 0, keeps every
    account the node answers with. *)
Theorem parsePotAccount_skips_discriminator `{Web3} (data : list byte) :
  (exists pot : Pot,
      Sdk.parsePotAccount data = Some pot /\
      potManager pot = Buffer.readBE (Buffer.slice data 8 40) /\
      totalParticipants pot = Buffer.readLE (Buffer.slice data 40 48) /\
      startTimestamp pot = Buffer.readLE (Buffer.slice data 48 56) /\
      endTimestamp pot = Buffer.readLE (Buffer.slice data 56 64) /\
      winningSlot pot = Buffer.readLE (Buffer.slice data 64 72) /\
      randomnessAccount pot = Buffer.readBE (Buffer.slice data 72 104)) /\
  (forall data' : list byte,
      drop 8 data' = drop 8 data ->
      Sdk.parsePotAccount data' = Sdk.parsePotAccount data) /\
  (forall (self : Sdk.OpenLottoClient) (address owner : PublicKey.t)
          (log : list Rpc),
      getAccountInfo (Sdk.connection self) address
        = ok (Some (mkAccountInfo data owner)) ->
      Sdk.getPot self address log
        = (ok (Sdk.parsePotAccount data), log ++ [GetAccountInfo address])) /\
  (forall (self : Sdk.OpenLottoClient) (log : list Rpc)
          (accounts : list (PublicKey.t * AccountInfo)),
      getProgramAccounts (Sdk.connection self) PROGRAM_ID
          [mkMemcmp 0 (bs58_encode [xee; x76; x3c; xaf; xb2; xbf; x3b; x3a])]
        = ok accounts ->
      exists found : list (WithAddress Pot),
        Sdk.getAllPots self log
          = (ok found,
             log ++ [GetProgramAccounts PROGRAM_ID
                       [mkMemcmp 0 (bs58_encode [xee; x76; x3c; xaf; xb2; xbf; x3b; x3a])]]) /\
        length found = length accounts).
Proof.
  split; [|split; [|split]].
  - eexists. split; [apply parsePotAccount_fields|]. simpl. auto 10.
  - intros data' Hrest. rewrite !parsePotAccount_fields.
    rewrite !(slice_after_discriminator data data') by (assumption || lia).
    reflexivity.
  - intros self address owner log Hget. unfold Sdk.getPot.
    rewrite run_request, Hget. reflexivity.
  - intros self log accounts Hscan. unfold Sdk.getAllPots.
    change (DISCRIMINATORS !! "POT")
      with (Some [xee; x76; x3c; xaf; xb2; xbf; x3b; x3a]).
    rewrite run_lift. cbn [Buffer.from ok].
    rewrite run_request, Hscan.
    eexists. split; [reflexivity|].
    clear Hscan. induction accounts as [|account accounts IH]; [reflexivity|].
    cbn [omap list_omap]. rewrite parsePotAccount_fields.
    cbn. rewrite IH. reflexivity.
Qed.

Lemma parsePotAccount_skips_discriminator_witness :
  Sdk.parsePotAccount (replicate 8 x00 ++ drop 8 (Sample.pot_record x02))
    = Sdk.parsePotAccount (Sample.pot_record x02) /\
  Sdk.getPot (Sample.client {[ 5 := mkAccountInfo Sample.ticket_record 42 ]}) 5 []
    = (ok (Sdk.parsePotAccount Sample.ticket_record), [] ++ [GetAccountInfo 5]).
Proof.
  destruct (@parsePotAccount_skips_discriminator Sample.web3 (Sample.pot_record x02))
    as (_ & Hsame & _).
  destruct (@parsePotAccount_skips_discriminator Sample.web3 Sample.ticket_record)
    as (_ & _ & Hget & _).
  split.
  - apply Hsame. reflexivity.
  - apply (Hget _ 5 42 []). reflexivity.
Defined.

(** ** The winning ticket *)

(** C9: [getWinningTicket] returns null whenever the pot's stored
    [winningSlot] is zero (it has no notion of time, so this is so whether
    or not the round has ended); it returns a ticket only when the stored
    [winningSlot] is non-zero; and [getPotStatus] never answers Settled for
    a pot whose [winningSlot] is zero. A winner at ticket index 0 is
    therefore never reported by either. *)
Theorem getWinningTicket_zero_slot `{Web3}
    (self : Sdk.OpenLottoClient) (pot : PublicKey.t) (log : list Rpc) :
  (forall (potData : Pot) (log1 : list Rpc),
      Sdk.getPot self pot log = (ok (Some potData), log1) ->
      winningSlot potData = 0 ->
      Sdk.getWinningTicket self pot log = (ok None, log1)) /\
  (forall (ticket : WithAddress Ticket) (log2 : list Rpc),
      Sdk.getWinningTicket self pot log = (ok (Some ticket), log2) ->
      exists (potData : Pot) (log1 : list Rpc),
        Sdk.getPot self pot log = (ok (Some potData), log1) /\
        winningSlot potData <> 0) /\
  (forall (now : Z) (potData : Pot),
      winningSlot potData = 0 ->
      getPotStatus now potData <> ok Settled).
Proof.
  split; [|split].
  - intros potData log1 Hpot Hzero. unfold Sdk.getWinningTicket.
    rewrite run_bind, Hpot. unfold ok, BN.isZero.
    rewrite Hzero. reflexivity.
  - intros ticket log2. unfold Sdk.getWinningTicket.
    rewrite run_bind.
    destruct (Sdk.getPot self pot log) as [[e|[potData|]] log1];
      [discriminate| |discriminate].
    unfold BN.isZero.
    destruct (Z.eqb_spec (winningSlot potData) 0) as [E|E]; [discriminate|].
    intros _. exists potData, log1. split; [reflexivity | exact E].
  - intros now potData Hzero Hsettled.
    apply getPotStatus_Settled_inv in Hsettled. lia.
Qed.

Lemma getWinningTicket_zero_slot_witness :
  @Sdk.getWinningTicket Sample.web3
      (Sample.client {[ 5 := mkAccountInfo (Sample.pot_record x00) 42 ]}) 5 []
    = (ok None, [GetAccountInfo 5]).
Proof.
  destruct (@getWinningTicket_zero_slot Sample.web3
              (Sample.client {[ 5 := mkAccountInfo (Sample.pot_record x00) 42 ]})
              5 []) as (Hnull & _ & _).
  apply (Hnull (Types.mkPot 9 5 16 32 0 4)).
  - vm_compute. reflexivity.
  - reflexivity.
Defined.

(** ** The manager scan *)

(** C10: for every connection (and every request log so far),
    [getAllPotManagers] returns no result: [DISCRIMINATORS] has the entries
    POT and TICKET only, [DISCRIMINATORS.POT_MANAGER] is undefined, and
    [Buffer.from] of it throws a TypeError while the filter is built, before
    any request is made (the log is unchanged). *)
Theorem getAllPotManagers_throws `{Web3}
    (self : Sdk.OpenLottoClient) (log : list Rpc) :
  dom DISCRIMINATORS = {[ "POT"; "TICKET" ]} /\
  DISCRIMINATORS !! "POT_MANAGER" = None /\
  Sdk.getAllPotManagers self log = (throw TypeError, log).
Proof.
  split; [|split].
  - unfold DISCRIMINATORS. rewrite dom_insert_L, dom_singleton_L. reflexivity.
  - reflexivity.
  - reflexivity.
Qed.

(** ** The manager name *)

Lemma encodeString_ok (str : String16) :
  Z.of_nat (length (Buffer.from_utf8 str)) < 2 ^ 32 ->
  Sdk.encodeString str
    = ok (Buffer.writeLE 4 (Z.of_nat (length (Buffer.from_utf8 str)))
          ++ Buffer.from_utf8 str).
Proof.
  intros Hlen. unfold Sdk.encodeString, Buffer.writeUInt32LE. cbv zeta.
  destruct (decide (0 <= Z.of_nat (length (Buffer.from_utf8 str)) < 2 ^ 32));
    [|lia].
  reflexivity.
Qed.

(** Reading the name field of a manager record: 137 bytes of fixed fields,
    then the length-prefixed bytes of a name, then anything. The name read
    is the bytes of the name, decoded. *)
Lemma parsePotManagerAccount_name (fixed suffix : list byte) (str : String16) :
  length fixed = 137%nat ->
  Z.of_nat (length (Buffer.from_utf8 str)) < 2 ^ 32 ->
  exists manager : PotManager,
    Sdk.parsePotManagerAccount
      (fixed ++ (Buffer.writeLE 4 (Z.of_nat (length (Buffer.from_utf8 str)))
                 ++ Buffer.from_utf8 str) ++ suffix) = Some manager /\
    name manager = Buffer.toString_utf8 (Buffer.from_utf8 str).
Proof.
  intros Hfixed Hlen.
  set (bytes := Buffer.from_utf8 str) in *.
  set (lenBuffer := Buffer.writeLE 4 (Z.of_nat (length bytes))).
  set (data := fixed ++ (lenBuffer ++ bytes) ++ suffix).
  assert (HlenBuffer : length lenBuffer = 4%nat) by apply length_writeLE.
  assert (Hprefix : Buffer.slice data 137 141 = lenBuffer).
  { unfold data. rewrite <- (app_assoc lenBuffer).
    change 141%nat with (137 + 4)%nat. rewrite <- HlenBuffer at 2.
    apply slice_segment. exact Hfixed. }
  assert (Hname : Buffer.slice data 141 (141 + length bytes) = bytes).
  { unfold data. rewrite <- (app_assoc lenBuffer), (app_assoc fixed).
    apply slice_segment. rewrite length_app. lia. }
  assert (Hdata : (137 + 4 <= length data)%nat).
  { unfold data. rewrite !length_app. lia. }
  unfold Sdk.parsePotManagerAccount. cbv zeta. cbn [Nat.add].
  rewrite (PublicKey_new_slice data 8 40), bind_ok by (simpl; lia).
  rewrite (PublicKey_new_slice data 40 72), bind_ok by (simpl; lia).
  rewrite (PublicKey_new_slice data 72 104), bind_ok by (simpl; lia).
  unfold Buffer.readUInt32LE.
  destruct (decide (137 + 4 <= length data)%nat); [|lia].
  rewrite bind_ok. cbn [Nat.add].
  rewrite Hprefix. unfold lenBuffer at 1.
  rewrite readLE_writeLE by (change (256 ^ Z.of_nat 4) with (2 ^ 32); lia).
  cbn [Nat.add] in Hname. rewrite Nat2Z.id, Hname.
  eexists. split; reflexivity.
Qed.

(** C8, as stated, fails: the name made of the one code unit D800, a high
    surrogate on its own, is written as the three bytes EF BF BD of U+FFFD,
    and the name read back is U+FFFD, not the name. *)
Lemma manager_name_round_trip_fails :
  ~ (forall str : String16,
        (length (Buffer.from_utf8 str) <= 32)%nat ->
        forall (encoded : list byte) (manager : PotManager),
          Sdk.encodeString str = ok encoded ->
          Sdk.parsePotManagerAccount (replicate 137 x00 ++ encoded)
            = Some manager ->
          name manager = str).
Proof.
  intros Hall.
  specialize (Hall [(xd8, x00)] ltac:(vm_compute; lia)
                   [x03; x00; x00; x00; xef; xbf; xbd]
                   (mkPotManager 0 0 0 0 0 (0, 0) (Some x00) [(xff, xfd)])
                   ltac:(vm_compute; reflexivity) ltac:(vm_compute; reflexivity)).
  discriminate Hall.
Qed.

(** C8 (amended): for every well-formed name (no surrogate on its own)
    whose UTF-8 form has at most 32 bytes, [encodeString] produces the
    4-byte little-endian byte count followed by the UTF-8 bytes of the
    name, and [parsePotManagerAccount], reading that encoding where the
    name field lies (after the 137 bytes of fixed fields) and whatever
    bytes follow it, returns a record whose name is the original name. *)
Theorem manager_name_round_trip (str : String16) :
  Buffer.isWellFormed str = true ->
  (length (Buffer.from_utf8 str) <= 32)%nat ->
  exists encoded : list byte,
    Sdk.encodeString str = ok encoded /\
    encoded = Buffer.writeLE 4 (Z.of_nat (length (Buffer.from_utf8 str)))
              ++ Buffer.from_utf8 str /\
    forall fixed suffix : list byte,
      length fixed = 137%nat ->
      exists manager : PotManager,
        Sdk.parsePotManagerAccount (fixed ++ encoded ++ suffix) = Some manager /\
        name manager = str.
Proof.
  intros Hwf Hlen.
  assert (Hbound : Z.of_nat (length (Buffer.from_utf8 str)) < 2 ^ 32) by lia.
  eexists. split; [apply encodeString_ok; exact Hbound|].
  split; [reflexivity|].
  intros fixed suffix Hfixed.
  destruct (parsePotManagerAccount_name fixed suffix str Hfixed Hbound)
    as (manager & Hparse & Hname).
  exists manager. split; [exact Hparse|].
  rewrite Hname. apply toString_from_utf8. exact Hwf.
Qed.

Lemma manager_name_round_trip_witness :
  exists encoded : list byte,
    Sdk.encodeString (Js.str "daily") = ok encoded /\
    encoded = [x05; x00; x00; x00; "d"; "a"; "i"; "l"; "y"]%byte /\
    exists manager : PotManager,
      Sdk.parsePotManagerAccount (replicate 137 x01 ++ encoded ++ [xff; xff])
        = Some manager /\
      name manager = Js.str "daily".
Proof.
  destruct (manager_name_round_trip (Js.str "daily"))
    as (encoded & Henc & Hshape & Hparse).
  - reflexivity.
  - vm_compute. lia.
  - exists encoded. split; [exact Henc|].
    split; [rewrite Hshape; reflexivity|].
    apply Hparse. reflexivity.
Defined.

(** ** The on-chain program: when an operation succeeds, and what it leaves *)

Section ProgramFacts.
Import Program.

Lemma create_pot_inr (a : pot_addr) (p : pot) (l l' : ledger) :
  create_pot a p l = inr l' <->
  pots l !! a = None /\
  l' = mkLedger (managers l) (<[a := p]> (pots l)) (tickets l)
                (escrow l) (treasury l) (funds l).
Proof.
  unfold create_pot. destruct (pots l !! a); split.
  - discriminate.
  - intros [? _]; discriminate.
  - intros [= <-]. auto.
  - intros [_ ->]. reflexivity.
Qed.

(** [Init] succeeds exactly when the end timestamp is in the future, the
    name fits, the manager address and the two pot addresses are free and
    distinct; it then adds the manager and the two pots and nothing else. *)
Lemma Init_inr (now : Z) (authority token : PublicKey.t) (endTimestamp duration : Z)
    (name : string) (l l' : ledger) :
  Init now authority token endTimestamp duration name l = inr l' <->
  now < endTimestamp /\
  (String.length name <= 32)%nat /\
  managers l !! (authority, name) = None /\
  pots l !! (authority, name, endTimestamp) = None /\
  pots l !! (authority, name, endTimestamp + duration) = None /\
  duration <> 0 /\
  l' = mkLedger
         (<[(authority, name) :=
              mkManager authority token duration
                        (endTimestamp, endTimestamp + duration) name]> (managers l))
         (<[(authority, name, endTimestamp + duration) :=
              mkPot (authority, name) 0 endTimestamp (endTimestamp + duration) 0 None]>
            (<[(authority, name, endTimestamp) :=
                 mkPot (authority, name) 0 now endTimestamp 0 None]> (pots l)))
         (tickets l) (escrow l) (treasury l) (funds l).
Proof.
  unfold Init.
  destruct (decide (now < endTimestamp)) as [Hnow|Hnow];
    [|split; [discriminate | tauto]].
  destruct (decide (String.length name <= 32)%nat) as [Hname|Hname];
    [|split; [discriminate | tauto]].
  destruct (managers l !! (authority, name)) eqn:Hm;
    [split; [discriminate | intros (_ & _ & ? & _); discriminate]|].
  destruct (create_pot (authority, name, endTimestamp) _ l) as [err|l1] eqn:H1.
  { split; [discriminate|]. intros (_ & _ & _ & Hfree & _).
    unfold create_pot in H1. rewrite Hfree in H1. discriminate. }
  apply create_pot_inr in H1. destruct H1 as [Hfree1 Hl1]. subst l1.
  cbn [managers pots tickets escrow treasury funds].
  destruct (create_pot (authority, name, endTimestamp + duration) _ _)
    as [err|l2] eqn:H2.
  { split; [discriminate|]. intros (_ & _ & _ & _ & Hfree2 & Hd & _).
    unfold create_pot in H2. cbn [pots] in H2.
    rewrite lookup_insert_ne, Hfree2 in H2 by (intros [=]; lia).
    discriminate. }
  apply create_pot_inr in H2. destruct H2 as [Hfree2 Hl2]. subst l2.
  cbn [managers pots tickets escrow treasury funds] in *.
  assert (Hd : duration <> 0).
  { intros ->. rewrite Z.add_0_r, lookup_insert_eq in Hfree2. discriminate. }
  rewrite lookup_insert_ne in Hfree2 by (intros [=]; lia).
  split.
  - intros [= <-]. auto 10.
  - intros (_ & _ & _ & _ & _ & _ & ->). reflexivity.
Qed.

(** [AdvanceRound] succeeds exactly when the manager exists, its current
    round has ended and the address of the new pot is free; it then adds
    that pot and moves the timestamp pair. *)
Lemma AdvanceRound_inr (now : Z) (m : manager_addr) (l l' : ledger) :
  AdvanceRound now m l = inr l' <->
  exists mg : manager,
    managers l !! m = Some mg /\
    (m_timestamps mg).1 <= now /\
    pots l !! (m, (m_timestamps mg).2 + m_duration mg) = None /\
    l' = mkLedger
           (<[m := mkManager (m_authority mg) (m_token mg) (m_duration mg)
                             ((m_timestamps mg).2,
                              (m_timestamps mg).2 + m_duration mg)
                             (m_name mg)]> (managers l))
           (<[(m, (m_timestamps mg).2 + m_duration mg) :=
                mkPot m 0 (m_timestamps mg).2
                      ((m_timestamps mg).2 + m_duration mg) 0 None]> (pots l))
           (tickets l) (escrow l) (treasury l) (funds l).
Proof.
  unfold AdvanceRound.
  destruct (managers l !! m) as [mg|] eqn:Hm;
    [|split; [discriminate | intros (? & ? & _); discriminate]].
  destruct (m_timestamps mg) as [currentEnd nextEnd] eqn:Hts. cbn [fst snd].
  destruct (decide (currentEnd <= now)) as [Hended|Hended].
  - destruct (create_pot _ _ l) as [err|l1] eqn:H1.
    + split; [discriminate|]. intros (mg' & [= <-] & _ & Hfree & _).
      rewrite Hts in Hfree. cbn [snd] in Hfree.
      unfold create_pot in H1. rewrite Hfree in H1. discriminate.
    + apply create_pot_inr in H1. destruct H1 as [Hfree Hl1]. subst l1.
      cbn [managers pots tickets escrow treasury funds].
      split.
      * intros [= <-]. exists mg. rewrite Hts. auto.
      * intros (mg' & [= <-] & _ & _ & ->). rewrite Hts. reflexivity.
  - split; [discriminate|]. intros (mg' & [= <-] & Hle & _).
    rewrite Hts in Hle. cbn [fst] in Hle. lia.
Qed.

(** [Enter] succeeds exactly when the pot exists and is Active, the
    participant can pay and the address of the next ticket is free; it then
    has the four effects of the specification, and debits the participant. *)
Lemma Enter_inr (fee_percent now : Z) (a : pot_addr) (participant : PublicKey.t)
    (payment : Z) (l l' : ledger) :
  Enter fee_percent now a participant payment l = inr l' <->
  exists p : pot,
    pots l !! a = Some p /\
    status now p = Active /\
    payment <= default 0 (funds l !! participant) /\
    tickets l !! (a, p_participants p) = None /\
    l' = mkLedger
           (managers l)
           (<[a := mkPot (p_manager p) (p_participants p + 1) (p_start p)
                         (p_end p) (p_winning p) (p_randomness p)]> (pots l))
           (<[(a, p_participants p) := mkTicket participant (p_participants p)]>
              (tickets l))
           (escrow l + (payment - payment * fee_percent / 100))
           (treasury l + payment * fee_percent / 100)
           (<[participant := default 0 (funds l !! participant) - payment]>
              (funds l)).
Proof.
  unfold Enter.
  destruct (pots l !! a) as [p|] eqn:Hp;
    [|split; [discriminate | intros (? & ? & _); discriminate]].
  destruct (decide (status now p = Active)) as [Hactive|Hactive];
    [|split; [discriminate | intros (? & [= <-] & ? & _); contradiction]].
  destruct (decide (payment <= default 0 (funds l !! participant)))
    as [Hfunds|Hfunds];
    [|split; [discriminate | intros (? & [= <-] & _ & ? & _); contradiction]].
  destruct (tickets l !! (a, p_participants p)) eqn:Ht.
  - split; [discriminate|]. intros (? & [= <-] & _ & _ & Hfree & _).
    rewrite Ht in Hfree. discriminate.
  - split.
    + intros [= <-]. exists p. auto.
    + intros (? & [= <-] & _ & _ & _ & ->). reflexivity.
Qed.

Lemma status_Active (now : Z) (p : pot) : status now p = Active <-> now < p_end p.
Proof.
  unfold status. destruct (decide (now < p_end p)); [tauto|].
  split; [|lia].
  destruct (decide (p_winning p <> 0)); [discriminate|].
  destruct (decide (is_Some (p_randomness p))); discriminate.
Qed.

End ProgramFacts.

(** ** The on-chain program: what holds of every reachable ledger *)

Section ProgramInvariant.
Import Program.

(** Pots sit at the address their fields name, under an existing manager;
    a manager's timestamp pair names two existing pots one duration apart,
    and every pot of the manager ends a whole number of durations before
    the later of the two; a ticket's index is below its pot's participant
    count. *)
Record Inv (l : ledger) : Prop := mkInv {
  inv_pot_key : forall (a : pot_addr) (p : pot),
    pots l !! a = Some p ->
    p_manager p = a.1 /\ p_end p = a.2 /\ 0 <= p_participants p;
  inv_pot_manager : forall (a : pot_addr) (p : pot),
    pots l !! a = Some p -> is_Some (managers l !! a.1);
  inv_pair : forall (m : manager_addr) (mg : manager),
    managers l !! m = Some mg ->
    (m_timestamps mg).2 = (m_timestamps mg).1 + m_duration mg /\
    is_Some (pots l !! (m, (m_timestamps mg).1)) /\
    is_Some (pots l !! (m, (m_timestamps mg).2));
  inv_chain : forall (m : manager_addr) (mg : manager) (e : Z),
    managers l !! m = Some mg ->
    is_Some (pots l !! (m, e)) ->
    exists k : Z, 0 <= k /\ e = (m_timestamps mg).2 - k * m_duration mg;
  inv_ticket : forall (a : pot_addr) (i : Z) (t : ticket),
    tickets l !! (a, i) = Some t ->
    exists p : pot,
      pots l !! a = Some p /\ 0 <= i < p_participants p /\ t_index t = i
}.

Lemma Inv_empty (funds : gmap PublicKey.t Z) : Inv (empty_ledger funds).
Proof.
  split; unfold empty_ledger; cbn [managers pots tickets].
  - intros a p H. rewrite lookup_empty in H. discriminate.
  - intros a p H. rewrite lookup_empty in H. discriminate.
  - intros m mg H. rewrite lookup_empty in H. discriminate.
  - intros m mg e H. rewrite lookup_empty in H. discriminate.
  - intros a i t H. rewrite lookup_empty in H. discriminate.
Qed.

Lemma Inv_Init (now : Z) (authority token : PublicKey.t) (endTimestamp duration : Z)
    (name : string) (l l' : ledger) :
  Inv l ->
  Init now authority token endTimestamp duration name l = inr l' ->
  Inv l'.
Proof.
  intros HI Hop.
  apply Init_inr in Hop as (Hnow & Hname & Hm & Hp1 & Hp2 & Hd & ->).
  set (m := (authority, name)) in *.
  split; cbn [managers pots tickets].
  - intros a p H.
    apply lookup_insert_Some in H as [[<- <-]|[Hne2 H]]; [cbn; auto with lia|].
    apply lookup_insert_Some in H as [[<- <-]|[Hne1 H]]; [cbn; auto with lia|].
    exact (inv_pot_key l HI a p H).
  - intros a p H.
    apply lookup_insert_Some in H as [[<- <-]|[Hne2 H]];
      [cbn; rewrite lookup_insert_eq; eauto|].
    apply lookup_insert_Some in H as [[<- <-]|[Hne1 H]];
      [cbn; rewrite lookup_insert_eq; eauto|].
    apply lookup_insert_is_Some'. right. exact (inv_pot_manager l HI a p H).
  - intros m' mg H.
    apply lookup_insert_Some in H as [[<- <-]|[Hne H]].
    + cbn. split; [reflexivity|]. split.
      * rewrite lookup_insert_ne by (intros [=]; lia).
        rewrite lookup_insert_eq. eauto.
      * rewrite lookup_insert_eq. eauto.
    + destruct (inv_pair l HI m' mg H) as (Hts & Hc & Hn).
      split; [exact Hts|].
      split; do 2 (apply lookup_insert_is_Some'; right); assumption.
  - intros m' mg e H Hpot.
    apply lookup_insert_Some in H as [[<- <-]|[Hne H]].
    + cbn [m_timestamps m_duration snd].
      apply lookup_insert_is_Some in Hpot as [Heq|[_ Hpot]].
      { exists 0. injection Heq as <-. lia. }
      apply lookup_insert_is_Some in Hpot as [Heq|[_ Hpot]].
      { exists 1. injection Heq as <-. lia. }
      destruct Hpot as [p Hpot].
      destruct (inv_pot_manager l HI _ p Hpot) as [mg' Hmg'].
      cbn in Hmg'. fold m in Hmg'. rewrite Hm in Hmg'. discriminate.
    + apply (inv_chain l HI m' mg e H).
      apply lookup_insert_is_Some in Hpot as [Heq|[_ Hpot]];
        [injection Heq as <- <-; contradiction|].
      apply lookup_insert_is_Some in Hpot as [Heq|[_ Hpot]];
        [injection Heq as <- <-; contradiction|].
      exact Hpot.
  - intros a i t H.
    destruct (inv_ticket l HI a i t H) as (p & Hp & Hi).
    exists p. split; [|exact Hi].
    rewrite !lookup_insert_ne; [exact Hp| |]; intros <-; congruence.
Qed.

Lemma Inv_AdvanceRound (now : Z) (m : manager_addr) (l l' : ledger) :
  Inv l -> AdvanceRound now m l = inr l' -> Inv l'.
Proof.
  intros HI Hop.
  apply AdvanceRound_inr in Hop as (mg & Hm & Hended & Hfree & ->).
  destruct (inv_pair l HI m mg Hm) as (Hts & Hcur & Hnext).
  split; cbn [managers pots tickets].
  - intros a p H.
    apply lookup_insert_Some in H as [[<- <-]|[Hne H]]; [cbn; auto with lia|].
    exact (inv_pot_key l HI a p H).
  - intros a p H.
    apply lookup_insert_is_Some'.
    apply lookup_insert_Some in H as [[<- <-]|[Hne H]]; [left; reflexivity|].
    right. exact (inv_pot_manager l HI a p H).
  - intros m' mg' H.
    apply lookup_insert_Some in H as [[<- <-]|[Hne H]].
    + cbn. split; [reflexivity|]. split.
      * apply lookup_insert_is_Some'. right. exact Hnext.
      * rewrite lookup_insert_eq. eauto.
    + destruct (inv_pair l HI m' mg' H) as (Hts' & Hc & Hn).
      split; [exact Hts'|].
      split; apply lookup_insert_is_Some'; right; assumption.
  - intros m' mg' e H Hpot.
    apply lookup_insert_Some in H as [[<- <-]|[Hne H]].
    + cbn [m_timestamps m_duration snd].
      apply lookup_insert_is_Some in Hpot as [Heq|[_ Hpot]].
      { exists 0. injection Heq as <-. lia. }
      destruct (inv_chain l HI m mg e Hm Hpot) as (k & Hk & ->).
      exists (k + 1). split; lia.
    + apply (inv_chain l HI m' mg' e H).
      apply lookup_insert_is_Some in Hpot as [Heq|[_ Hpot]];
        [injection Heq as <-; contradiction | exact Hpot].
  - intros a i t H.
    destruct (inv_ticket l HI a i t H) as (p & Hp & Hi).
    exists p. split; [|exact Hi].
    rewrite lookup_insert_ne; [exact Hp|]. intros <-. congruence.
Qed.

Lemma Inv_Enter (fee_percent now : Z) (a : pot_addr) (participant : PublicKey.t)
    (payment : Z) (l l' : ledger) :
  Inv l -> Enter fee_percent now a participant payment l = inr l' -> Inv l'.
Proof.
  intros HI Hop.
  apply Enter_inr in Hop as (p & Hp & Hactive & Hfunds & Hfree & ->).
  destruct (inv_pot_key l HI a p Hp) as (Hpm & Hpe & Hpn).
  assert (Hsame : forall x : pot_addr,
             is_Some (<[a := mkPot (p_manager p) (p_participants p + 1) (p_start p)
                                   (p_end p) (p_winning p) (p_randomness p)]>
                        (pots l) !! x)
             <-> is_Some (pots l !! x)).
  { intros x. rewrite lookup_insert_is_Some. split.
    - intros [<-|[_ Hx]]; eauto.
    - destruct (decide (a = x)); auto. }
  split; cbn [managers pots tickets].
  - intros a' p' H.
    apply lookup_insert_Some in H as [[<- <-]|[Hne H]]; [cbn; auto with lia|].
    exact (inv_pot_key l HI a' p' H).
  - intros a' p' H.
    apply lookup_insert_Some in H as [[<- <-]|[Hne H]].
    + exact (inv_pot_manager l HI a p Hp).
    + exact (inv_pot_manager l HI a' p' H).
  - intros m mg H.
    destruct (inv_pair l HI m mg H) as (Hts & Hc & Hn).
    rewrite !Hsame. auto.
  - intros m mg e H Hpot. apply Hsame in Hpot.
    exact (inv_chain l HI m mg e H Hpot).
  - intros a' i t H.
    apply lookup_insert_Some in H as [[Heq <-]|[Hne H]].
    + injection Heq as <- <-. eexists. rewrite lookup_insert_eq.
      split; [reflexivity|]. cbn. split; [lia | reflexivity].
    + destruct (inv_ticket l HI a' i t H) as (p' & Hp' & Hi & Hidx).
      destruct (decide (a' = a)) as [->|Hne'].
      * rewrite Hp in Hp'. injection Hp' as <-.
        eexists. rewrite lookup_insert_eq. split; [reflexivity|].
        cbn. split; [lia | exact Hidx].
      * exists p'. rewrite lookup_insert_ne by congruence. auto.
Qed.

Lemma reachable_Inv (fee_percent : Z) (l : ledger) :
  reachable fee_percent l -> Inv l.
Proof.
  induction 1 as [funds | ? ? ? ? ? ? l l' _ IH Hop
                  | ? ? l l' _ IH Hop | ? ? ? ? l l' _ IH Hop].
  - apply Inv_empty.
  - exact (Inv_Init _ _ _ _ _ _ _ _ IH Hop).
  - exact (Inv_AdvanceRound _ _ _ _ IH Hop).
  - exact (Inv_Enter _ _ _ _ _ _ _ IH Hop).
Qed.

End ProgramInvariant.

(** ** What the client sends *)

(** One step of a client run that succeeded: the computation at the head
    of the run returned. *)
Ltac client_step H :=
  first [ rewrite run_lift in H | rewrite run_request in H ];
  match type of H with
  | context [match ?m with inl _ => _ | inr _ => _ end] =>
      let E := fresh "E" in
      destruct m eqn:E; [discriminate H|]
  end.

(** A transaction that went through was built from the given instructions,
    signed by the wallet, sent and confirmed, in that order. *)
Lemma sendTransaction_inv (self : Sdk.OpenLottoClient)
    (ixs : list TransactionInstruction) (log log' : list Rpc) (sig : string) :
  Sdk.sendTransaction self ixs log = (ok sig, log') ->
  exists (payer : PublicKey.t) (blockhash : string) (signed : Transaction),
    Sdk.publicKey self = Some payer /\
    sendRawTransaction (Sdk.connection self) signed = ok sig /\
    confirmTransaction (Sdk.connection self) sig = ok () /\
    log' = log ++ [GetLatestBlockhash;
                   SignTransaction (mkTransaction blockhash payer ixs);
                   SendRawTransaction signed;
                   ConfirmTransaction sig].
Proof.
  unfold Sdk.sendTransaction. intros Hrun.
  destruct (Sdk.wallet self) as [w|]; [|discriminate].
  destruct (Sdk.publicKey self) as [payer|]; [|discriminate].
  rewrite run_request in Hrun.
  destruct (getLatestBlockhash (Sdk.connection self)) as [?|latest];
    [discriminate|].
  rewrite run_request in Hrun.
  destruct (signTransaction w _) as [?|signed]; [discriminate|].
  rewrite run_request in Hrun.
  destruct (sendRawTransaction (Sdk.connection self) signed) as [?|signature]
    eqn:Hsent; [discriminate|].
  rewrite run_request in Hrun.
  destruct (confirmTransaction (Sdk.connection self) signature) as [?|[]]
    eqn:Hconfirmed; [discriminate|].
  rewrite run_ret in Hrun. injection Hrun as <- <-.
  exists payer, latest.1, signed.
  split; [reflexivity|]. split; [exact Hsent|]. split; [exact Hconfirmed|].
  rewrite <- !app_assoc. reflexivity.
Qed.

(** The instruction of a successful [initPotManager]: its fifth and sixth
    accounts are the pot addresses derived from [endTimestamp] and from
    [endTimestamp + potDuration], and its data carries the two numbers and
    the name. *)
Lemma initPotManager_inv `{Web3} (self : Sdk.OpenLottoClient)
    (managerName : String16) (mint : PublicKey.t) (endTimestamp potDuration : BN.t)
    (log log' : list Rpc) (sig : string) :
  Sdk.initPotManager self managerName mint endTimestamp potDuration log
    = (ok sig, log') ->
  exists (authority : PublicKey.t) (potManager firstPot nextPot : PublicKey.t * Z)
         (endBytes durationBytes nameBytes : list byte)
         (tx : Transaction) (ix : TransactionInstruction),
    Sdk.publicKey self = Some authority /\
    Utils.derivePotManagerPDA authority managerName = ok potManager /\
    Utils.derivePotPDA potManager.1 endTimestamp = ok firstPot /\
    Utils.derivePotPDA potManager.1 (endTimestamp + potDuration) = ok nextPot /\
    BN.toArrayLike_le endTimestamp 8 = ok endBytes /\
    BN.toArrayLike_le potDuration 8 = ok durationBytes /\
    Sdk.encodeString managerName = ok nameBytes /\
    (exists signed : Transaction,
        sendRawTransaction (Sdk.connection self) signed = ok sig) /\
    SignTransaction tx ∈ log' /\
    instructions tx = [ix] /\
    keys ix !! 0%nat = Some (mkMeta potManager.1 false true) /\
    keys ix !! 4%nat = Some (mkMeta firstPot.1 false true) /\
    keys ix !! 5%nat = Some (mkMeta nextPot.1 false true) /\
    data ix = Sdk.getDiscriminator "init_pot_manager"
              ++ endBytes ++ durationBytes ++ nameBytes.
Proof.
  unfold Sdk.initPotManager. intros Hrun.
  destruct (Sdk.publicKey self) as [authority|] eqn:Hkey; [|discriminate].
  do 8 client_step Hrun.
  apply sendTransaction_inv in Hrun
    as (payer & blockhash & signed & _ & Hsent & _ & ->).
  eexists authority, _, _, _, _, _, _, _, _.
  repeat (split; [eassumption || reflexivity|]).
  split; [eauto|].
  split.
  { rewrite elem_of_app. right. apply list_elem_of_further, list_elem_of_here. }
  repeat (split; [reflexivity|]). reflexivity.
Qed.

(** The instruction of a successful [enterTicket]: it comes last in the
    transaction, and its third account is the ticket address derived from
    the pot and the participant count the caller passed. *)
Lemma enterTicket_inv `{Web3} (self : Sdk.OpenLottoClient)
    (pot : PublicKey.t) (potTotalParticipants : BN.t) (mint : PublicKey.t)
    (log log' : list Rpc) (sig : string) :
  Sdk.enterTicket self pot potTotalParticipants mint log = (ok sig, log') ->
  exists (ticket : PublicKey.t * Z) (tx : Transaction)
         (ix : TransactionInstruction),
    Utils.deriveTicketPDA pot potTotalParticipants = ok ticket /\
    SignTransaction tx ∈ log' /\
    last (instructions tx) = Some ix /\
    keys ix !! 1%nat = Some (mkMeta pot false true) /\
    keys ix !! 2%nat = Some (mkMeta ticket.1 false true) /\
    data ix = Sdk.getDiscriminator "enter_ticket".
Proof.
  unfold Sdk.enterTicket. intros Hrun.
  destruct (Sdk.publicKey self) as [user|] eqn:Hkey; [|discriminate].
  do 5 client_step Hrun.
  apply sendTransaction_inv in Hrun
    as (payer & blockhash & signed & _ & Hsent & _ & ->).
  eexists _, _, _.
  split; [reflexivity|].
  split.
  { rewrite elem_of_app. right. apply list_elem_of_further, list_elem_of_here. }
  cbn [instructions]. rewrite last_snoc.
  repeat (split; [reflexivity|]). reflexivity.
Qed.

(** ** The pots that are open for entry *)


Section OpenPots.
Import Program.













End OpenPots.

(** ** The scheduler *)

Section Scheduler.
Import Program.

(** On a ledger that satisfies the invariant, [Init] succeeds whenever the
    end timestamp is in the future, the name fits, the duration is not zero
    and the manager does not exist yet. *)
Lemma Init_succeeds (now : Z) (authority token : PublicKey.t)
    (endTimestamp duration : Z) (name : string) (l : ledger) :
  Inv l ->
  now < endTimestamp ->
  (String.length name <= 32)%nat ->
  duration <> 0 ->
  managers l !! (authority, name) = None ->
  exists l' : ledger,
    Init now authority token endTimestamp duration name l = inr l'.
Proof.
  intros HI Hnow Hname Hd Hm.
  assert (Hfree : forall e : Z, pots l !! (authority, name, e) = None).
  { intros e. destruct (pots l !! (authority, name, e)) as [p|] eqn:Hp;
      [|reflexivity].
    destruct (inv_pot_manager l HI _ p Hp) as [mg Hmg].
    cbn in Hmg. rewrite Hm in Hmg. discriminate. }
  eexists. apply Init_inr. auto 10.
Qed.

(** On a ledger that satisfies the invariant, [Enter] succeeds whenever the
    pot exists, has not ended, and the participant can pay. *)
Lemma Enter_succeeds (fee_percent now : Z) (a : pot_addr)
    (participant : PublicKey.t) (payment : Z) (l : ledger) (p : pot) :
  Inv l ->
  pots l !! a = Some p ->
  now < p_end p ->
  payment <= default 0 (funds l !! participant) ->
  exists l' : ledger,
    Enter fee_percent now a participant payment l = inr l'.
Proof.
  intros HI Hp Hnow Hpay.
  eexists. apply Enter_inr. exists p.
  split; [exact Hp|]. split; [apply status_Active; exact Hnow|].
  split; [exact Hpay|]. split; [|reflexivity].
  destruct (tickets l !! (a, p_participants p)) as [t|] eqn:Ht; [|reflexivity].
  destruct (inv_ticket l HI _ _ t Ht) as (p' & Hp' & Hi & _).
  rewrite Hp in Hp'. injection Hp' as <-. lia.
Qed.




End Scheduler.

(** ** Init *)

Section InitFacts.
Import Program.

(** C5: a successful Init(endTimestamp, duration, name) adds exactly two
    Pots to the ledger, at two addresses that were free, the first ending
    at [endTimestamp], the second at [endTimestamp + duration], both with
    no participant, and sets the manager's timestamp pair to those two
    values; on a reachable ledger it succeeds for every future end
    timestamp, non-zero duration, name of at most 32 bytes and new
    (authority, name); with end timestamp now+300 and duration 3600 on an
    empty ledger the two Pots end at now+300 and now+3900. The client's
    [initPotManager] names the same two Pots: the addresses derived from
    [endTimestamp] and from [endTimestamp + potDuration]. (Spec-modelled:
    the on-chain program is written from the specification.) *)
Theorem Init_creates_two_pots `{Web3} :
  (forall (now : Z) (authority token : PublicKey.t) (endTimestamp duration : Z)
          (name : string) (l l' : ledger),
      Init now authority token endTimestamp duration name l = inr l' ->
      pots l !! (authority, name, endTimestamp) = None /\
      pots l !! (authority, name, endTimestamp + duration) = None /\
      pots l' =
        <[(authority, name, endTimestamp + duration) :=
            mkPot (authority, name) 0 endTimestamp (endTimestamp + duration) 0 None]>
          (<[(authority, name, endTimestamp) :=
               mkPot (authority, name) 0 now endTimestamp 0 None]> (pots l)) /\
      size (pots l') = S (S (size (pots l))) /\
      managers l' !! (authority, name)
        = Some (mkManager authority token duration
                          (endTimestamp, endTimestamp + duration) name)) /\
  (forall (fee_percent now : Z) (authority token : PublicKey.t)
          (endTimestamp duration : Z) (name : string) (l : ledger),
      reachable fee_percent l ->
      now < endTimestamp ->
      duration <> 0 ->
      (String.length name <= 32)%nat ->
      managers l !! (authority, name) = None ->
      exists l' : ledger,
        Init now authority token endTimestamp duration name l = inr l') /\
  (forall (now : Z) (authority token : PublicKey.t) (name : string)
          (funds : gmap PublicKey.t Z),
      (String.length name <= 32)%nat ->
      exists l' : ledger,
        Init now authority token (now + 300) 3600 name (empty_ledger funds)
          = inr l' /\
        pots l' =
          <[(authority, name, now + 3900) :=
              mkPot (authority, name) 0 (now + 300) (now + 3900) 0 None]>
            (<[(authority, name, now + 300) :=
                 mkPot (authority, name) 0 now (now + 300) 0 None]> ∅) /\
        managers l' !! (authority, name)
          = Some (mkManager authority token 3600 (now + 300, now + 3900) name)) /\
  (forall (self : Sdk.OpenLottoClient) (managerName : String16)
          (mint : PublicKey.t) (endTimestamp potDuration : BN.t)
          (log log' : list Rpc) (sig : string),
      Sdk.initPotManager self managerName mint endTimestamp potDuration log
        = (ok sig, log') ->
      exists (potManager firstPot nextPot : PublicKey.t * Z)
             (tx : Transaction) (ix : TransactionInstruction),
        Utils.derivePotPDA potManager.1 endTimestamp = ok firstPot /\
        Utils.derivePotPDA potManager.1 (endTimestamp + potDuration) = ok nextPot /\
        SignTransaction tx ∈ log' /\
        instructions tx = [ix] /\
        keys ix !! 4%nat = Some (mkMeta firstPot.1 false true) /\
        keys ix !! 5%nat = Some (mkMeta nextPot.1 false true)).
Proof.
  split; [|split; [|split]].
  - intros now authority token endTimestamp duration name l l' Hop.
    apply Init_inr in Hop as (_ & _ & _ & Hp1 & Hp2 & Hd & ->).
    cbn [pots managers].
    split; [exact Hp1|]. split; [exact Hp2|]. split; [reflexivity|].
    split; [|apply lookup_insert_eq].
    rewrite !map_size_insert_None; [reflexivity | exact Hp1 |].
    rewrite lookup_insert_ne by (intros [=]; lia). exact Hp2.
  - intros fee_percent now authority token endTimestamp duration name l
           Hreach Hnow Hd Hname Hm.
    apply (Init_succeeds now authority token endTimestamp duration name l);
      [exact (reachable_Inv _ _ Hreach) | assumption..].
  - intros now authority token name funds Hname.
    eexists. split.
    + apply Init_inr.
      split; [lia|]. split; [exact Hname|].
      repeat (split; [reflexivity || lia|]). reflexivity.
    + cbn [pots managers empty_ledger].
      replace (now + 300 + 3600) with (now + 3900) by lia.
      split; [reflexivity | apply lookup_insert_eq].
  - intros self managerName mint endTimestamp potDuration log log' sig Hrun.
    apply initPotManager_inv in Hrun
      as (authority & potManager & firstPot & nextPot & endBytes & durationBytes
          & nameBytes & tx & ix & _ & _ & Hfirst & Hnext & _ & _ & _ & _ & Htx
          & Hixs & _ & H4 & H5 & _).
    exists potManager, firstPot, nextPot, tx, ix. auto 10.
Qed.

Lemma Init_creates_two_pots_witness :
  exists (l' : ledger) (sig : string) (log' : list Rpc),
    Init 1000 1 2 1300 3600 "daily" (empty_ledger ∅) = inr l' /\
    size (pots l') = 2%nat /\
    @Sdk.initPotManager Sample.web3 (Sample.client ∅) (Js.str "daily") 2 1300 3600 []
      = (ok sig, log').
Proof.
  destruct (@Init_creates_two_pots Sample.web3) as (Hshape & Hsucc & _ & _).
  destruct (Hsucc 10 1000 1 2 1300 3600 "daily"%string (empty_ledger ∅))
    as [l' Hinit];
    [apply reach_empty | lia | lia | simpl; lia | reflexivity |].
  destruct (Hshape _ _ _ _ _ _ _ _ Hinit) as (_ & _ & _ & Hsize & _).
  exists l'. eexists _, _.
  split; [exact Hinit|]. split; [exact Hsize|].
  vm_compute. reflexivity.
Defined.

(** C6: Init fails whenever the end timestamp is not strictly in the
    future and whenever the name exceeds 32 bytes, and the ledger after
    such a failure is the ledger before it: no manager, pot or ticket
    record is created. The client's [initPotManager] has no check of its
    own for either (a name too long for an address seed is refused by the
    address derivation of web3.js, not by this code); it reports the
    failure of the program: when the node refuses the transaction, it
    returns no signature. (Spec-modelled: the on-chain program is written
    from the specification.) *)
Theorem Init_rejects `{Web3} (now : Z) (authority token : PublicKey.t)
    (endTimestamp duration : Z) (name : string) (l : ledger) :
  (endTimestamp <= now ->
     run (Init now authority token endTimestamp duration name) l
       = (Some EndTimestampNotInFuture, l)) /\
  ((32 < String.length name)%nat ->
     exists err : error,
       (err = NameTooLong \/ err = EndTimestampNotInFuture) /\
       run (Init now authority token endTimestamp duration name) l
         = (Some err, l)) /\
  (forall (err : error) (l' : ledger),
     run (Init now authority token endTimestamp duration name) l
       = (Some err, l') ->
     managers l' = managers l /\ pots l' = pots l /\ tickets l' = tickets l) /\
  (forall (self : Sdk.OpenLottoClient) (managerName : String16)
          (mint : PublicKey.t) (refusal : exn)
          (log log' : list Rpc) (sig : string),
     (forall tx : Transaction,
         sendRawTransaction (Sdk.connection self) tx = throw refusal) ->
     Sdk.initPotManager self managerName mint endTimestamp duration log
       <> (ok sig, log')).
Proof.
  split; [|split; [|split]].
  - intros Hpast. unfold run, Init.
    destruct (decide (now < endTimestamp)); [lia | reflexivity].
  - intros Hlong. unfold run, Init.
    destruct (decide (now < endTimestamp)); [|eauto].
    destruct (decide (String.length name <= 32)%nat); [lia | eauto].
  - intros err l'. unfold run.
    destruct (Init now authority token endTimestamp duration name l);
      intros [= _ <-]; auto.
  - intros self managerName mint refusal log log' sig Hrefused Hrun.
    apply initPotManager_inv in Hrun
      as (? & ? & ? & ? & ? & ? & ? & ? & ? & _ & _ & _ & _ & _ & _ & _
          & (signed & Hsent) & _).
    rewrite Hrefused in Hsent. discriminate Hsent.
Qed.

Lemma Init_rejects_witness :
  run (Init 1000 1 2 1000 3600 "daily") (empty_ledger ∅)
    = (Some EndTimestampNotInFuture, empty_ledger ∅) /\
  run (Init 1000 1 2 1300 3600 "a-name-that-is-longer-than-32-bytes")
      (empty_ledger ∅)
    = (Some NameTooLong, empty_ledger ∅).
Proof.
  destruct (@Init_rejects Sample.web3 1000 1 2 1000 3600 "daily" (empty_ledger ∅))
    as (Hpast & _ & _).
  destruct (@Init_rejects Sample.web3 1000 1 2 1300 3600
              "a-name-that-is-longer-than-32-bytes" (empty_ledger ∅))
    as (_ & Hlong & _).
  split; [apply Hpast; lia|].
  destruct Hlong as (err & _ & Hrun); [simpl; lia|].
  rewrite Hrun. vm_compute in Hrun. exact (eq_sym Hrun).
Defined.

End InitFacts.

(** ** Enter *)

Section EnterFacts.
Import Program.

(** What a successful [Enter] leaves: the new ticket at the pot's old
    participant count, the count one higher, everything else about
    tickets as before. *)
Lemma Enter_effect (fee_percent now : Z) (a : pot_addr)
    (participant : PublicKey.t) (payment : Z) (l l' : ledger) (p : pot) :
  pots l !! a = Some p ->
  Enter fee_percent now a participant payment l = inr l' ->
  tickets l !! (a, p_participants p) = None /\
  tickets l' = <[(a, p_participants p) := mkTicket participant (p_participants p)]>
                 (tickets l) /\
  pots l' !! a = Some (mkPot (p_manager p) (p_participants p + 1) (p_start p)
                             (p_end p) (p_winning p) (p_randomness p)).
Proof.
  intros Hp Hop.
  apply Enter_inr in Hop as (p' & Hp' & _ & _ & Hfree & ->).
  rewrite Hp in Hp'. injection Hp' as <-. cbn [tickets pots].
  split; [exact Hfree|]. split; [reflexivity | apply lookup_insert_eq].
Qed.

(** C4: a successful Enter on a Pot with participant count n creates the
    new Ticket at index n, at an address that was free, and makes the count
    n + 1; on a reachable ledger Enter succeeds whenever the Pot has not
    ended and the participant can pay; starting from count 0, two Enters
    create the Tickets at index 0 and at index 1 and leave the count at 2.
    The client's [enterTicket] names, as the ticket account of its
    instruction, the address derived from the pot and the participant
    count it is given. (Spec-modelled: the on-chain program is written from
    the specification.) *)
Theorem Enter_sequential_index `{Web3} (fee_percent : Z) :
  (forall (now : Z) (a : pot_addr) (participant : PublicKey.t) (payment : Z)
          (l l' : ledger) (p : pot),
      pots l !! a = Some p ->
      Enter fee_percent now a participant payment l = inr l' ->
      tickets l !! (a, p_participants p) = None /\
      tickets l' !! (a, p_participants p)
        = Some (mkTicket participant (p_participants p)) /\
      (forall k : ticket_addr,
          k <> (a, p_participants p) -> tickets l' !! k = tickets l !! k) /\
      exists p' : pot,
        pots l' !! a = Some p' /\ p_participants p' = p_participants p + 1) /\
  (forall (now : Z) (a : pot_addr) (participant : PublicKey.t) (payment : Z)
          (l : ledger) (p : pot),
      reachable fee_percent l ->
      pots l !! a = Some p ->
      now < p_end p ->
      payment <= default 0 (funds l !! participant) ->
      exists l' : ledger,
        Enter fee_percent now a participant payment l = inr l') /\
  (forall (now1 now2 : Z) (a : pot_addr) (who1 who2 : PublicKey.t)
          (pay1 pay2 : Z) (l l1 l2 : ledger) (p : pot),
      pots l !! a = Some p ->
      p_participants p = 0 ->
      Enter fee_percent now1 a who1 pay1 l = inr l1 ->
      Enter fee_percent now2 a who2 pay2 l1 = inr l2 ->
      tickets l2 !! (a, 0) = Some (mkTicket who1 0) /\
      tickets l2 !! (a, 1) = Some (mkTicket who2 1) /\
      exists p2 : pot, pots l2 !! a = Some p2 /\ p_participants p2 = 2) /\
  (forall (self : Sdk.OpenLottoClient) (pot : PublicKey.t)
          (potTotalParticipants : BN.t) (mint : PublicKey.t)
          (log log' : list Rpc) (sig : string),
      Sdk.enterTicket self pot potTotalParticipants mint log = (ok sig, log') ->
      exists (ticket : PublicKey.t * Z) (tx : Transaction)
             (ix : TransactionInstruction),
        Utils.deriveTicketPDA pot potTotalParticipants = ok ticket /\
        SignTransaction tx ∈ log' /\
        last (instructions tx) = Some ix /\
        keys ix !! 2%nat = Some (mkMeta ticket.1 false true)).
Proof.
  split; [|split; [|split]].
  - intros now a participant payment l l' p Hp Hop.
    destruct (Enter_effect _ _ _ _ _ _ _ _ Hp Hop) as (Hfree & -> & Hp').
    split; [exact Hfree|]. split; [apply lookup_insert_eq|].
    split; [intros k Hk; apply lookup_insert_ne; congruence|].
    eexists. split; [exact Hp' | reflexivity].
  - intros now a participant payment l p Hreach Hp Hnow Hpay.
    exact (Enter_succeeds _ _ _ _ _ _ _ (reachable_Inv _ _ Hreach) Hp Hnow Hpay).
  - intros now1 now2 a who1 who2 pay1 pay2 l l1 l2 p Hp Hzero Hop1 Hop2.
    destruct (Enter_effect _ _ _ _ _ _ _ _ Hp Hop1) as (_ & Ht1 & Hp1).
    destruct (Enter_effect _ _ _ _ _ _ _ _ Hp1 Hop2) as (_ & Ht2 & Hp2).
    cbn [p_participants] in Ht2, Hp2. rewrite Hzero in *.
    rewrite Ht2, Ht1. change (0 + 1) with 1 in *.
    split; [|split].
    + rewrite lookup_insert_ne by (intros [=]). apply lookup_insert_eq.
    + apply lookup_insert_eq.
    + eexists. split; [exact Hp2 | reflexivity].
  - intros self pot potTotalParticipants mint log log' sig Hrun.
    apply enterTicket_inv in Hrun
      as (ticket & tx & ix & Hticket & Htx & Hlast & _ & H2 & _).
    exists ticket, tx, ix. auto.
Qed.

Lemma Enter_sequential_index_witness :
  Init 1000 1 2 1300 3600 "daily" (empty_ledger {[ 7 := 50; 8 := 50 ]})
    = inr SampleLedger.l0 /\
  Enter 10 1100 (1, "daily"%string, 1300) 7 20 SampleLedger.l0
    = inr SampleLedger.l1 /\
  Enter 10 1200 (1, "daily"%string, 1300) 8 20 SampleLedger.l1
    = inr SampleLedger.l2 /\
  tickets SampleLedger.l2 !! (1, "daily"%string, 1300, 0) = Some (mkTicket 7 0) /\
  tickets SampleLedger.l2 !! (1, "daily"%string, 1300, 1) = Some (mkTicket 8 1) /\
  (exists p2 : pot,
      pots SampleLedger.l2 !! (1, "daily"%string, 1300) = Some p2 /\
      p_participants p2 = 2) /\
  (@Sdk.enterTicket Sample.web3 (Sample.client ∅) 5 1 2 []).1 = ok "signature"%string.
Proof.
  destruct (@Enter_sequential_index Sample.web3 10) as (_ & _ & Htwo & _).
  assert (H0 : Init 1000 1 2 1300 3600 "daily" (empty_ledger {[ 7 := 50; 8 := 50 ]})
               = inr SampleLedger.l0) by (vm_compute; reflexivity).
  assert (H1 : Enter 10 1100 (1, "daily"%string, 1300) 7 20 SampleLedger.l0
               = inr SampleLedger.l1) by (vm_compute; reflexivity).
  assert (H2 : Enter 10 1200 (1, "daily"%string, 1300) 8 20 SampleLedger.l1
               = inr SampleLedger.l2) by (vm_compute; reflexivity).
  destruct (Htwo 1100 1200 (1, "daily"%string, 1300) 7 8 20 20
              SampleLedger.l0 SampleLedger.l1 SampleLedger.l2
              (mkPot (1, "daily"%string) 0 1000 1300 0 None))
    as (Ha & Hb & Hc);
    [vm_compute; reflexivity | reflexivity | exact H1 | exact H2 |].
  split; [exact H0|]. split; [exact H1|]. split; [exact H2|].
  split; [exact Ha|]. split; [exact Hb|]. split; [exact Hc|].
  vm_compute. reflexivity.
Defined.

End EnterFacts.

(** ** Worked examples *)

Example PROGRAM_ID_value :
  PROGRAM_ID
    = 97447237420307755235969499186126559855300856613896533708655775309650751435626.
Proof. reflexivity. Qed.

Example getPotStatus_active :
  getPotStatus 100 (Types.mkPot 0 0 0 200 0 0) = ok Active.
Proof. reflexivity. Qed.

Example getPotStatus_settled :
  getPotStatus 300 (Types.mkPot 0 5 0 200 2 9) = ok Settled.
Proof. reflexivity. Qed.

Example getPotStatus_drawing :
  getPotStatus 300 (Types.mkPot 0 5 0 200 0 9) = ok Drawing.
Proof. reflexivity. Qed.

Example getPotStatus_closed :
  getPotStatus 200 (Types.mkPot 0 5 0 200 0 0) = ok Closed.
Proof. reflexivity. Qed.

(** A pot settled on the ticket at index 0 is shown as Drawing. *)
Example getPotStatus_winner_zero :
  getPotStatus 300 (Types.mkPot 0 5 0 200 0 9) <> ok Settled.
Proof. discriminate. Qed.

Example getPotStatus_large_winner :
  getPotStatus 100 (Types.mkPot 0 5 0 200 (2 ^ 53) 0)
    = throw (AssertionError "Number can only safely store up to 53 bits").
Proof. reflexivity. Qed.

Example parsePotAccount_pot_record :
  Sdk.parsePotAccount (Sample.pot_record x02) = Some (Types.mkPot 9 5 16 32 2 4).
Proof. reflexivity. Qed.

Example parsePotAccount_ticket_record :
  Sdk.parsePotAccount Sample.ticket_record = Some (Types.mkPot 7 3 0 0 0 0).
Proof. reflexivity. Qed.

Example parsePotAccount_empty :
  Sdk.parsePotAccount [] = Some (Types.mkPot 0 0 0 0 0 0).
Proof. reflexivity. Qed.

Example parseTicketAccount_ticket_record :
  Sdk.parseTicketAccount Sample.ticket_record = Some (Types.mkTicket 7 3).
Proof. reflexivity. Qed.

(** A manager record cut before the end of the name length has no name to
    read: [readUInt32LE] throws and the parser returns null. *)
Example parsePotManagerAccount_short :
  Sdk.parsePotManagerAccount (replicate 140 x00) = None.
Proof. reflexivity. Qed.

Example encodeString_daily :
  Sdk.encodeString (Js.str "daily")
    = ok [x05; x00; x00; x00; x64; x61; x69; x6c; x79].
Proof. reflexivity. Qed.

Example toArrayLike_1300 :
  BN.toArrayLike_le 1300 8 = ok [x14; x05; x00; x00; x00; x00; x00; x00].
Proof. reflexivity. Qed.

Example toArrayLike_too_long :
  BN.toArrayLike_le (2 ^ 64) 8
    = throw (AssertionError "byte array longer than desired length").
Proof. reflexivity. Qed.

Example checkRandomnessStatus_not_found :
  Sdk.checkRandomnessStatus (Sample.client ∅) 5 [] = (ok NotFound, [GetAccountInfo 5]).
Proof. reflexivity. Qed.

Example checkRandomnessStatus_short :
  Sdk.checkRandomnessStatus
      (Sample.client {[ 5 := mkAccountInfo (replicate 151 xff) 42 ]}) 5 []
    = (ok Initialized, [GetAccountInfo 5]).
Proof. vm_compute. reflexivity. Qed.

Example checkRandomnessStatus_revealed :
  Sdk.checkRandomnessStatus
      (Sample.client
         {[ 5 := mkAccountInfo (replicate 104 x00 ++ [x05] ++ replicate 46 x00
                                ++ [x01]) 42 ]}) 5 []
    = (ok Revealed, [GetAccountInfo 5]).
Proof. vm_compute. reflexivity. Qed.

(** With a non-zero winning slot the ticket at the derived address is
    reported. *)
Example getWinningTicket_reports :
  @Sdk.getWinningTicket Sample.web3
      (Sample.client
         {[ 5 := mkAccountInfo (Sample.pot_record x02) 42;
            Sample.winning_ticket_address := mkAccountInfo Sample.ticket_record 42 ]})
      5 []
    = (ok (Some (mkWithAddress (Types.mkTicket 7 3) Sample.winning_ticket_address)),
       [GetAccountInfo 5; GetAccountInfo Sample.winning_ticket_address]).
Proof. vm_compute. reflexivity. Qed.

(** The client does not check the end timestamp: a request for an end
    timestamp of 0 is built, signed and sent. *)
Example initPotManager_sends_past_timestamp :
  (@Sdk.initPotManager Sample.web3 (Sample.client ∅) (Js.str "daily") 2 0 3600 []).1
    = ok "signature"%string.
Proof. vm_compute. reflexivity. Qed.

Example initPotManager_needs_wallet :
  @Sdk.initPotManager Sample.web3 (Sdk.mkClient (Sample.node ∅) None Devnet)
      (Js.str "daily") 2 1300 3600 []
    = (throw (Error "Wallet not connected"), []).
Proof. vm_compute. reflexivity. Qed.

(** A second AdvanceRound at the same time finds the new current round
    still running and fails. *)
Example AdvanceRound_redundant :
  Program.AdvanceRound 1300 (1, "daily"%string) SampleLedger.l0
    = inr SampleLedger.l0_advanced /\
  Program.AdvanceRound 1300 (1, "daily"%string) SampleLedger.l0_advanced
    = inl Program.RoundNotEnded.
Proof. split; vm_compute; reflexivity. Qed.

(** Right after an AdvanceRound made as soon as the round ends, one pot is
    open, the one that has become current; after one made when the rounds
    of the pair have ended, and the new one too, none is. *)
Example AdvanceRound_open_pots :
  size (Program.open_pots 1300 (1, "daily"%string) SampleLedger.l0_advanced)
    = 1%nat /\
  Program.AdvanceRound 9000 (1, "daily"%string) SampleLedger.l0
    = inr SampleLedger.l0_advanced_late /\
  size (Program.open_pots 9000 (1, "daily"%string) SampleLedger.l0_advanced_late)
    = 0%nat.
Proof. repeat split; vm_compute; reflexivity. Qed.

(** Entering a pot that has ended fails and moves nothing. *)
Example Enter_after_end :
  Program.run (Program.Enter 10 1300 (1, "daily"%string, 1300) 7 20) SampleLedger.l0
    = (Some Program.RoundNotActive, SampleLedger.l0).
Proof. vm_compute. reflexivity. Qed.

(** * Further properties of the client code *)

(** ** Time: the countdown and the status *)

(** For every end timestamp within the 53 bits [toNumber] accepts and
    every time [now] with less than 2^53 seconds left to it (every time
    from 1970 on is one), [getTimeRemaining] returns the seconds left,
    never negative, split into days, hours below 24, minutes below 60 and
    seconds below 60 that add up to the total. *)
Theorem getTimeRemaining_decomposes (now : Z) (endTimestamp : BN.t) :
  Z.abs endTimestamp < 2 ^ 53 ->
  endTimestamp - now < 2 ^ 53 ->
  exists r : TimeRemaining,
    getTimeRemaining now endTimestamp = ok r /\
    total r = Z.max 0 (endTimestamp - now) /\
    total r = days r * 86400 + hours r * 3600 + minutes r * 60 + seconds r /\
    0 <= days r /\
    0 <= hours r < 24 /\
    0 <= minutes r < 60 /\
    0 <= seconds r < 60.
Proof.
  intros Hrange Hleft. unfold getTimeRemaining.
  rewrite (toNumber_in_range _ Hrange), bind_ok.
  eexists. split; [reflexivity|].
  cbn [total days hours minutes seconds].
  assert (Htotal : Z.max 0 (Number.sub endTimestamp now)
                   = Z.max 0 (endTimestamp - now)).
  { unfold Number.sub.
    destruct (Z.le_gt_cases 0 (endTimestamp - now)) as [Hpos|Hneg].
    - rewrite round_exact by lia. reflexivity.
    - pose proof (round_sign (endTimestamp - now)) as Hsign. lia. }
  rewrite Htotal.
  set (T := Z.max 0 (endTimestamp - now)).
  assert (HT : 0 <= T < 2 ^ 53) by (unfold T; lia).
  change (60 * 60 * 24) with 86400. change (60 * 60) with 3600.
  rewrite !Z.rem_mod_nonneg by lia.
  rewrite !floor_div_exact by (Z.div_mod_to_equations; lia).
  split; [reflexivity|].
  Z.div_mod_to_equations. lia.
Qed.

Lemma getTimeRemaining_decomposes_witness :
  exists r : TimeRemaining,
    getTimeRemaining 1000 (1000 + 93784) = ok r /\
    days r = 1 /\ hours r = 2 /\ minutes r = 3 /\ seconds r = 4.
Proof.
  destruct (getTimeRemaining_decomposes 1000 (1000 + 93784))
    as (r & Hrun & _); [simpl; lia | simpl; lia |].
  exists r. split; [exact Hrun|].
  vm_compute in Hrun. injection Hrun as <-. auto.
Defined.

(** Beyond 2^53 the difference is rounded: two seconds before 1970, with
    an end timestamp of 2^53 - 1, the total is 2^53 and not 2^53 + 1. *)
Example getTimeRemaining_rounds :
  exists r : TimeRemaining,
    getTimeRemaining (-2) (2 ^ 53 - 1) = ok r /\
    total r = 2 ^ 53 /\ seconds r = 32.
Proof. eexists. split; [vm_compute; reflexivity|]. split; reflexivity. Qed.

(** For a pot whose winning index fits 53 bits, [getPotStatus] answers
    Active exactly when [getTimeRemaining] of its end timestamp counts a
    positive number of seconds: the countdown and the badge agree. *)
Theorem countdown_agrees_with_status (now : Z) (pot : Pot) :
  Z.abs (winningSlot pot) < 2 ^ 53 ->
  getPotStatus now pot = ok Active <->
  exists r : TimeRemaining,
    getTimeRemaining now (endTimestamp pot) = ok r /\ 0 < total r.
Proof.
  intros Hw. unfold getPotStatus, getTimeRemaining.
  destruct (Z.lt_ge_cases (Z.abs (endTimestamp pot)) (2 ^ 53)) as [He|He].
  - rewrite (toNumber_in_range _ He), (toNumber_in_range _ Hw), !bind_ok.
    pose proof (round_sign (endTimestamp pot - now)) as Hsign.
    destruct (Z.ltb_spec now (endTimestamp pot)) as [Hlt|Hge].
    + split; [|reflexivity]. intros _. eexists. split; [reflexivity|].
      cbn [total]. unfold Number.sub. lia.
    + split.
      * destruct (0 <? winningSlot pot); [discriminate|].
        destruct (negb _); discriminate.
      * intros (r & [= <-] & Hpos). cbn [total] in Hpos.
        unfold Number.sub in Hpos. lia.
  - rewrite (toNumber_out_of_range _ He), !bind_throw.
    split; [discriminate|]. intros (r & Hr & _). discriminate Hr.
Qed.

Lemma countdown_agrees_with_status_witness :
  exists r : TimeRemaining,
    getTimeRemaining 100 200 = ok r /\ 0 < total r.
Proof.
  apply (countdown_agrees_with_status 100 (Types.mkPot 0 5 0 200 0 0)).
  - simpl. lia.
  - reflexivity.
Defined.

(** As time passes a pot never becomes Active again, and once its end
    timestamp has passed its status no longer depends on the time. *)
Theorem getPotStatus_never_reopens (now now' : Z) (pot : Pot) :
  now <= now' ->
  (getPotStatus now' pot = ok Active -> getPotStatus now pot = ok Active) /\
  (endTimestamp pot <= now -> getPotStatus now' pot = getPotStatus now pot).
Proof.
  intros Hlater. unfold getPotStatus, BN.toNumber.
  destruct (Z.abs (endTimestamp pot) <? 2 ^ 53); [|split; [discriminate | reflexivity]].
  destruct (Z.abs (winningSlot pot) <? 2 ^ 53); [|split; [discriminate | reflexivity]].
  rewrite !bind_ok.
  destruct (Z.ltb_spec now (endTimestamp pot)), (Z.ltb_spec now' (endTimestamp pot));
    try lia; split; intros; try reflexivity; try lia; try assumption.
Qed.

Lemma getPotStatus_never_reopens_witness :
  getPotStatus 500 (Types.mkPot 0 5 0 200 2 9)
    = getPotStatus 300 (Types.mkPot 0 5 0 200 2 9).
Proof.
  destruct (getPotStatus_never_reopens 300 500 (Types.mkPot 0 5 0 200 2 9))
    as [_ Hsame]; [lia|].
  apply Hsame. simpl. lia.
Defined.

(** ** The account readers: lengths, ranges and truncation *)

Lemma slice_app_within (data extra : list byte) (a b : nat) :
  (b <= length data)%nat ->
  Buffer.slice (data ++ extra) a b = Buffer.slice data a b.
Proof.
  intros Hb. unfold Buffer.slice.
  destruct (le_lt_dec a (length data)) as [Ha|Ha].
  - rewrite drop_app_le by exact Ha.
    apply take_app_le. rewrite length_drop. lia.
  - replace (b - a)%nat with 0%nat by lia. reflexivity.
Qed.

Lemma slice_beyond (data : list byte) (a b : nat) :
  (length data <= a)%nat -> Buffer.slice data a b = [].
Proof.
  intros Ha. unfold Buffer.slice. rewrite drop_ge by exact Ha. apply take_nil.
Qed.

Lemma readLE_slice_range (data : list byte) (a b : nat) :
  0 <= Buffer.readLE (Buffer.slice data a b) < 256 ^ Z.of_nat (b - a).
Proof.
  pose proof (readLE_range (Buffer.slice data a b)) as [Hlo Hhi].
  pose proof (length_slice data a b) as Hlen.
  split; [exact Hlo|].
  eapply Z.lt_le_trans; [exact Hhi|].
  apply Z.pow_le_mono_r; lia.
Qed.

Lemma readBE_slice_range (data : list byte) (a b : nat) :
  0 <= Buffer.readBE (Buffer.slice data a b) < 256 ^ Z.of_nat (b - a).
Proof.
  pose proof (readBE_range (Buffer.slice data a b)) as [Hlo Hhi].
  pose proof (length_slice data a b) as Hlen.
  split; [exact Hlo|].
  eapply Z.lt_le_trans; [exact Hhi|].
  apply Z.pow_le_mono_r; lia.
Qed.

(** Whatever bytes an account holds, the Pot read from it has its two keys
    within 256 bits and its four numbers within 64 bits, none negative. *)
Theorem parsePotAccount_ranges (data : list byte) (pot : Pot) :
  Sdk.parsePotAccount data = Some pot ->
  0 <= potManager pot < 2 ^ 256 /\
  0 <= totalParticipants pot < 2 ^ 64 /\
  0 <= startTimestamp pot < 2 ^ 64 /\
  0 <= endTimestamp pot < 2 ^ 64 /\
  0 <= winningSlot pot < 2 ^ 64 /\
  0 <= randomnessAccount pot < 2 ^ 256.
Proof.
  rewrite parsePotAccount_fields. intros [= <-]. cbn.
  pose proof (readBE_slice_range data 8 40).
  pose proof (readLE_slice_range data 40 48).
  pose proof (readLE_slice_range data 48 56).
  pose proof (readLE_slice_range data 56 64).
  pose proof (readLE_slice_range data 64 72).
  pose proof (readBE_slice_range data 72 104).
  change (256 ^ Z.of_nat (40 - 8)) with (2 ^ 256) in *.
  change (256 ^ Z.of_nat (104 - 72)) with (2 ^ 256) in *.
  change (256 ^ Z.of_nat (48 - 40)) with (2 ^ 64) in *.
  change (256 ^ Z.of_nat (56 - 48)) with (2 ^ 64) in *.
  change (256 ^ Z.of_nat (64 - 56)) with (2 ^ 64) in *.
  change (256 ^ Z.of_nat (72 - 64)) with (2 ^ 64) in *.
  auto 10.
Qed.

Lemma parsePotAccount_ranges_witness :
  0 <= winningSlot (Types.mkPot 9 5 16 32 2 4) < 2 ^ 64.
Proof.
  destruct (parsePotAccount_ranges (Sample.pot_record x02)
              (Types.mkPot 9 5 16 32 2 4)) as (_ & _ & _ & _ & Hw & _).
  - reflexivity.
  - exact Hw.
Defined.

(** Bytes after the last field change nothing: a Pot record of at least
    104 bytes and a Ticket record of at least 48 bytes are read the same
    with anything appended. *)
Theorem parsers_ignore_trailing_bytes (data extra : list byte) :
  ((104 <= length data)%nat ->
     Sdk.parsePotAccount (data ++ extra) = Sdk.parsePotAccount data) /\
  ((48 <= length data)%nat ->
     Sdk.parseTicketAccount (data ++ extra) = Sdk.parseTicketAccount data).
Proof.
  split; intros Hlen.
  - rewrite !parsePotAccount_fields.
    rewrite !(slice_app_within data extra) by lia. reflexivity.
  - rewrite !parseTicketAccount_fields.
    rewrite !(slice_app_within data extra) by lia. reflexivity.
Qed.

Lemma parsers_ignore_trailing_bytes_witness :
  Sdk.parsePotAccount (Sample.pot_record x02 ++ [xff; xff; xff])
    = Sdk.parsePotAccount (Sample.pot_record x02).
Proof.
  apply (parsers_ignore_trailing_bytes (Sample.pot_record x02) [xff; xff; xff]).
  vm_compute. lia.
Defined.

(** An account whose data stops before the end timestamp (at most 56
    bytes, the empty account included) is still read as a Pot: its end
    timestamp, winning slot and randomness key are zero, and at any time
    from 0 on it is shown as Closed. *)
Theorem truncated_pot_is_closed (now : Z) (data : list byte) :
  (length data <= 56)%nat ->
  0 <= now ->
  exists pot : Pot,
    Sdk.parsePotAccount data = Some pot /\
    endTimestamp pot = 0 /\
    winningSlot pot = 0 /\
    randomnessAccount pot = PublicKey.default /\
    getPotStatus now pot = ok Closed.
Proof.
  intros Hlen Hnow. rewrite parsePotAccount_fields.
  eexists. split; [reflexivity|]. cbn [endTimestamp winningSlot randomnessAccount].
  rewrite !slice_beyond by lia.
  split; [reflexivity|]. split; [reflexivity|]. split; [reflexivity|].
  unfold getPotStatus. cbn [endTimestamp winningSlot randomnessAccount].
  change (Buffer.readLE []) with 0. change (Buffer.readBE []) with 0.
  rewrite !toNumber_in_range, !bind_ok by (simpl; lia).
  destruct (Z.ltb_spec now 0); [lia | reflexivity].
Qed.

Lemma truncated_pot_is_closed_witness :
  exists pot : Pot,
    Sdk.parsePotAccount [] = Some pot /\ getPotStatus 1700000000 pot = ok Closed.
Proof.
  destruct (truncated_pot_is_closed 1700000000 []) as (pot & Hp & _ & _ & _ & Hs);
    [simpl; lia | lia |].
  exists pot. split; assumption.
Defined.

(** [parsePotManagerAccount] returns null exactly for data shorter than
    141 bytes, the end of the name's length prefix. For longer data the
    timestamp pair is read at offsets 120 and 128, the bump at 136, and
    the name is the UTF-8 reading (invalid bytes as U+FFFD) of as many of
    the bytes after offset 141 as the prefix announces and the data holds:
    a length beyond the data is no error. *)
Theorem parsePotManagerAccount_null_iff (data : list byte) :
  (Sdk.parsePotManagerAccount data = None <-> (length data < 141)%nat) /\
  (forall manager : PotManager,
      Sdk.parsePotManagerAccount data = Some manager ->
      timestamps manager
        = (Buffer.readLE (Buffer.slice data 120 128),
           Buffer.readLE (Buffer.slice data 128 136)) /\
      bump manager = data !! 136%nat /\
      name manager
        = Buffer.toString_utf8
            (take (Z.to_nat (Buffer.readLE (Buffer.slice data 137 141)))
                  (drop 141 data))).
Proof.
  unfold Sdk.parsePotManagerAccount. cbv zeta. cbn [Nat.add].
  rewrite (PublicKey_new_slice data 8 40), bind_ok by (simpl; lia).
  rewrite (PublicKey_new_slice data 40 72), bind_ok by (simpl; lia).
  rewrite (PublicKey_new_slice data 72 104), bind_ok by (simpl; lia).
  unfold Buffer.readUInt32LE.
  destruct (decide (137 + 4 <= length data)%nat) as [Hlen|Hlen].
  - rewrite bind_ok. cbn [Nat.add try_or_null ok].
    split; [split; [discriminate | lia]|].
    intros manager [= <-]. cbn [timestamps bump name].
    split; [reflexivity|]. split; [reflexivity|].
    unfold Buffer.slice. do 2 f_equal.
    generalize (Z.to_nat (Buffer.readLE (take (141 - 137) (drop 137 data)))).
    intros n. lia.
  - rewrite bind_throw. cbn [try_or_null throw].
    split; [split; [lia | reflexivity] | discriminate].
Qed.

Lemma parsePotManagerAccount_null_iff_witness :
  Sdk.parsePotManagerAccount (replicate 140 xff) = None.
Proof.
  destruct (parsePotManagerAccount_null_iff (replicate 140 xff)) as [[_ Hnull] _].
  apply Hnull. rewrite length_replicate. lia.
Defined.

(** ** The string encoding is self-delimiting *)

Lemma writeLE_inj (n : nat) (x y : Z) :
  0 <= x < 256 ^ Z.of_nat n -> 0 <= y < 256 ^ Z.of_nat n ->
  Buffer.writeLE n x = Buffer.writeLE n y -> x = y.
Proof.
  intros Hx Hy Heq.
  rewrite <- (readLE_writeLE n x Hx), <- (readLE_writeLE n y Hy), Heq.
  reflexivity.
Qed.

(** Two well-formed strings whose encodings, each followed by arbitrary
    bytes, give the same byte sequence are the same string, followed by
    the same bytes: the reader of an encoded string never needs to know
    where it ends. In particular [encodeString] is injective on well-formed
    strings. *)
Theorem encodeString_self_delimiting (a b : String16) (ea eb x y : list byte) :
  Buffer.isWellFormed a = true ->
  Buffer.isWellFormed b = true ->
  Sdk.encodeString a = ok ea ->
  Sdk.encodeString b = ok eb ->
  ea ++ x = eb ++ y ->
  a = b /\ x = y.
Proof.
  intros Hwa Hwb.
  unfold Sdk.encodeString, Buffer.writeUInt32LE. cbv zeta.
  destruct (decide (0 <= Z.of_nat (length (Buffer.from_utf8 a)) < 2 ^ 32))
    as [Ha|]; [|discriminate].
  destruct (decide (0 <= Z.of_nat (length (Buffer.from_utf8 b)) < 2 ^ 32))
    as [Hb|]; [|discriminate].
  rewrite !bind_ok. intros Hea Heb Heq.
  assert (ea = Buffer.writeLE 4 (Z.of_nat (length (Buffer.from_utf8 a)))
               ++ Buffer.from_utf8 a)
    as -> by (unfold ok in Hea; congruence).
  assert (eb = Buffer.writeLE 4 (Z.of_nat (length (Buffer.from_utf8 b)))
               ++ Buffer.from_utf8 b)
    as -> by (unfold ok in Heb; congruence).
  clear Hea Heb.
  rewrite <- !app_assoc in Heq.
  apply app_inj_1 in Heq as [Hlen Hrest];
    [|rewrite !length_writeLE; reflexivity].
  apply writeLE_inj in Hlen;
    [|change (256 ^ Z.of_nat 4) with (2 ^ 32); lia..].
  apply Nat2Z.inj in Hlen.
  apply app_inj_1 in Hrest as [Hbytes Htail]; [|exact Hlen].
  split; [apply from_utf8_inj; assumption | exact Htail].
Qed.

Lemma encodeString_self_delimiting_witness :
  Js.str "daily" = Js.str "daily" /\ [x01; x02] = [x01; x02].
Proof.
  apply (encodeString_self_delimiting (Js.str "daily") (Js.str "daily")
           [x05; x00; x00; x00; x64; x61; x69; x6c; x79]
           [x05; x00; x00; x00; x64; x61; x69; x6c; x79]
           [x01; x02] [x01; x02]); reflexivity.
Defined.

(** Without well-formedness the encoding is not injective: a high
    surrogate on its own and U+FFFD are written as the same bytes. *)
Example encodeString_not_injective :
  Sdk.encodeString [(xd8, x00)] = Sdk.encodeString [(xff, xfd)].
Proof. reflexivity. Qed.

(** ** The wallet *)

(** Without a connected wallet none of the five instruction calls makes a
    request: each throws "Wallet not connected" and leaves the request log
    as it was. *)
Theorem instructions_need_wallet `{Web3}
    (self : Sdk.OpenLottoClient) (log : list Rpc) :
  Sdk.publicKey self = None ->
  (forall (managerName : String16) (mint : PublicKey.t) (endTimestamp potDuration : BN.t),
      Sdk.initPotManager self managerName mint endTimestamp potDuration log
        = (throw (Error "Wallet not connected"), log)) /\
  (forall pot randomnessAccount : PublicKey.t,
      Sdk.drawLottery self pot randomnessAccount log
        = (throw (Error "Wallet not connected"), log)) /\
  (forall pot randomnessAccount : PublicKey.t,
      Sdk.settleLottery self pot randomnessAccount log
        = (throw (Error "Wallet not connected"), log)) /\
  (forall (pot : PublicKey.t) (potTotalParticipants : BN.t) (mint : PublicKey.t),
      Sdk.enterTicket self pot potTotalParticipants mint log
        = (throw (Error "Wallet not connected"), log)) /\
  (forall ticket winner pot mint : PublicKey.t,
      Sdk.claimPrize self ticket winner pot mint log
        = (throw (Error "Wallet not connected"), log)).
Proof.
  intros Hnone.
  unfold Sdk.initPotManager, Sdk.drawLottery, Sdk.settleLottery,
    Sdk.enterTicket, Sdk.claimPrize.
  rewrite Hnone. repeat split.
Qed.

Lemma instructions_need_wallet_witness :
  @Sdk.settleLottery Sample.web3 (Sdk.mkClient (Sample.node ∅) None Devnet) 5 6 []
    = (throw (Error "Wallet not connected"), []).
Proof.
  destruct (@instructions_need_wallet Sample.web3
              (Sdk.mkClient (Sample.node ∅) None Devnet) [])
    as (_ & _ & Hsettle & _); [reflexivity|].
  apply Hsettle.
Defined.

Lemma throws_unsent_throw {A} (err : exn) :
  throws_unsent (lift (throw err) : Client A).
Proof. intros log. split; [exists err; reflexivity | auto]. Qed.

Lemma throws_unsent_lift {A B} (m : result A) (k : A -> Client B) :
  (forall a : A, throws_unsent (k a)) -> throws_unsent (lift m ≫= k).
Proof.
  intros Hk log. rewrite run_lift. destruct m as [err|a].
  - split; [exists err; reflexivity | auto].
  - apply Hk.
Qed.

Lemma throws_unsent_request {A B} (r : Rpc) (answer : result A)
    (k : A -> Client B) :
  (forall tx : Transaction, r <> SendRawTransaction tx) ->
  (forall a : A, throws_unsent (k a)) ->
  throws_unsent (request r answer ≫= k).
Proof.
  intros Hr Hk log. rewrite run_request.
  assert (Hlog : forall tx : Transaction,
             SendRawTransaction tx ∈ log ++ [r] -> SendRawTransaction tx ∈ log).
  { intros tx Hin. apply elem_of_app in Hin as [Hin|Hin]; [exact Hin|].
    apply list_elem_of_singleton in Hin. exfalso. exact (Hr tx (eq_sym Hin)). }
  destruct answer as [err|a].
  - split; [exists err; reflexivity | exact Hlog].
  - destruct (Hk a (log ++ [r])) as [Hthrow Hsent].
    split; [exact Hthrow | auto].
Qed.

Lemma sendTransaction_declined (self : Sdk.OpenLottoClient) (w : WalletAdapter)
    (refusal : exn) (ixs : list TransactionInstruction) :
  Sdk.wallet self = Some w ->
  (forall tx : Transaction, signTransaction w tx = throw refusal) ->
  throws_unsent (Sdk.sendTransaction self ixs).
Proof.
  intros Hw Hsign. unfold Sdk.sendTransaction. rewrite Hw.
  destruct (Sdk.publicKey self) as [payer|]; [|apply throws_unsent_throw].
  apply throws_unsent_request; [discriminate|]. intros latest.
  rewrite Hsign.
  intros log. rewrite run_request. split; [exists refusal; reflexivity|].
  intros tx Hin. apply elem_of_app in Hin as [Hin|Hin]; [exact Hin|].
  apply list_elem_of_singleton in Hin. discriminate Hin.
Qed.

(** When the wallet declines to sign, none of the five instruction calls
    sends anything to the node: the call throws, and the request log gains
    no [SendRawTransaction]. *)
Theorem declined_signature_sends_nothing `{Web3}
    (self : Sdk.OpenLottoClient) (w : WalletAdapter) (refusal : exn) :
  Sdk.wallet self = Some w ->
  (forall tx : Transaction, signTransaction w tx = throw refusal) ->
  (forall (managerName : String16) (mint : PublicKey.t) (endTimestamp potDuration : BN.t),
      throws_unsent
        (Sdk.initPotManager self managerName mint endTimestamp potDuration)) /\
  (forall pot randomnessAccount : PublicKey.t,
      throws_unsent (Sdk.drawLottery self pot randomnessAccount)) /\
  (forall pot randomnessAccount : PublicKey.t,
      throws_unsent (Sdk.settleLottery self pot randomnessAccount)) /\
  (forall (pot : PublicKey.t) (potTotalParticipants : BN.t) (mint : PublicKey.t),
      throws_unsent (Sdk.enterTicket self pot potTotalParticipants mint)) /\
  (forall ticket winner pot mint : PublicKey.t,
      throws_unsent (Sdk.claimPrize self ticket winner pot mint)).
Proof.
  intros Hw Hsign.
  pose proof (fun ixs => sendTransaction_declined self w refusal ixs Hw Hsign)
    as Hsend.
  unfold Sdk.initPotManager, Sdk.drawLottery, Sdk.settleLottery,
    Sdk.enterTicket, Sdk.claimPrize.
  destruct (Sdk.publicKey self) as [key|];
    [|split; [|split; [|split; [|split]]]; intros; apply throws_unsent_throw].
  split; [|split; [|split; [|split]]]; intros;
    repeat first
      [ apply Hsend
      | apply throws_unsent_lift; intros ?
      | apply throws_unsent_request; [discriminate | intros ?] ].
Qed.

Lemma declined_signature_sends_nothing_witness :
  throws_unsent
    (@Sdk.enterTicket Sample.web3
       (Sdk.mkClient (Sample.node ∅)
          (Some (mkWallet (Some 77) (fun _ => throw (Error "User rejected"))))
          Devnet)
       5 1 2).
Proof.
  destruct (@declined_signature_sends_nothing Sample.web3
              (Sdk.mkClient (Sample.node ∅)
                 (Some (mkWallet (Some 77) (fun _ => throw (Error "User rejected"))))
                 Devnet)
              (mkWallet (Some 77) (fun _ => throw (Error "User rejected")))
              (Error "User rejected"))
    as (_ & _ & _ & Henter & _); [reflexivity | reflexivity |].
  apply Henter.
Defined.

(** ** Numbers that do not fit their 8 bytes *)

Lemma toArrayLike_le_too_long (x : Z) (len : nat) :
  256 ^ Z.of_nat len <= Z.abs x ->
  BN.toArrayLike_le x len
    = throw (AssertionError "byte array longer than desired length").
Proof.
  intros Hx. unfold BN.toArrayLike_le.
  destruct (Z.ltb_spec (Z.abs x) (256 ^ Z.of_nat len)); [lia | reflexivity].
Qed.

Lemma throws_at_once_throw {A} (err : exn) :
  throws_at_once (lift (throw err) : Client A).
Proof. intros log. exists err. reflexivity. Qed.

Lemma throws_at_once_lift {A B} (m : result A) (k : A -> Client B) :
  (forall a : A, m = ok a -> throws_at_once (k a)) ->
  throws_at_once (lift m ≫= k).
Proof.
  intros Hk log. rewrite run_lift. destruct m as [err|a].
  - exists err. reflexivity.
  - apply Hk. reflexivity.
Qed.

(** An end timestamp, a duration or a sum of the two of 2^64 or more makes
    [initPotManager] throw before any request, and so does a participant
    count of 2^64 or more for [enterTicket]: the request log is left as it
    was and nothing reaches the wallet or the node. *)
Theorem oversized_numbers_throw_at_once `{Web3} (self : Sdk.OpenLottoClient) :
  (forall (managerName : String16) (mint : PublicKey.t) (endTimestamp potDuration : BN.t),
      2 ^ 64 <= Z.abs endTimestamp \/
      2 ^ 64 <= Z.abs potDuration \/
      2 ^ 64 <= Z.abs (endTimestamp + potDuration) ->
      throws_at_once
        (Sdk.initPotManager self managerName mint endTimestamp potDuration)) /\
  (forall (pot : PublicKey.t) (potTotalParticipants : BN.t) (mint : PublicKey.t),
      2 ^ 64 <= Z.abs potTotalParticipants ->
      throws_at_once (Sdk.enterTicket self pot potTotalParticipants mint)).
Proof.
  split.
  - intros managerName mint endTimestamp potDuration Hbig.
    unfold Sdk.initPotManager.
    destruct (Sdk.publicKey self) as [authority|]; [|apply throws_at_once_throw].
    do 3 (apply throws_at_once_lift; intros ? _).
    apply throws_at_once_lift. intros firstPot Hfirst.
    apply throws_at_once_lift. intros nextPot Hnext.
    apply throws_at_once_lift. intros endBytes _.
    apply throws_at_once_lift. intros durationBytes Hduration.
    exfalso.
    unfold Utils.derivePotPDA, BN.add in Hfirst, Hnext.
    destruct Hbig as [Hbig|[Hbig|Hbig]].
    + rewrite toArrayLike_le_too_long in Hfirst by exact Hbig. discriminate Hfirst.
    + rewrite toArrayLike_le_too_long in Hduration by exact Hbig.
      discriminate Hduration.
    + rewrite toArrayLike_le_too_long in Hnext by exact Hbig. discriminate Hnext.
  - intros pot potTotalParticipants mint Hbig. unfold Sdk.enterTicket.
    destruct (Sdk.publicKey self) as [user|]; [|apply throws_at_once_throw].
    apply throws_at_once_lift. intros ticket Hticket. exfalso.
    unfold Utils.deriveTicketPDA in Hticket.
    rewrite toArrayLike_le_too_long in Hticket by exact Hbig. discriminate Hticket.
Qed.

Lemma oversized_numbers_throw_at_once_witness :
  throws_at_once
    (@Sdk.initPotManager Sample.web3 (Sample.client ∅) (Js.str "daily") 2 (2 ^ 64 - 1) 1).
Proof.
  destruct (@oversized_numbers_throw_at_once Sample.web3 (Sample.client ∅))
    as [Hinit _].
  apply Hinit. right. right. vm_compute. discriminate.
Defined.

(** ** What is signed *)

Ltac sent_by_wallet Hrun Hkey :=
  let Hpayer := fresh "Hpayer" in
  apply sendTransaction_inv in Hrun
    as (payer & blockhash & signed & Hpayer & _ & _ & ->);
  rewrite Hkey in Hpayer; injection Hpayer as <-;
  eexists _, _;
  split; [rewrite elem_of_app; right;
          apply list_elem_of_further, list_elem_of_here|];
  split; [reflexivity|].

(** In every call that went through, the wallet's key pays for the
    transaction, and the lottery instruction is addressed to the program.
    The wallet's key is the only account [initPotManager], [drawLottery],
    [settleLottery] and [enterTicket] mark as a signer; [claimPrize] marks
    none, the winner included. *)
Theorem wallet_is_the_only_signer `{Web3} (self : Sdk.OpenLottoClient)
    (key : PublicKey.t) (log log' : list Rpc) (sig : string) :
  Sdk.publicKey self = Some key ->
  (forall (managerName : String16) (mint : PublicKey.t) (endTimestamp potDuration : BN.t),
      Sdk.initPotManager self managerName mint endTimestamp potDuration log
        = (ok sig, log') ->
      asked_to_sign key log' [key]) /\
  (forall pot randomnessAccount : PublicKey.t,
      Sdk.drawLottery self pot randomnessAccount log = (ok sig, log') ->
      asked_to_sign key log' [key]) /\
  (forall pot randomnessAccount : PublicKey.t,
      Sdk.settleLottery self pot randomnessAccount log = (ok sig, log') ->
      asked_to_sign key log' [key]) /\
  (forall (pot : PublicKey.t) (potTotalParticipants : BN.t) (mint : PublicKey.t),
      Sdk.enterTicket self pot potTotalParticipants mint log = (ok sig, log') ->
      asked_to_sign key log' [key]) /\
  (forall ticket winner pot mint : PublicKey.t,
      Sdk.claimPrize self ticket winner pot mint log = (ok sig, log') ->
      asked_to_sign key log' []).
Proof.
  intros Hkey.
  unfold Sdk.initPotManager, Sdk.drawLottery, Sdk.settleLottery,
    Sdk.enterTicket, Sdk.claimPrize, asked_to_sign.
  rewrite Hkey.
  split; [|split; [|split; [|split]]].
  - intros managerName mint endTimestamp potDuration Hrun.
    do 8 client_step Hrun. sent_by_wallet Hrun Hkey.
    repeat split.
  - intros pot randomnessAccount Hrun.
    do 1 client_step Hrun. sent_by_wallet Hrun Hkey.
    repeat split.
  - intros pot randomnessAccount Hrun.
    sent_by_wallet Hrun Hkey.
    repeat split.
  - intros pot potTotalParticipants mint Hrun.
    do 5 client_step Hrun. sent_by_wallet Hrun Hkey.
    cbn [instructions]. rewrite last_snoc.
    repeat split.
  - intros ticket winner pot mint Hrun.
    do 2 client_step Hrun. sent_by_wallet Hrun Hkey.
    repeat split.
Qed.

Lemma wallet_is_the_only_signer_witness :
  asked_to_sign 77
    [GetLatestBlockhash;
     SignTransaction
       (mkTransaction "blockhash" 77
          [mkInstruction PROGRAM_ID
             [mkMeta 5 false true; mkMeta 6 false false; mkMeta 77 true false]
             (@Sdk.getDiscriminator Sample.web3 "settle_lottery")]);
     SendRawTransaction
       (mkTransaction "blockhash" 77
          [mkInstruction PROGRAM_ID
             [mkMeta 5 false true; mkMeta 6 false false; mkMeta 77 true false]
             (@Sdk.getDiscriminator Sample.web3 "settle_lottery")]);
     ConfirmTransaction "signature"]
    [77].
Proof.
  destruct (@wallet_is_the_only_signer Sample.web3 (Sample.client ∅) 77 []
              [GetLatestBlockhash;
               SignTransaction
                 (mkTransaction "blockhash" 77
                    [mkInstruction PROGRAM_ID
                       [mkMeta 5 false true; mkMeta 6 false false;
                        mkMeta 77 true false]
                       (@Sdk.getDiscriminator Sample.web3 "settle_lottery")]);
               SendRawTransaction
                 (mkTransaction "blockhash" 77
                    [mkInstruction PROGRAM_ID
                       [mkMeta 5 false true; mkMeta 6 false false;
                        mkMeta 77 true false]
                       (@Sdk.getDiscriminator Sample.web3 "settle_lottery")]);
               ConfirmTransaction "signature"]
              "signature")
    as (_ & _ & Hsettle & _); [reflexivity|].
  apply (Hsettle 5 6). vm_compute. reflexivity.
Defined.

(** ** The token account of a participant *)

(** A call of [enterTicket] that went through asked the node once whether
    the participant's associated token account exists, and put the
    instruction that creates it in front of the lottery instruction exactly
    when the node answered that it does not. The participant's key comes
    first among the accounts, as signer, and pays for the creation. *)
Theorem enterTicket_creates_missing_token_account `{Web3}
    (self : Sdk.OpenLottoClient) (pot : PublicKey.t)
    (potTotalParticipants : BN.t) (mint : PublicKey.t)
    (log log' : list Rpc) (sig : string) :
  Sdk.enterTicket self pot potTotalParticipants mint log = (ok sig, log') ->
  exists (user ata : PublicKey.t) (found : option AccountInfo)
         (tx signed : Transaction) (ix : TransactionInstruction),
    Sdk.publicKey self = Some user /\
    getAssociatedTokenAddress mint user = ok ata /\
    getAccountInfo (Sdk.connection self) ata = ok found /\
    log' = log ++ [GetAccountInfo ata; GetLatestBlockhash; SignTransaction tx;
                   SendRawTransaction signed; ConfirmTransaction sig] /\
    instructions tx =
      match found with
      | None => [createAssociatedTokenAccountInstruction user ata user mint; ix]
      | Some _ => [ix]
      end /\
    data ix = Sdk.getDiscriminator "enter_ticket" /\
    keys ix !! 0%nat = Some (mkMeta user true true) /\
    keys ix !! 3%nat = Some (mkMeta ata false true).
Proof.
  unfold Sdk.enterTicket. intros Hrun.
  destruct (Sdk.publicKey self) as [user|] eqn:Hkey; [|discriminate].
  do 3 client_step Hrun.
  rewrite run_lift in Hrun.
  destruct (getAssociatedTokenAddress mint user) as [?|ata] eqn:Hata;
    [discriminate|].
  rewrite run_request in Hrun.
  destruct (getAccountInfo (Sdk.connection self) ata) as [?|found] eqn:Hfound;
    [discriminate|].
  apply sendTransaction_inv in Hrun
    as (payer & blockhash & signed & _ & _ & _ & ->).
  eexists user, ata, found, _, signed, _.
  split; [reflexivity|]. split; [exact Hata|]. split; [exact Hfound|].
  split; [rewrite <- app_assoc; reflexivity|].
  split; [destruct found; reflexivity|].
  repeat split.
Qed.

Lemma enterTicket_creates_missing_token_account_witness :
  exists (tx : Transaction) (ix : TransactionInstruction),
    SignTransaction tx
      ∈ (@Sdk.enterTicket Sample.web3 (Sample.client ∅) 5 1 2 []).2 /\
    instructions tx =
      [@createAssociatedTokenAccountInstruction Sample.web3 77 79 77 2; ix].
Proof.
  destruct (@enterTicket_creates_missing_token_account Sample.web3
              (Sample.client ∅) 5 1 2 []
              (@Sdk.enterTicket Sample.web3 (Sample.client ∅) 5 1 2 []).2
              "signature")
    as (user & ata & found & tx & signed & ix
        & Hkey & Hata & Hfound & Hlog & Hixs & _).
  { vm_compute. reflexivity. }
  injection Hkey as <-. injection Hata as <-. injection Hfound as <-.
  exists tx, ix. split; [|exact Hixs].
  rewrite Hlog. apply list_elem_of_further, list_elem_of_further, list_elem_of_here.
Defined.

(** ** What the instruction data carry *)

Lemma toArrayLike_le_ok (x : Z) (len : nat) (bytes : list byte) :
  BN.toArrayLike_le x len = ok bytes ->
  bytes = Buffer.writeLE len (Z.abs x) /\ Z.abs x < 256 ^ Z.of_nat len.
Proof.
  unfold BN.toArrayLike_le.
  destruct (Z.ltb_spec (Z.abs x) (256 ^ Z.of_nat len)); [|discriminate].
  intros [= <-]. auto.
Qed.

Lemma length_getDiscriminator `{Web3} (name : string) :
  (8 <= length (sha256_array ("global:" +:+ name)))%nat ->
  length (Sdk.getDiscriminator name) = 8%nat.
Proof. intros Hhash. unfold Sdk.getDiscriminator. rewrite length_take. lia. Qed.

Lemma slice_at (prefix seg suffix : list byte) (a b : nat) :
  length prefix = a -> (a + length seg)%nat = b ->
  Buffer.slice (prefix ++ seg ++ suffix) a b = seg.
Proof.
  intros <- <-. unfold Buffer.slice.
  rewrite drop_app_length.
  replace (length prefix + length seg - length prefix)%nat with (length seg) by lia.
  apply take_app_length.
Qed.

(** The data of the instruction a successful [initPotManager] had signed
    decode back to its arguments: after the 8 bytes of the discriminator
    (the hash function returning at least 8 bytes) come the end timestamp
    and the duration, 8 bytes each, little-endian, as their absolute
    values, which are below 2^64; then the number of UTF-8 bytes of the
    name on 4 bytes and those bytes, and nothing else. The bytes read back
    as the name when the name is well-formed. *)
Theorem initPotManager_data_decodes `{Web3} (self : Sdk.OpenLottoClient)
    (managerName : String16) (mint : PublicKey.t) (endTimestamp potDuration : BN.t)
    (log log' : list Rpc) (sig : string) :
  (8 <= length (sha256_array "global:init_pot_manager"))%nat ->
  Sdk.initPotManager self managerName mint endTimestamp potDuration log
    = (ok sig, log') ->
  exists (tx : Transaction) (ix : TransactionInstruction),
    SignTransaction tx ∈ log' /\
    instructions tx = [ix] /\
    BN.of_le (Buffer.slice (data ix) 8 16) = Z.abs endTimestamp /\
    BN.of_le (Buffer.slice (data ix) 16 24) = Z.abs potDuration /\
    Z.abs endTimestamp < 2 ^ 64 /\
    Z.abs potDuration < 2 ^ 64 /\
    Buffer.readUInt32LE (data ix) 24
      = ok (Z.of_nat (length (Buffer.from_utf8 managerName))) /\
    Buffer.slice (data ix) 28 (28 + length (Buffer.from_utf8 managerName))
      = Buffer.from_utf8 managerName /\
    length (data ix) = (28 + length (Buffer.from_utf8 managerName))%nat /\
    (Buffer.isWellFormed managerName = true ->
     Buffer.toString_utf8
         (Buffer.slice (data ix) 28 (28 + length (Buffer.from_utf8 managerName)))
       = managerName).
Proof.
  intros Hhash Hrun.
  apply initPotManager_inv in Hrun
    as (authority & potManager & firstPot & nextPot & endBytes & durationBytes
        & nameBytes & tx & ix & _ & _ & _ & _ & Hend & Hduration & Hname & _
        & Hsigned & Hixs & _ & _ & _ & Hdata).
  apply toArrayLike_le_ok in Hend as [-> Hend].
  apply toArrayLike_le_ok in Hduration as [-> Hduration].
  pose proof (length_getDiscriminator "init_pot_manager" Hhash) as Hdisc.
  assert (Hlen : Z.of_nat (length (Buffer.from_utf8 managerName)) < 2 ^ 32).
  { unfold Sdk.encodeString, Buffer.writeUInt32LE in Hname. cbv zeta in Hname.
    destruct (decide _) as [Hfits|Hbig] in Hname; [lia | discriminate Hname]. }
  rewrite (encodeString_ok managerName) in Hname by exact Hlen.
  assert (nameBytes
          = Buffer.writeLE 4 (Z.of_nat (length (Buffer.from_utf8 managerName)))
            ++ Buffer.from_utf8 managerName) as ->
    by (unfold ok in Hname; congruence).
  exists tx, ix. split; [exact Hsigned|]. split; [exact Hixs|].
  rewrite Hdata. clear Hdata Hsigned Hixs.
  set (disc := Sdk.getDiscriminator "init_pot_manager") in *.
  set (s := Buffer.from_utf8 managerName) in *.
  set (e := Buffer.writeLE 8 (Z.abs endTimestamp)).
  set (d := Buffer.writeLE 8 (Z.abs potDuration)).
  set (n := Buffer.writeLE 4 (Z.of_nat (length s))).
  assert (He : length e = 8%nat) by apply length_writeLE.
  assert (Hd : length d = 8%nat) by apply length_writeLE.
  assert (Hn : length n = 4%nat) by apply length_writeLE.
  change (256 ^ Z.of_nat 8) with (2 ^ 64) in Hend, Hduration.
  assert (Hslice : Buffer.slice (disc ++ e ++ d ++ n ++ s) 28 (28 + length s) = s).
  { replace (disc ++ e ++ d ++ n ++ s) with ((disc ++ e ++ d ++ n) ++ s ++ [])
      by (rewrite app_nil_r, <- !app_assoc; reflexivity).
    apply slice_at; rewrite ?length_app; lia. }
  split.
  { rewrite (slice_at disc e) by lia. unfold BN.of_le, e.
    apply readLE_writeLE.
    change (256 ^ Z.of_nat 8) with (2 ^ 64). lia. }
  split.
  { rewrite (app_assoc disc e).
    rewrite (slice_at (disc ++ e) d) by (rewrite ?length_app; lia).
    unfold BN.of_le, d. apply readLE_writeLE.
    change (256 ^ Z.of_nat 8) with (2 ^ 64). lia. }
  split; [exact Hend|]. split; [exact Hduration|].
  split.
  { unfold Buffer.readUInt32LE.
    destruct (decide _) as [_|Hshort];
      [|exfalso; rewrite !length_app in Hshort; lia].
    f_equal. change (24 + 4)%nat with 28%nat.
    replace (disc ++ e ++ d ++ n ++ s) with ((disc ++ e ++ d) ++ n ++ s)
      by (rewrite <- !app_assoc; reflexivity).
    rewrite (slice_at (disc ++ e ++ d) n) by (rewrite ?length_app; lia).
    unfold n. apply readLE_writeLE.
    change (256 ^ Z.of_nat 4) with (2 ^ 32). lia. }
  split; [exact Hslice|].
  split; [rewrite !length_app; lia|].
  intros Hwf. rewrite Hslice. apply toString_from_utf8. exact Hwf.
Qed.

Lemma initPotManager_data_decodes_witness :
  exists (tx : Transaction) (ix : TransactionInstruction),
    SignTransaction tx
      ∈ (@Sdk.initPotManager Sample.web3 (Sample.client ∅) (Js.str "daily")
           2 1300 3600 []).2 /\
    instructions tx = [ix] /\
    BN.of_le (Buffer.slice (data ix) 8 16) = 1300 /\
    BN.of_le (Buffer.slice (data ix) 16 24) = 3600 /\
    Buffer.toString_utf8 (Buffer.slice (data ix) 28 33) = Js.str "daily".
Proof.
  destruct (@initPotManager_data_decodes Sample.web3 (Sample.client ∅)
              (Js.str "daily") 2 1300 3600 []
              (@Sdk.initPotManager Sample.web3 (Sample.client ∅)
                 (Js.str "daily") 2 1300 3600 []).2
              "signature")
    as (tx & ix & Hsigned & Hixs & Hend & Hduration & _ & _ & _ & _ & _ & Hname).
  { vm_compute. lia. }
  { vm_compute. reflexivity. }
  exists tx, ix.
  split; [exact Hsigned|]. split; [exact Hixs|].
  split; [exact Hend|]. split; [exact Hduration|].
  apply Hname. reflexivity.
Defined.

Lemma PublicKey_new_toBuffer (k : PublicKey.t) :
  0 <= k < 2 ^ 256 -> PublicKey.new (PublicKey.toBuffer k) = ok k.
Proof.
  intros Hk. unfold PublicKey.toBuffer.
  pose proof (PublicKey_new_short (rev (Buffer.writeLE 32 k))) as Hnew.
  rewrite length_rev, length_writeLE in Hnew.
  rewrite Hnew by lia. f_equal.
  unfold Buffer.readBE. rewrite rev_involutive.
  apply readLE_writeLE. change (256 ^ Z.of_nat 32) with (2 ^ 256). lia.
Qed.

(** The data of the instruction a successful [drawLottery] had signed are
    40 bytes, and bytes 8 to 39 read back as the randomness account the
    caller named (a key of 32 bytes, the hash function returning at least
    8). *)
Theorem drawLottery_data_decodes `{Web3} (self : Sdk.OpenLottoClient)
    (pot randomnessAccount : PublicKey.t) (log log' : list Rpc) (sig : string) :
  (8 <= length (sha256_array "global:draw_lottery"))%nat ->
  0 <= randomnessAccount < 2 ^ 256 ->
  Sdk.drawLottery self pot randomnessAccount log = (ok sig, log') ->
  exists (tx : Transaction) (ix : TransactionInstruction),
    SignTransaction tx ∈ log' /\
    instructions tx = [ix] /\
    length (data ix) = 40%nat /\
    PublicKey.new (Buffer.slice (data ix) 8 40) = ok randomnessAccount /\
    keys ix !! 0%nat = Some (mkMeta pot false true) /\
    keys ix !! 2%nat = Some (mkMeta randomnessAccount false false).
Proof.
  intros Hhash Hkey32. unfold Sdk.drawLottery. intros Hrun.
  destruct (Sdk.publicKey self) as [payer|] eqn:Hkey; [|discriminate].
  do 1 client_step Hrun.
  apply sendTransaction_inv in Hrun
    as (payer' & blockhash & signed & _ & _ & _ & ->).
  eexists _, _.
  split; [rewrite elem_of_app; right;
          apply list_elem_of_further, list_elem_of_here|].
  split; [reflexivity|].
  cbn [data keys].
  pose proof (length_getDiscriminator "draw_lottery" Hhash) as Hdisc.
  assert (Hbuf : length (PublicKey.toBuffer randomnessAccount) = 32%nat).
  { unfold PublicKey.toBuffer. rewrite length_rev. apply length_writeLE. }
  split; [rewrite length_app; lia|].
  split; [|split; reflexivity].
  rewrite <- (app_nil_r (PublicKey.toBuffer randomnessAccount)) at 1.
  rewrite slice_at by lia.
  apply PublicKey_new_toBuffer. exact Hkey32.
Qed.

Lemma drawLottery_data_decodes_witness :
  exists (tx : Transaction) (ix : TransactionInstruction),
    SignTransaction tx
      ∈ (@Sdk.drawLottery Sample.web3 (Sample.client ∅) 5 6 []).2 /\
    instructions tx = [ix] /\
    PublicKey.new (Buffer.slice (data ix) 8 40) = ok 6.
Proof.
  destruct (@drawLottery_data_decodes Sample.web3 (Sample.client ∅) 5 6 []
              (@Sdk.drawLottery Sample.web3 (Sample.client ∅) 5 6 []).2
              "signature")
    as (tx & ix & Hsigned & Hixs & _ & Hkey & _).
  { vm_compute. lia. }
  { lia. }
  { vm_compute. reflexivity. }
  exists tx, ix. auto.
Defined.

(** ** The listings *)

Lemma getPotStatus_defined (now : Z) (pot : Pot) :
  status_defined pot ->
  exists status : PotStatus,
    getPotStatus now pot = ok status /\
    (status = Active <-> now < endTimestamp pot) /\
    (status = Settled -> 0 < winningSlot pot).
Proof.
  intros [He Hw]. unfold getPotStatus.
  rewrite (toNumber_in_range _ He), (toNumber_in_range _ Hw), !bind_ok.
  destruct (Z.ltb_spec now (endTimestamp pot)) as [Hlt|Hge].
  { eexists. split; [reflexivity|]. split; [tauto | discriminate]. }
  destruct (Z.ltb_spec 0 (winningSlot pot)) as [Hpos|Hnone].
  { eexists. split; [reflexivity|]. split; [|auto].
    split; [discriminate | lia]. }
  destruct (negb _); eexists; (split; [reflexivity|]);
    (split; [split; [discriminate | lia] | discriminate]).
Qed.

Lemma getPotStatus_undefined (now : Z) (pot : Pot) :
  ~ status_defined pot ->
  getPotStatus now pot =
    throw (AssertionError "Number can only safely store up to 53 bits").
Proof.
  intros Hout. apply getPotStatus_throws. unfold status_defined in Hout. lia.
Qed.

Lemma filter_throwing_ok {A} (callback : A -> result bool) (P : A -> Prop)
    `{forall x, Decision (P x)} (l : list A) :
  Forall (fun x => callback x = ok (bool_decide (P x))) l ->
  Sdk.filter_throwing callback l = ok (filter P l).
Proof.
  induction 1 as [|x l Hx _ IH]; [reflexivity|].
  cbn [Sdk.filter_throwing]. rewrite Hx, bind_ok, IH, bind_ok.
  rewrite filter_cons. destruct (decide (P x)) as [Hp|Hp].
  - rewrite bool_decide_eq_true_2 by exact Hp. reflexivity.
  - rewrite bool_decide_eq_false_2 by exact Hp. reflexivity.
Qed.

Lemma filter_throwing_throws {A} (callback : A -> result bool) (err : exn)
    (l : list A) :
  (forall x : A, callback x = throw err \/ exists keep : bool, callback x = ok keep) ->
  Exists (fun x => callback x = throw err) l ->
  Sdk.filter_throwing callback l = throw err.
Proof.
  intros Hcallback. induction l as [|x l IH]; intros Hex.
  { inversion Hex. }
  cbn [Sdk.filter_throwing].
  destruct (Hcallback x) as [Hx|[keep Hx]]; rewrite Hx.
  { apply bind_throw. }
  rewrite bind_ok. rewrite IH; [apply bind_throw|].
  apply Exists_cons in Hex as [Hhere|Hlater]; [|exact Hlater].
  rewrite Hx in Hhere. discriminate Hhere.
Qed.

Lemma run_getActivePots `{Web3} (self : Sdk.OpenLottoClient) (now : Z)
    (log log' : list Rpc) (allPots : list (WithAddress Pot)) :
  Sdk.getAllPots self log = (ok allPots, log') ->
  Sdk.getActivePots self now log =
    (Sdk.filter_throwing
       (fun pot : WithAddress Pot =>
          status ← getPotStatus now (record pot);
          ok (bool_decide (status = Active)))
       allPots, log').
Proof.
  intros Hscan. unfold Sdk.getActivePots. rewrite run_bind, Hscan. reflexivity.
Qed.

(** When every pot of the scan has an end timestamp and a winning index
    within 53 bits, [getActivePots] returns, in the order of the scan,
    exactly the pots whose end timestamp lies after [now], and makes no
    request beyond the scan. *)
Theorem getActivePots_selects `{Web3} (self : Sdk.OpenLottoClient) (now : Z)
    (log log' : list Rpc) (allPots : list (WithAddress Pot)) :
  Sdk.getAllPots self log = (ok allPots, log') ->
  Forall (fun pot => status_defined (record pot)) allPots ->
  Sdk.getActivePots self now log
    = (ok (filter (fun pot => now < endTimestamp (record pot)) allPots), log').
Proof.
  intros Hscan Hdefined. rewrite (run_getActivePots _ _ _ _ _ Hscan).
  f_equal. apply filter_throwing_ok.
  eapply Forall_impl; [exact Hdefined|]. intros pot Hpot. cbn beta.
  destruct (getPotStatus_defined now (record pot) Hpot)
    as (status & -> & Hactive & _).
  rewrite bind_ok. f_equal. apply bool_decide_ext. exact Hactive.
Qed.

Lemma getActivePots_selects_witness :
  @Sdk.getActivePots Sample.web3 (SampleScan.client SampleScan.accounts) 20 []
    = (ok (filter (fun pot => 20 < endTimestamp (record pot))
                  [SampleScan.pot5; SampleScan.pot6]),
       SampleScan.scan).
Proof.
  apply (@getActivePots_selects Sample.web3).
  - vm_compute. reflexivity.
  - repeat constructor; vm_compute; reflexivity.
Defined.

(** One pot of the scan whose end timestamp or winning index does not fit
    53 bits is enough to lose the whole list: [getActivePots] throws
    instead of returning the other pots, and so does the filter of the
    lottery page, whichever filter is chosen, "all" included. *)
Theorem unreadable_pot_breaks_listings `{Web3} (self : Sdk.OpenLottoClient)
    (now : Z) (log log' : list Rpc) (allPots : list (WithAddress Pot)) :
  Sdk.getAllPots self log = (ok allPots, log') ->
  Exists (fun pot => ~ status_defined (record pot)) allPots ->
  Sdk.getActivePots self now log
    = (throw (AssertionError "Number can only safely store up to 53 bits"), log') /\
  (forall filter : Web.ListFilter,
      Web.filteredPots now filter allPots
        = throw (AssertionError "Number can only safely store up to 53 bits")).
Proof.
  intros Hscan Hsome.
  assert (Hcases : forall pot : WithAddress Pot,
             status_defined (record pot) \/ ~ status_defined (record pot)).
  { intros pot. unfold status_defined. lia. }
  split.
  - rewrite (run_getActivePots _ _ _ _ _ Hscan). f_equal.
    apply filter_throwing_throws.
    + intros pot. destruct (Hcases pot) as [Hin|Hout].
      * right. destruct (getPotStatus_defined now (record pot) Hin)
          as (status & -> & _).
        rewrite bind_ok. eauto.
      * left. rewrite (getPotStatus_undefined now _ Hout). apply bind_throw.
    + eapply Exists_impl; [exact Hsome|]. intros pot Hout. cbn beta.
      rewrite (getPotStatus_undefined now _ Hout). apply bind_throw.
  - intros filter. unfold Web.filteredPots.
    apply filter_throwing_throws.
    + intros pot. destruct (Hcases pot) as [Hin|Hout].
      * right. destruct (getPotStatus_defined now (record pot) Hin)
          as (status & -> & _).
        rewrite bind_ok. destruct filter; eauto.
      * left. rewrite (getPotStatus_undefined now _ Hout). apply bind_throw.
    + eapply Exists_impl; [exact Hsome|]. intros pot Hout. cbn beta.
      rewrite (getPotStatus_undefined now _ Hout). apply bind_throw.
Qed.

Lemma unreadable_pot_breaks_listings_witness :
  @Sdk.getActivePots Sample.web3
      (SampleScan.client
         [ (5, mkAccountInfo (SampleScan.pot_record_ending x20) 42);
           (7, mkAccountInfo (replicate 104 xff) 42) ])
      20 []
    = (throw (AssertionError "Number can only safely store up to 53 bits"),
       SampleScan.scan).
Proof.
  apply (@unreadable_pot_breaks_listings Sample.web3
           (SampleScan.client
              [ (5, mkAccountInfo (SampleScan.pot_record_ending x20) 42);
                (7, mkAccountInfo (replicate 104 xff) 42) ])
           20 [] SampleScan.scan
           [ SampleScan.pot5;
             mkWithAddress
               (Types.mkPot (2 ^ 256 - 1) (2 ^ 64 - 1) (2 ^ 64 - 1) (2 ^ 64 - 1)
                            (2 ^ 64 - 1) (2 ^ 256 - 1)) 7 ]).
  - vm_compute. reflexivity.
  - apply Exists_cons_tl, Exists_cons_hd. unfold status_defined. simpl. lia.
Defined.

Lemma filter_throwing_always {A} (callback : A -> result bool) (l : list A) :
  Forall (fun x => callback x = ok true) l ->
  Sdk.filter_throwing callback l = ok l.
Proof.
  induction 1 as [|x l Hx _ IH]; [reflexivity|].
  cbn [Sdk.filter_throwing]. rewrite Hx, bind_ok, IH, bind_ok. reflexivity.
Qed.

(** On pots that [getPotStatus] can read, the filters of the lottery page
    split the list: "all" returns it as it is, "active" the pots ending
    after [now], "ended" the others, each in the order of the list, and
    every pot is in exactly one of the two. *)
Theorem filteredPots_partition (now : Z) (pots : list (WithAddress Pot)) :
  Forall (fun pot => status_defined (record pot)) pots ->
  Web.filteredPots now Web.FilterAll pots = ok pots /\
  Web.filteredPots now Web.FilterActive pots
    = ok (filter (fun pot => now < endTimestamp (record pot)) pots) /\
  Web.filteredPots now Web.FilterEnded pots
    = ok (filter (fun pot => ~ now < endTimestamp (record pot)) pots) /\
  filter (fun pot => now < endTimestamp (record pot)) pots
    ++ filter (fun pot => ~ now < endTimestamp (record pot)) pots ≡ₚ pots.
Proof.
  intros Hdefined. unfold Web.filteredPots.
  split; [|split; [|split]].
  - apply filter_throwing_always.
    eapply Forall_impl; [exact Hdefined|]. intros pot Hpot. cbn beta.
    destruct (getPotStatus_defined now (record pot) Hpot) as (status & -> & _).
    reflexivity.
  - apply filter_throwing_ok.
    eapply Forall_impl; [exact Hdefined|]. intros pot Hpot. cbn beta.
    destruct (getPotStatus_defined now (record pot) Hpot)
      as (status & -> & Hactive & _).
    rewrite bind_ok. f_equal. apply bool_decide_ext. exact Hactive.
  - apply filter_throwing_ok.
    eapply Forall_impl; [exact Hdefined|]. intros pot Hpot. cbn beta.
    destruct (getPotStatus_defined now (record pot) Hpot)
      as (status & -> & Hactive & _).
    rewrite bind_ok. f_equal. apply bool_decide_ext. tauto.
  - apply filter_app_complement.
Qed.

Lemma filteredPots_partition_witness :
  Web.filteredPots 20 Web.FilterEnded [SampleScan.pot5; SampleScan.pot6]
    = ok (filter (fun pot => ~ 20 < endTimestamp (record pot))
                 [SampleScan.pot5; SampleScan.pot6]).
Proof.
  apply (filteredPots_partition 20 [SampleScan.pot5; SampleScan.pot6]).
  repeat constructor; vm_compute; reflexivity.
Defined.

(** [getPotsForManager] asks the node for every pot of the program, with
    the same single request whatever the manager, and picks the manager's
    pots itself: it returns, in the order of the scan, exactly the scanned
    pots whose manager field is the given address. *)
Theorem getPotsForManager_selects `{Web3} (self : Sdk.OpenLottoClient)
    (managerAddress : PublicKey.t) (log log' : list Rpc)
    (pots : list (WithAddress Pot)) :
  Sdk.getPotsForManager self managerAddress log = (ok pots, log') ->
  exists allPots : list (WithAddress Pot),
    Sdk.getAllPots self log = (ok allPots, log') /\
    log' = log ++ [GetProgramAccounts PROGRAM_ID
                     [mkMemcmp 0 (bs58_encode [xee; x76; x3c; xaf; xb2; xbf; x3b; x3a])]] /\
    pots `sublist_of` allPots /\
    (forall pot : WithAddress Pot,
        pot ∈ pots <-> pot ∈ allPots /\ potManager (record pot) = managerAddress).
Proof.
  unfold Sdk.getPotsForManager. rewrite run_bind. intros Hrun.
  destruct (Sdk.getAllPots self log) as [[err|allPots] log1] eqn:Hscan;
    [discriminate|].
  rewrite run_ret in Hrun. injection Hrun as <- <-.
  exists allPots. split; [reflexivity|].
  split.
  { revert Hscan. unfold Sdk.getAllPots.
    change (DISCRIMINATORS !! "POT")
      with (Some [xee; x76; x3c; xaf; xb2; xbf; x3b; x3a]).
    rewrite run_lift. cbn [Buffer.from ok].
    rewrite run_request.
    destruct (getProgramAccounts _ _ _); [discriminate|].
    rewrite run_ret. intros [= _ <-]. reflexivity. }
  split; [apply sublist_filter|].
  intros pot. rewrite list_elem_of_filter. unfold PublicKey.equals.
  rewrite Z.eqb_eq. tauto.
Qed.

Lemma getPotsForManager_selects_witness :
  exists allPots : list (WithAddress Pot),
    @Sdk.getAllPots Sample.web3 (SampleScan.client SampleScan.accounts) []
      = (ok allPots, SampleScan.scan) /\
    [SampleScan.pot5; SampleScan.pot6] `sublist_of` allPots.
Proof.
  destruct (@getPotsForManager_selects Sample.web3
              (SampleScan.client SampleScan.accounts) 9 [] SampleScan.scan
              [SampleScan.pot5; SampleScan.pot6])
    as (allPots & Hscan & _ & Hsub & _).
  { vm_compute. reflexivity. }
  exists allPots. auto.
Defined.

(** ** The tickets page *)

Lemma potOfTicket_Some (pots : Web.PotMap) (ticket : WithAddress Ticket)
    (pot : WithAddress Pot) :
  Web.potOfTicket pots ticket = Some pot ->
  (exists key : string, (key, pot) ∈ pots) /\
  (winningSlot (record pot) = index (record ticket) \/
   index (record ticket) < totalParticipants (record pot)).
Proof.
  unfold Web.potOfTicket. intros Hfound.
  destruct (List.find _ pots) as [[key pot']|] eqn:Hfind; [|discriminate].
  injection Hfound as <-.
  apply find_some in Hfind as [Hin Htest].
  split.
  - exists key. apply list_elem_of_In. exact Hin.
  - cbn [snd] in Htest. unfold BN.eq, BN.gt in Htest.
    apply orb_true_iff in Htest as [Heq|Hgt]; [left | right]; lia.
Qed.

(** The tickets page offers the claim only for a ticket it shows as a
    winner, and then the pot it matched with the ticket is one of the
    listed pots, has ended, and has the ticket's index as its winning
    index, which is positive. A ticket of index 0 is never offered the
    claim. *)
Theorem canClaim_requires_settled_win (now : Z) (pots : Web.PotMap)
    (ticket : WithAddress Ticket) :
  Web.canClaim now pots ticket = ok true ->
  Web.isWinner pots ticket = true /\
  0 < index (record ticket) /\
  exists (key : string) (pot : WithAddress Pot),
    (key, pot) ∈ pots /\
    Web.potOfTicket pots ticket = Some pot /\
    winningSlot (record pot) = index (record ticket) /\
    endTimestamp (record pot) <= now.
Proof.
  unfold Web.canClaim, Web.isWinner.
  destruct (Web.potOfTicket pots ticket) as [pot|] eqn:Hpot; [|discriminate].
  destruct (BN.eq _ _) eqn:Hwin; [|discriminate].
  unfold BN.eq in Hwin. apply Z.eqb_eq in Hwin.
  destruct (getPotStatus now (record pot)) as [err|status] eqn:Hstatus;
    [discriminate|].
  change (inr status ≫= _) with (ok status ≫= fun status : PotStatus =>
    ok (bool_decide (status = Settled))).
  rewrite bind_ok. intros [= Hsettled]. apply bool_decide_eq_true_1 in Hsettled.
  subst status.
  assert (Hended : endTimestamp (record pot) <= now /\ 0 < winningSlot (record pot)).
  { revert Hstatus. unfold getPotStatus, BN.toNumber.
    destruct (Z.abs (endTimestamp (record pot)) <? 2 ^ 53); [|discriminate].
    destruct (Z.abs (winningSlot (record pot)) <? 2 ^ 53); [|discriminate].
    rewrite !bind_ok.
    destruct (Z.ltb_spec now (endTimestamp (record pot))); [discriminate|].
    destruct (Z.ltb_spec 0 (winningSlot (record pot))); [auto|].
    destruct (negb _); discriminate. }
  destruct (potOfTicket_Some pots ticket pot Hpot) as [[key Hin] _].
  split; [reflexivity|]. split; [lia|].
  exists key, pot. tauto.
Qed.

Lemma canClaim_requires_settled_win_witness :
  Web.isWinner
      [("a"%string, mkWithAddress (Types.mkPot 9 5 1 10 2 4) 6)]
      (mkWithAddress (Types.mkTicket 7 2) 8) = true /\
  0 < index (record (mkWithAddress (Types.mkTicket 7 2) 8)).
Proof.
  destruct (canClaim_requires_settled_win 20
              [("a"%string, mkWithAddress (Types.mkPot 9 5 1 10 2 4) 6)]
              (mkWithAddress (Types.mkTicket 7 2) 8))
    as (Hwinner & Hpositive & _); [reflexivity|].
  split; assumption.
Defined.

(** For the ticket of index 0 and a first listed pot without a winner
    (winning index 0), the tickets page computes [isWinner] as true,
    whoever entered that pot and whatever the other pots are. [canClaim]
    is then false when the pot's end timestamp fits 53 bits; when it does
    not, evaluating [canClaim] throws. *)
Theorem isWinner_undrawn_pot (now : Z) (key : string) (pot : WithAddress Pot)
    (rest : Web.PotMap) (ticket : WithAddress Ticket) :
  index (record ticket) = 0 ->
  winningSlot (record pot) = 0 ->
  Web.isWinner ((key, pot) :: rest) ticket = true /\
  (Z.abs (endTimestamp (record pot)) < 2 ^ 53 ->
   Web.canClaim now ((key, pot) :: rest) ticket = ok false) /\
  (2 ^ 53 <= Z.abs (endTimestamp (record pot)) ->
   Web.canClaim now ((key, pot) :: rest) ticket
     = throw (AssertionError "Number can only safely store up to 53 bits")).
Proof.
  intros Hindex Hslot.
  assert (Hpot : Web.potOfTicket ((key, pot) :: rest) ticket = Some pot).
  { unfold Web.potOfTicket. cbn [List.find snd]. unfold BN.eq.
    rewrite Hindex, Hslot. reflexivity. }
  unfold Web.isWinner, Web.canClaim. rewrite Hpot. unfold BN.eq.
  rewrite Hindex, Hslot. cbn [Z.eqb].
  split; [reflexivity|]. split.
  - intros Hrange.
    destruct (getPotStatus_defined now (record pot)) as (status & -> & _ & Hsettled).
    { split; [exact Hrange | rewrite Hslot; simpl; lia]. }
    rewrite bind_ok. f_equal. apply bool_decide_eq_false_2.
    intros Heq. apply Hsettled in Heq. lia.
  - intros Hbig. rewrite getPotStatus_throws by (left; exact Hbig).
    apply bind_throw.
Qed.

Lemma isWinner_undrawn_pot_witness :
  Web.isWinner [("a"%string, SampleScan.pot5); ("b"%string, SampleScan.pot6)]
               (mkWithAddress (Types.mkTicket 7 0) 8) = true /\
  Web.canClaim 20 [("a"%string, SampleScan.pot5); ("b"%string, SampleScan.pot6)]
               (mkWithAddress (Types.mkTicket 7 0) 8) = ok false.
Proof.
  destruct (isWinner_undrawn_pot 20 "a" SampleScan.pot5
              [("b"%string, SampleScan.pot6)] (mkWithAddress (Types.mkTicket 7 0) 8))
    as (Hwinner & Hclaim & _); [reflexivity | reflexivity |].
  split; [exact Hwinner|]. apply Hclaim. simpl. lia.
Defined.

(** ** The winning ticket, its address *)

(** A ticket [getWinningTicket] reports was read at the address
    [deriveTicketPDA] gives for the pot and its stored winning index, and
    that address is the one reported with it; the call made two requests,
    for the pot and for that address. *)
Theorem getWinningTicket_address `{Web3} (self : Sdk.OpenLottoClient)
    (pot : PublicKey.t) (log log' : list Rpc) (ticket : WithAddress Ticket) :
  Sdk.getWinningTicket self pot log = (ok (Some ticket), log') ->
  exists (potInfo ticketInfo : AccountInfo) (potData : Pot)
         (derived : PublicKey.t * Z),
    getAccountInfo (Sdk.connection self) pot = ok (Some potInfo) /\
    Sdk.parsePotAccount (account_data potInfo) = Some potData /\
    Utils.deriveTicketPDA pot (winningSlot potData) = ok derived /\
    getAccountInfo (Sdk.connection self) derived.1 = ok (Some ticketInfo) /\
    Sdk.parseTicketAccount (account_data ticketInfo) = Some (record ticket) /\
    address ticket = derived.1 /\
    log' = log ++ [GetAccountInfo pot; GetAccountInfo derived.1].
Proof.
  unfold Sdk.getWinningTicket, Sdk.getPot, Sdk.getTicket. intros Hrun.
  rewrite run_bind, run_request in Hrun.
  destruct (getAccountInfo (Sdk.connection self) pot) as [?|[potInfo|]]
    eqn:Hpot; try (rewrite ?run_ret in Hrun; discriminate Hrun).
  rewrite run_ret in Hrun. unfold ok in Hrun. cbn beta iota in Hrun.
  destruct (Sdk.parsePotAccount (account_data potInfo)) as [potData|]
    eqn:Hparsed; try (rewrite ?run_ret in Hrun; discriminate Hrun).
  destruct (BN.isZero (winningSlot potData));
    try (rewrite ?run_ret in Hrun; discriminate Hrun).
  rewrite run_lift in Hrun.
  destruct (Utils.deriveTicketPDA pot (winningSlot potData)) as [?|derived]
    eqn:Hderived; [discriminate|].
  rewrite run_bind, run_request in Hrun.
  destruct (getAccountInfo (Sdk.connection self) derived.1) as [?|[ticketInfo|]]
    eqn:Hticket; try (rewrite ?run_ret in Hrun; discriminate Hrun).
  rewrite run_ret in Hrun. unfold ok in Hrun. cbn beta iota in Hrun.
  destruct (Sdk.parseTicketAccount (account_data ticketInfo)) as [found|]
    eqn:Hfound; try (rewrite ?run_ret in Hrun; discriminate Hrun).
  rewrite run_ret in Hrun. injection Hrun as <- <-.
  exists potInfo, ticketInfo, potData, derived.
  repeat (split; [assumption || reflexivity|]).
  rewrite <- app_assoc. reflexivity.
Qed.

Lemma getWinningTicket_address_witness :
  exists derived : PublicKey.t * Z,
    @Utils.deriveTicketPDA Sample.web3 5 2 = ok derived /\
    Sample.winning_ticket_address = derived.1.
Proof.
  destruct (@getWinningTicket_address Sample.web3
              (Sample.client
                 {[ 5 := mkAccountInfo (Sample.pot_record x02) 42;
                    Sample.winning_ticket_address
                      := mkAccountInfo Sample.ticket_record 42 ]})
              5 [] [GetAccountInfo 5; GetAccountInfo Sample.winning_ticket_address]
              (mkWithAddress (Types.mkTicket 7 3) Sample.winning_ticket_address))
    as (potInfo & ticketInfo & potData & derived
        & Hpot & Hparsed & Hderived & _ & _ & Haddress & _).
  { vm_compute. reflexivity. }
  exists derived. split; [|exact Haddress].
  vm_compute in Hpot. injection Hpot as <-.
  vm_compute in Hparsed. injection Hparsed as <-.
  exact Hderived.
Defined.

(** [getWinningTicket] throws only what the node threw at one of its two
    requests or what the address derivation threw on the ticket seeds: the
    winning index it read always fits the 8 bytes of the seed, so the
    conversion of the index never fails, and the readers never throw. *)
Theorem getWinningTicket_exceptions `{Web3} (self : Sdk.OpenLottoClient)
    (pot : PublicKey.t) (log log' : list Rpc) (err : exn) :
  Sdk.getWinningTicket self pot log = (throw err, log') ->
  (exists address : PublicKey.t,
      getAccountInfo (Sdk.connection self) address = throw err) \/
  (exists winning : Z,
      0 <= winning < 2 ^ 64 /\
      findProgramAddressSync
          [SEED_TICKET; PublicKey.toBuffer pot; Buffer.writeLE 8 winning]
          PROGRAM_ID = throw err).
Proof.
  unfold Sdk.getWinningTicket, Sdk.getPot, Sdk.getTicket. intros Hrun.
  rewrite run_bind, run_request in Hrun.
  destruct (getAccountInfo (Sdk.connection self) pot) as [e|[potInfo|]] eqn:Hpot.
  { injection Hrun as -> _. left. exists pot. exact Hpot. }
  2:{ rewrite !run_ret in Hrun. discriminate Hrun. }
  rewrite run_ret in Hrun. unfold ok in Hrun. cbn beta iota in Hrun.
  rewrite parsePotAccount_fields in Hrun. cbn [winningSlot] in Hrun.
  destruct (BN.isZero _); [rewrite run_ret in Hrun; discriminate Hrun|].
  rewrite run_lift in Hrun.
  unfold Utils.deriveTicketPDA, BN.toArrayLike_le in Hrun.
  pose proof (readLE_slice_range (account_data potInfo) 64 72) as Hrange.
  change (256 ^ Z.of_nat (72 - 64)) with (2 ^ 64) in Hrange.
  set (winning := Buffer.readLE (Buffer.slice (account_data potInfo) 64 72)) in *.
  rewrite (Z.abs_eq winning) in Hrun by lia.
  destruct (Z.ltb_spec winning (256 ^ Z.of_nat 8)) as [_|Hbig];
    [|change (256 ^ Z.of_nat 8) with (2 ^ 64) in Hbig; lia].
  rewrite bind_ok in Hrun.
  destruct (findProgramAddressSync _ _) as [e|derived] eqn:Hderived.
  { injection Hrun as -> _. right. exists winning. split; [lia | exact Hderived]. }
  rewrite run_bind, run_request in Hrun.
  destruct (getAccountInfo (Sdk.connection self) derived.1)
    as [e|[ticketInfo|]] eqn:Hticket.
  { injection Hrun as -> _. left. exists derived.1. exact Hticket. }
  2:{ rewrite !run_ret in Hrun. discriminate Hrun. }
  rewrite run_ret in Hrun. unfold ok in Hrun. cbn beta iota in Hrun.
  rewrite parseTicketAccount_fields, run_ret in Hrun. discriminate Hrun.
Qed.

Lemma getWinningTicket_exceptions_witness :
  (exists address : PublicKey.t,
      getAccountInfo
          (mkConnection (fun _ => throw (Error "node down")) (fun _ _ => ok [])
                        (ok ("blockhash"%string, 1))
                        (fun _ => ok "signature"%string) (fun _ => ok ()))
          address
        = throw (Error "node down")) \/
  (exists winning : Z,
      0 <= winning < 2 ^ 64 /\
      @findProgramAddressSync Sample.web3
          [SEED_TICKET; PublicKey.toBuffer 5; Buffer.writeLE 8 winning]
          PROGRAM_ID = throw (Error "node down")).
Proof.
  apply (@getWinningTicket_exceptions Sample.web3
           (Sdk.mkClient
              (mkConnection (fun _ => throw (Error "node down")) (fun _ _ => ok [])
                            (ok ("blockhash"%string, 1))
                            (fun _ => ok "signature"%string) (fun _ => ok ()))
              None Devnet)
           5 [] [GetAccountInfo 5] (Error "node down")).
  reflexivity.
Defined.

(** ** The randomness request record, when it cannot be read *)

(** [checkRandomnessStatus] makes one request. It answers "not found" when
    the node has no account at the address, "initialized" for every record
    shorter than 152 bytes, whatever its bytes are, and throws what the
    node threw. *)
Theorem checkRandomnessStatus_unreadable (self : Sdk.OpenLottoClient)
    (acct : PublicKey.t) (log : list Rpc) :
  (getAccountInfo (Sdk.connection self) acct = ok None ->
   Sdk.checkRandomnessStatus self acct log
     = (ok NotFound, log ++ [GetAccountInfo acct])) /\
  (forall info : AccountInfo,
      getAccountInfo (Sdk.connection self) acct = ok (Some info) ->
      (length (account_data info) < 152)%nat ->
      Sdk.checkRandomnessStatus self acct log
        = (ok Initialized, log ++ [GetAccountInfo acct])) /\
  (forall err : exn,
      getAccountInfo (Sdk.connection self) acct = throw err ->
      Sdk.checkRandomnessStatus self acct log
        = (throw err, log ++ [GetAccountInfo acct])).
Proof.
  unfold Sdk.checkRandomnessStatus. rewrite run_request.
  split; [|split].
  - intros ->. reflexivity.
  - intros info -> Hshort. unfold ok.
    destruct (decide (length (account_data info) < 144 + 8)%nat) as [_|Hlong];
      [reflexivity|].
    exfalso. apply Hlong. exact Hshort.
  - intros err ->. reflexivity.
Qed.

Lemma checkRandomnessStatus_unreadable_witness :
  Sdk.checkRandomnessStatus
      (Sample.client {[ 5 := mkAccountInfo (replicate 151 xff) 42 ]}) 5 []
    = (ok Initialized, [] ++ [GetAccountInfo 5]).
Proof.
  destruct (checkRandomnessStatus_unreadable
              (Sample.client {[ 5 := mkAccountInfo (replicate 151 xff) 42 ]}) 5 [])
    as (_ & Hshort & _).
  apply (Hshort (mkAccountInfo (replicate 151 xff) 42)).
  - reflexivity.
  - vm_compute. lia.
Defined.

(** ** The draw page *)

(** The draw page never offers both actions. It offers the draw only for
    a selected pot that has ended, has no winner and names no randomness
    account, and the settlement only for one that has ended, has no winner
    and names a randomness account other than the null key. *)
Theorem draw_page_buttons (now : Z) (loading : bool) (selectedPot : string)
    (selectedPotData : option (WithAddress Pot)) (status : option PotStatus) :
  Admin.potStatus now selectedPotData = ok status ->
  (Admin.drawDisabled loading selectedPot status = false ->
   Admin.settleDisabled loading selectedPot status = true /\
   exists pot : WithAddress Pot,
     selectedPotData = Some pot /\
     endTimestamp (record pot) <= now /\
     winningSlot (record pot) <= 0 /\
     randomnessAccount (record pot) = PublicKey.default) /\
  (Admin.settleDisabled loading selectedPot status = false ->
   Admin.drawDisabled loading selectedPot status = true /\
   exists pot : WithAddress Pot,
     selectedPotData = Some pot /\
     endTimestamp (record pot) <= now /\
     winningSlot (record pot) <= 0 /\
     randomnessAccount (record pot) <> PublicKey.default).
Proof.
  unfold Admin.potStatus, Admin.drawDisabled, Admin.settleDisabled.
  intros Hstatus.
  destruct loading; [split; discriminate|].
  destruct (String.eqb selectedPot ""); [split; discriminate|].
  cbn [orb].
  destruct selectedPotData as [pot|].
  2:{ injection Hstatus as <-. split; intros Hoff;
      apply bool_decide_eq_false_1 in Hoff; exfalso; apply Hoff; discriminate. }
  revert Hstatus. unfold getPotStatus, BN.toNumber, PublicKey.equals.
  destruct (Z.abs (endTimestamp (record pot)) <? 2 ^ 53); [|discriminate].
  destruct (Z.abs (winningSlot (record pot)) <? 2 ^ 53); [|discriminate].
  rewrite !bind_ok.
  destruct (Z.ltb_spec now (endTimestamp (record pot))) as [Hlt|Hge].
  { rewrite bind_ok. intros [= <-]. split; intros Hoff;
      apply bool_decide_eq_false_1 in Hoff; exfalso; apply Hoff; discriminate. }
  destruct (Z.ltb_spec 0 (winningSlot (record pot))) as [Hpos|Hnone].
  { rewrite bind_ok. intros [= <-]. split; intros Hoff;
      apply bool_decide_eq_false_1 in Hoff; exfalso; apply Hoff; discriminate. }
  destruct (Z.eqb_spec (randomnessAccount (record pot)) PublicKey.default)
    as [Hnull|Hset]; cbn [negb]; rewrite bind_ok; intros [= <-]; split; intros Hoff.
  - split; [reflexivity|]. exists pot. auto.
  - apply bool_decide_eq_false_1 in Hoff. exfalso. apply Hoff. discriminate.
  - apply bool_decide_eq_false_1 in Hoff. exfalso. apply Hoff. discriminate.
  - split; [reflexivity|]. exists pot. auto.
Qed.

Lemma draw_page_buttons_witness :
  Admin.settleDisabled false "pot6" (Some Closed) = true /\
  exists pot : WithAddress Pot,
    Some (mkWithAddress (Types.mkPot 9 5 1 10 0 0) 6) = Some pot /\
    endTimestamp (record pot) <= 20 /\
    winningSlot (record pot) <= 0 /\
    randomnessAccount (record pot) = PublicKey.default.
Proof.
  destruct (draw_page_buttons 20 false "pot6"
              (Some (mkWithAddress (Types.mkPot 9 5 1 10 0 0) 6)) (Some Closed))
    as [Hdraw _]; [reflexivity|].
  apply Hdraw. reflexivity.
Defined.

(** ** Shortened addresses *)

Lemma length_append (s1 s2 : string) :
  String.length (s1 +:+ s2) = (String.length s1 + String.length s2)%nat.
Proof. induction s1 as [|c s1 IH]; simpl; [reflexivity | rewrite IH; reflexivity]. Qed.

Lemma length_substring (s : string) (n m : nat) :
  String.length (String.substring n m s) = Nat.min m (String.length s - n).
Proof.
  revert n m. induction s as [|c s IH]; intros [|n] [|m]; simpl;
    rewrite ?IH; try reflexivity; lia.
Qed.

Lemma substring_whole (s : string) (m : nat) :
  (String.length s <= m)%nat -> String.substring 0 m s = s.
Proof.
  revert m. induction s as [|c s IH]; intros [|m] Hm; simpl in *;
    try reflexivity; try lia.
  rewrite IH by lia. reflexivity.
Qed.

Lemma substring_nothing (s : string) (n : nat) : String.substring n 0 s = ""%string.
Proof. revert n. induction s as [|c s IH]; intros [|n]; simpl; auto. Qed.

Lemma shortenAddress_parts (address : string) (chars : Z) :
  0 < chars ->
  Format.shortenAddress address chars =
    String.substring 0
        (Z.to_nat (Z.min chars (Z.of_nat (String.length address)))) address
    +:+ "..." +:+
    String.substring
        (Z.to_nat (Z.max (Z.of_nat (String.length address) - chars) 0))
        (Z.to_nat (Z.min chars (Z.of_nat (String.length address)))) address.
Proof.
  intros Hchars. unfold Format.shortenAddress, Format.slice. cbv zeta.
  set (len := Z.of_nat (String.length address)).
  assert (Hlen : 0 <= len) by (unfold len; lia).
  change (0 <? 0) with false. cbv iota.
  destruct (Z.ltb_spec chars 0) as [Hneg|_]; [lia|].
  destruct (Z.ltb_spec (- chars) 0) as [_|Hpos]; [|lia].
  destruct (Z.ltb_spec len 0) as [Hneg|_]; [lia|].
  rewrite (Z.min_l 0 len), (Z.min_id len) by lia.
  destruct (Z.eq_dec len 0) as [Hempty|Hsome].
  - rewrite Hempty. rewrite (Z.min_r chars 0), (Z.max_r (0 + - chars) 0) by lia.
    change (0 <=? 0) with true. cbv iota.
    change (Z.to_nat 0) with 0%nat. rewrite !substring_nothing. reflexivity.
  - destruct (Z.leb_spec (Z.min chars len) 0) as [Hle|_]; [lia|].
    destruct (Z.leb_spec len (Z.max (len + - chars) 0)) as [Hle|_]; [lia|].
    rewrite Z.sub_0_r.
    replace (len + - chars) with (len - chars) by lia.
    replace (len - Z.max (len - chars) 0) with (Z.min chars len) by lia.
    reflexivity.
Qed.

(** For a positive number of characters, [shortenAddress] keeps the first
    and the last [chars] characters of a text around three dots, so that
    the result has 2 * min(chars, length) + 3 characters. A text of at most
    [chars] characters is kept whole on both sides: the result repeats it
    and is longer than the text. *)
Theorem shortenAddress_shape (address : string) (chars : Z) :
  0 < chars ->
  Z.of_nat (String.length (Format.shortenAddress address chars))
    = 2 * Z.min chars (Z.of_nat (String.length address)) + 3 /\
  (Z.of_nat (String.length address) <= chars ->
   Format.shortenAddress address chars = address +:+ "..." +:+ address) /\
  (chars <= Z.of_nat (String.length address) ->
   Format.shortenAddress address chars =
     String.substring 0 (Z.to_nat chars) address
     +:+ "..." +:+
     String.substring (String.length address - Z.to_nat chars) (Z.to_nat chars)
                      address).
Proof.
  intros Hchars. rewrite (shortenAddress_parts address chars Hchars).
  split; [|split].
  - rewrite !length_append, !length_substring. cbn [String.length]. lia.
  - intros Hshort.
    rewrite (Z.min_r chars), (Z.max_r _ 0), Nat2Z.id by lia.
    change (Z.to_nat 0) with 0%nat.
    rewrite substring_whole by lia. reflexivity.
  - intros Hlong.
    rewrite (Z.min_l chars), (Z.max_l _ 0) by lia.
    rewrite Z2Nat.inj_sub, Nat2Z.id by lia. reflexivity.
Qed.

Lemma shortenAddress_shape_witness :
  Format.shortenAddress "So11111111111111111111111111111111111111112" 4
    = "So11...1112"%string /\
  Format.shortenAddress "abc" 4 = "abc...abc"%string.
Proof.
  destruct (shortenAddress_shape "So11111111111111111111111111111111111111112" 4)
    as (_ & _ & Hlong); [lia|].
  destruct (shortenAddress_shape "abc" 4) as (_ & Hshort & _); [lia|].
  split.
  - rewrite Hlong by (simpl; lia). reflexivity.
  - rewrite Hshort by (simpl; lia). reflexivity.
Defined.
